(** * discord_chat_replay: the subtitle generator [subtitles.py]

    A shallow embedding of the script that turns a chat transcript into a
    scrolling overlay of timed cues, and the properties its description
    states about it.

    Conventions of the embedding.
    - A Python [str] is a list of Unicode code points ([pystr]); [len] is
      [length], slices are [firstn]/[skipn].
    - A [datetime] is the number of microseconds since 1900-01-01 00:00:00
      (the date [strptime] gives to a time of day); a [timedelta] is a
      number of microseconds.  Both are unbounded integers: the times of a
      day, shifted by a few hours, never leave the range of [datetime].
    - A Python exception is a [Raise] outcome. *)

From Stdlib Require Import ZArith NArith List Bool Lia Ascii.
From Stdlib Require String.
Import ListNotations.
Import String.StringSyntax.
Delimit Scope string_scope with pylit.

(** ** Python values *)

Definition codepoint := N.
Definition pystr := list codepoint.

(** An ASCII literal as a [pystr]. *)
Definition lit (s : String.string) : pystr :=
  map N_of_ascii (String.list_ascii_of_string s).
Arguments lit s%_pylit.

Definition char_eqb (a b : codepoint) : bool := N.eqb a b.

Fixpoint str_eqb (a b : pystr) : bool :=
  match a, b with
  | [], [] => true
  | x :: a', y :: b' => char_eqb x y && str_eqb a' b'
  | _, _ => false
  end.

Inductive exn : Type :=
| ValueError
| IndexError
| KeyError
| FileNotFoundError.

Inductive outcome (A : Type) : Type :=
| Ok (a : A)
| Raise (e : exn).
Arguments Ok {A} a.
Arguments Raise {A} e.

Definition bind {A B} (m : outcome A) (k : A -> outcome B) : outcome B :=
  match m with
  | Ok a => k a
  | Raise e => Raise e
  end.

Declare Scope py_scope.
Delimit Scope py_scope with py.
Notation "x <- m ;; k" := (bind m (fun x => k))
  (at level 61, m at next level, right associativity) : py_scope.
Notation "' p <- m ;; k" := (bind m (fun x => match x with p => k end))
  (at level 61, p pattern, m at next level, right associativity) : py_scope.
Open Scope py_scope.

Definition is_ok {A} (m : outcome A) : Prop :=
  match m with Ok _ => True | Raise _ => False end.

(** [l[i]] for a non-negative index. *)
Definition getitem {A} (l : list A) (i : nat) : outcome A :=
  match nth_error l i with
  | Some x => Ok x
  | None => Raise IndexError
  end.

(** [l[-1]]. *)
Definition getitem_last {A} (l : list A) : outcome A :=
  match l with
  | [] => Raise IndexError
  | x :: l' => Ok (last l' x)
  end.

(** [enumerate(l)]. *)
Definition enumerate {A} (l : list A) : list (nat * A) :=
  combine (seq 0 (length l)) l.

(** [s.split(sep)] for a one-character separator. *)
Fixpoint split_char (sep : codepoint) (s : pystr) : list pystr :=
  match s with
  | [] => [[]]
  | c :: s' =>
      if char_eqb c sep then [] :: split_char sep s'
      else match split_char sep s' with
           | [] => [[c]]
           | w :: ws => (c :: w) :: ws
           end
  end.

(** ** Times *)

Local Open Scope Z_scope.

Definition datetime := Z.
Definition timedelta := Z.

Definition usec : Z := 1000000.

(** [timedelta(hours=h, minutes=m, seconds=s)]. *)
Definition timedelta_hms (h m s : Z) : timedelta := (h * 3600 + m * 60 + s) * usec.

Definition digit_value (c : codepoint) : option Z :=
  if (N.leb 48 c && N.leb c 57)%bool then Some (Z.of_N c - 48) else None.

(** The value of a string of decimal digits. *)
Fixpoint digits_value (acc : Z) (s : pystr) : option Z :=
  match s with
  | [] => Some acc
  | c :: s' =>
      match digit_value c with
      | Some d => digits_value (acc * 10 + d) s'
      | None => None
      end
  end.

(** One of the fields [%H], [%M], [%S]: one or two digits, at most [bound]. *)
Definition time_field (bound : Z) (s : pystr) : outcome Z :=
  match s with
  | [_] | [_; _] =>
      match digits_value 0 s with
      | Some v => if v <=? bound then Ok v else Raise ValueError
      | None => Raise ValueError
      end
  | _ => Raise ValueError
  end.

(** [%f]: one to six digits, read as a decimal fraction of a second. *)
Definition fraction_field (s : pystr) : outcome Z :=
  if ((1 <=? length s) && (length s <=? 6))%nat then
    match digits_value 0 (s ++ repeat 48%N (6 - length s)) with
    | Some v => Ok v
    | None => Raise ValueError
    end
  else Raise ValueError.

Definition colon : codepoint := 58%N.
Definition dot : codepoint := 46%N.

(** [datetime.strptime(s, "%H:%M:%S")].  The fields are ASCII digits. *)
Definition strptime_HMS (s : pystr) : outcome datetime :=
  match split_char colon s with
  | [h; m; sec] =>
      h' <- time_field 23 h ;;
      m' <- time_field 59 m ;;
      s' <- time_field 59 sec ;;
      Ok (timedelta_hms h' m' s')
  | _ => Raise ValueError
  end.

(** [convert_to_datetime]: [datetime.strptime(s, "%H:%M:%S.%f")]. *)
Definition convert_to_datetime (decimal_timestamp : pystr) : outcome datetime :=
  match split_char colon decimal_timestamp with
  | [h; m; sf] =>
      match split_char dot sf with
      | [sec; f] =>
          h' <- time_field 23 h ;;
          m' <- time_field 59 m ;;
          s' <- time_field 59 sec ;;
          f' <- fraction_field f ;;
          Ok (timedelta_hms h' m' s' + f')
      | _ => Raise ValueError
      end
  | _ => Raise ValueError
  end.

(** The fields of a [datetime] that [strftime] prints. *)
Definition second_of_day (d : datetime) : Z := (d / usec) mod 86400.
Definition microsecond (d : datetime) : Z := d mod usec.

Definition two_digits (n : Z) : pystr :=
  [Z.to_N (48 + n / 10); Z.to_N (48 + n mod 10)].

(** [d.strftime("%H:%M:%S")]. *)
Definition strftime_HMS (d : datetime) : pystr :=
  let s := second_of_day d in
  two_digits (s / 3600) ++ [colon] ++ two_digits (s / 60 mod 60)
    ++ [colon] ++ two_digits (s mod 60).

(** [datetime.strftime(d, "%H:%M:%S.00")]: the [.00] is text of the format. *)
Definition strftime_HMS00 (d : datetime) : pystr :=
  strftime_HMS d ++ lit ".00".

(** ** The snips *)

Definition Snip : Type := pystr * pystr.

Definition CRUMBLES_SNIPS : list Snip :=
  [ (lit "00:05:20.00", lit "00:05:54.00");
    (lit "00:25:34.00", lit "00:25:39.90");
    (lit "00:39:01.90", lit "00:39:11.00");
    (lit "00:39:06.00", lit "00:39:50.00");
    (lit "00:40:12.40", lit "00:40:22.20");
    (lit "00:40:32.40", lit "00:41:43.70");
    (lit "00:57:17.60", lit "00:57:37.50");
    (lit "00:58:00.00", lit "00:58:19.90");
    (lit "01:21:08.70", lit "01:21:20.00");
    (lit "01:21:15.00", lit "01:22:49.00") ].

(** An element of the list [convert_crumbles_to_absolute] returns:
    [(real_snip_begin, real_snip_end, total_snipped)]. *)
Record SnipState : Type := mkSnipState {
  snip_begin : datetime;
  snip_end : datetime;
  to_snip : timedelta
}.

(** The loop of [convert_crumbles_to_absolute], from the running total. *)
Fixpoint crumbles_loop (snips : list Snip) (total_snipped : timedelta)
  : outcome (list SnipState) :=
  match snips with
  | [] => Ok []
  | (snip_begin, snip_end) :: rest =>
      snip_begin_time <- convert_to_datetime snip_begin ;;
      snip_end_time <- convert_to_datetime snip_end ;;
      let real_snip_begin := snip_begin_time + total_snipped in
      let real_snip_end := snip_end_time + total_snipped in
      real_snips <- crumbles_loop rest
                      (total_snipped + (snip_end_time - snip_begin_time)) ;;
      Ok (mkSnipState real_snip_begin real_snip_end total_snipped :: real_snips)
  end.

(** [convert_crumbles_to_absolute], with the table of snips as a parameter
    (the script reads the global [CRUMBLES_SNIPS]). *)
Definition convert_crumbles_to_absolute (snips : list Snip)
  : outcome (list SnipState) :=
  crumbles_loop snips 0.

(** ** The timestamp mapper *)

(** [timedelta(hours=4, minutes=3, seconds=52)]. *)
Definition chat_offset : timedelta := timedelta_hms 4 3 52.

(** [[(begin, to_snip) for (begin, end, to_snip) in absolutes
      if begin <= t <= end]]. *)
Definition held_within (absolutes : list SnipState) (t : datetime)
  : list (datetime * timedelta) :=
  flat_map (fun s =>
              if (snip_begin s <=? t) && (t <=? snip_end s)
              then [(snip_begin s, to_snip s)] else [])
           absolutes.

(** [[i for i, (_, end, _) in enumerate(absolutes) if end < t]]. *)
Definition ended_before (absolutes : list SnipState) (t : datetime) : list nat :=
  flat_map (fun '(i, s) => if snip_end s <? t then [i] else [])
           (enumerate absolutes).

(** Lines 168-194 of [convert_message_timestamp_to_subtitle_time]: the
    messages sent during a snip are flattened onto its beginning, the others
    are moved back by the time snipped before them. *)
Definition flatten_snips (absolutes : list SnipState) (timestamp_as_date : datetime)
  : outcome datetime :=
  match held_within absolutes timestamp_as_date with
  | (b, c) :: _ => Ok (b - c)
  | [] =>
      first <- getitem absolutes 0 ;;
      if timestamp_as_date <? snip_begin first then Ok timestamp_as_date
      else
        final <- getitem_last absolutes ;;
        if snip_end final <? timestamp_as_date
        then Ok (timestamp_as_date - to_snip final)
        else
          i <- getitem_last (ended_before absolutes timestamp_as_date) ;;
          next <- getitem absolutes (i + 1) ;;
          Ok (timestamp_as_date - to_snip next)
  end.

(** The [datetime] that [convert_message_timestamp_to_subtitle_time] prints:
    everything but the final [strftime]. *)
Definition subtitle_datetime (snips : list Snip) (timestamp : pystr)
  : outcome datetime :=
  parsed <- strptime_HMS timestamp ;;
  let timestamp_as_date := parsed - chat_offset in
  absolutes <- convert_crumbles_to_absolute snips ;;
  flatten_snips absolutes timestamp_as_date.

Definition convert_message_timestamp_to_subtitle_time
  (snips : list Snip) (timestamp : pystr) : outcome pystr :=
  d <- subtitle_datetime snips timestamp ;;
  Ok (strftime_HMS00 d).

(** The examples of the description. *)
Example map_no_snip :
  convert_message_timestamp_to_subtitle_time CRUMBLES_SNIPS (lit "04:08:20")
  = Ok (lit "00:04:28.00").
Proof. vm_compute. reflexivity. Qed.

Example map_inside_first_snip :
  convert_message_timestamp_to_subtitle_time CRUMBLES_SNIPS (lit "04:09:22")
  = Ok (lit "00:05:20.00").
Proof. vm_compute. reflexivity. Qed.

(** ** The snips as numbers *)

(** The snips of a table, parsed. *)
Fixpoint parse_snips (snips : list Snip) : outcome (list (datetime * datetime)) :=
  match snips with
  | [] => Ok []
  | (b, e) :: rest =>
      b' <- convert_to_datetime b ;;
      e' <- convert_to_datetime e ;;
      rest' <- parse_snips rest ;;
      Ok ((b', e') :: rest')
  end.

(** What [crumbles_loop] builds from parsed snips. *)
Fixpoint absolutes_from (ps : list (datetime * datetime)) (total_snipped : timedelta)
  : list SnipState :=
  match ps with
  | [] => []
  | (b, e) :: rest =>
      mkSnipState (b + total_snipped) (e + total_snipped) total_snipped
        :: absolutes_from rest (total_snipped + (e - b))
  end.

(** A list of intervals is sorted and non-overlapping: every interval ends
    no earlier than it begins and no later than the next one begins. *)
Fixpoint sorted_nonoverlapping (ps : list (datetime * datetime)) : Prop :=
  match ps with
  | [] => True
  | (b, e) :: rest =>
      b <= e
      /\ match rest with [] => True | (b', _) :: _ => e <= b' end
      /\ sorted_nonoverlapping rest
  end.

(** The intervals of the SnipStates. *)
Definition intervals (absolutes : list SnipState) : list (datetime * datetime) :=
  map (fun s => (snip_begin s, snip_end s)) absolutes.

(** The begin of a SnipState on the time line of the edited video. *)
Definition edited_begin (s : SnipState) : datetime := snip_begin s - to_snip s.

(** Two SnipStates that follow each other in the list. *)
Definition follows (s s' : SnipState) : Prop :=
  snip_end s <= snip_begin s'
  /\ to_snip s' = to_snip s + (snip_end s - snip_begin s).

Inductive chain : list SnipState -> Prop :=
| chain_nil : chain []
| chain_one s : snip_begin s <= snip_end s -> chain [s]
| chain_cons s s' l :
    snip_begin s <= snip_end s -> follows s s' -> chain (s' :: l) ->
    chain (s :: s' :: l).

(** What holds of a SnipState and any later one of a chain. *)
Definition precedes (s s' : SnipState) : Prop :=
  snip_end s <= snip_begin s'
  /\ edited_begin s <= edited_begin s'
  /\ to_snip s + (snip_end s - snip_begin s) <= to_snip s'.

(** [t] is held within the SnipState [s]. *)
Definition holds_within (s : SnipState) (t : datetime) : Prop :=
  snip_begin s <= t <= snip_end s.

(** Where a time stands among the SnipStates, and what [flatten_snips]
    makes of it there: before the first one; within some, [i] being the
    first such; between two, [i] being the last one that ends before it;
    after the last one. *)
Inductive located (absolutes : list SnipState) (t v : datetime) : Prop :=
| loc_before s :
    (forall s', In s' absolutes -> ~ holds_within s' t) ->
    nth_error absolutes 0 = Some s ->
    t < snip_begin s -> v = t -> located absolutes t v
| loc_inside i s :
    nth_error absolutes i = Some s -> holds_within s t ->
    (forall j s', (j < i)%nat -> nth_error absolutes j = Some s' ->
                  ~ holds_within s' t) ->
    v = snip_begin s - to_snip s ->
    located absolutes t v
| loc_between s0 i s s' :
    (forall s', In s' absolutes -> ~ holds_within s' t) ->
    nth_error absolutes 0 = Some s0 -> snip_begin s0 <= t ->
    nth_error absolutes i = Some s -> nth_error absolutes (S i) = Some s' ->
    snip_end s < t < snip_begin s' ->
    (forall j s'', (i < j)%nat -> nth_error absolutes j = Some s'' ->
                   t <= snip_end s'') ->
    v = t - to_snip s' ->
    located absolutes t v
| loc_after s0 s :
    (forall s', In s' absolutes -> ~ holds_within s' t) ->
    nth_error absolutes 0 = Some s0 -> snip_begin s0 <= t ->
    nth_error absolutes (length absolutes - 1) = Some s ->
    snip_end s < t -> v = t - to_snip s -> located absolutes t v.

(** ** Facts about the construction of the SnipStates *)

Lemma crumbles_loop_parsed (snips : list Snip) (total_snipped : timedelta) :
  crumbles_loop snips total_snipped
  = (ps <- parse_snips snips ;; Ok (absolutes_from ps total_snipped)).
Proof.
  revert total_snipped.
  induction snips as [|[b e] rest IH]; intros total; simpl; [reflexivity|].
  destruct (convert_to_datetime b) as [b'|]; simpl; [|reflexivity].
  destruct (convert_to_datetime e) as [e'|]; simpl; [|reflexivity].
  rewrite IH.
  destruct (parse_snips rest); reflexivity.
Qed.

Lemma absolutes_from_length ps total :
  length (absolutes_from ps total) = length ps.
Proof.
  revert total; induction ps as [|[b e] rest IH]; intros; simpl; auto.
Qed.

Lemma absolutes_from_head ps total s :
  nth_error (absolutes_from ps total) 0 = Some s -> to_snip s = total.
Proof.
  destruct ps as [|[b e] rest]; simpl; [discriminate|].
  intros H; injection H as <-; reflexivity.
Qed.

(** Cuts made one after the other, each on the time line left by the cuts
    before it: every cut begins no earlier than the one before it. *)
Fixpoint cuts_in_order (ps : list (datetime * datetime)) : Prop :=
  match ps with
  | [] => True
  | (b, e) :: rest =>
      b <= e
      /\ match rest with [] => True | (b', _) :: _ => b <= b' end
      /\ cuts_in_order rest
  end.

Lemma sorted_nonoverlapping_cuts_in_order ps :
  sorted_nonoverlapping ps -> cuts_in_order ps.
Proof.
  induction ps as [|[b e] rest IH]; simpl; [trivial|].
  intros (Hbe & Hnext & Hrest). repeat split; auto.
  destruct rest as [|[b' e'] rest']; [trivial|lia].
Qed.

Lemma cuts_in_order_chain ps total :
  cuts_in_order ps -> chain (absolutes_from ps total).
Proof.
  revert total; induction ps as [|[b e] rest IH]; intros total; simpl.
  - constructor.
  - intros (Hbe & Hnext & Hrest).
    destruct rest as [|[b' e'] rest'].
    + simpl. constructor. simpl. lia.
    + specialize (IH (total + (e - b)) Hrest). simpl in IH |- *.
      constructor; [simpl; lia| |exact IH].
      unfold follows; simpl. lia.
Qed.

(** The SnipStates of sorted, non-overlapping snips are sorted and do not
    overlap either. *)
Lemma cuts_in_order_intervals ps total :
  cuts_in_order ps -> sorted_nonoverlapping (intervals (absolutes_from ps total)).
Proof.
  revert total; induction ps as [|[b e] rest IH]; intros total; simpl; [trivial|].
  intros (Hbe & Hnext & Hrest). split; [lia|]. split.
  - destruct rest as [|[b' e'] rest']; simpl; [trivial|lia].
  - apply IH; assumption.
Qed.

(** ** Facts about a chain *)

Lemma chain_tail s l : chain (s :: l) -> chain l.
Proof. inversion 1; subst; [constructor|assumption]. Qed.

Lemma chain_ok l i s :
  chain l -> nth_error l i = Some s -> snip_begin s <= snip_end s.
Proof.
  intros Hc; revert i; induction Hc; intros [|i] Hi; simpl in Hi;
    try rewrite nth_error_nil in Hi; try discriminate.
  - injection Hi as <-; assumption.
  - injection Hi as <-; assumption.
  - eapply IHHc; eassumption.
Qed.

Lemma chain_follows l i s s' :
  chain l -> nth_error l i = Some s -> nth_error l (S i) = Some s' ->
  follows s s'.
Proof.
  intros Hc; revert i; induction Hc; intros [|i] Hi Hi'; simpl in Hi, Hi';
    try rewrite nth_error_nil in Hi; try discriminate.
  - injection Hi as <-. injection Hi' as <-. assumption.
  - eapply IHHc; eassumption.
Qed.

Lemma follows_precedes s s' :
  snip_begin s <= snip_end s -> follows s s' -> precedes s s'.
Proof. unfold follows, precedes, edited_begin. lia. Qed.

Lemma precedes_trans s1 s2 s3 :
  snip_begin s2 <= snip_end s2 ->
  precedes s1 s2 -> precedes s2 s3 -> precedes s1 s3.
Proof. unfold precedes, edited_begin. lia. Qed.

Lemma chain_head_precedes s l :
  chain (s :: l) -> forall s', In s' l -> precedes s s'.
Proof.
  revert s; induction l as [|s1 l IH]; intros s Hc s' Hin; [destruct Hin|].
  inversion Hc as [| |? ? ? Hok Hf Hc']; subst.
  assert (H1 : precedes s s1) by (apply follows_precedes; assumption).
  assert (Hok1 : snip_begin s1 <= snip_end s1)
    by (apply chain_ok with (l := s1 :: l) (i := 0%nat);
        [assumption|reflexivity]).
  destruct Hin as [<-|Hin]; [assumption|].
  apply precedes_trans with s1; [exact Hok1|exact H1|].
  apply IH; assumption.
Qed.

Lemma chain_precedes l i j s s' :
  chain l -> (i < j)%nat ->
  nth_error l i = Some s -> nth_error l j = Some s' -> precedes s s'.
Proof.
  revert i j; induction l as [|x l IH]; intros i j Hc Hij Hi Hj.
  - destruct i; discriminate.
  - destruct j as [|j]; [lia|]. destruct i as [|i]; simpl in Hi, Hj.
    + injection Hi as ->. eapply chain_head_precedes; [eassumption|].
      eapply nth_error_In; eassumption.
    + apply IH with (i := i) (j := j);
        [eapply chain_tail; eassumption|lia|assumption|assumption].
Qed.

(** Everything [lia] needs to compare two SnipStates of a chain. *)
Lemma chain_compare l i j s s' :
  chain l -> nth_error l i = Some s -> nth_error l j = Some s' ->
  (i <= j)%nat ->
  snip_begin s <= snip_end s /\ snip_begin s' <= snip_end s'
  /\ snip_begin s <= snip_begin s' /\ snip_end s <= snip_end s'
  /\ edited_begin s <= edited_begin s'
  /\ ((i < j)%nat -> precedes s s').
Proof.
  intros Hc Hi Hj Hij.
  pose proof (chain_ok _ _ _ Hc Hi) as Hs. pose proof (chain_ok _ _ _ Hc Hj) as Hs'.
  destruct (Nat.eq_dec i j) as [->|Hne].
  - rewrite Hi in Hj; injection Hj as <-. repeat split; try lia.
  - assert (Hp : precedes s s')
      by (apply chain_precedes with (l := l) (i := i) (j := j);
          [assumption|lia|assumption|assumption]).
    unfold precedes in *. repeat split; try lia; tauto.
Qed.

(** ** Facts about the searches of [flatten_snips] *)

Lemma last_cons {A} (l : list A) (x d : A) : last (x :: l) d = last l x.
Proof.
  revert x d; induction l as [|y l IH]; intros x d; [reflexivity|].
  change (last (x :: y :: l) d) with (last (y :: l) d).
  rewrite (IH y d), (IH y x). reflexivity.
Qed.

Lemma last_app_cons {A} (a b : list A) (y d : A) :
  last (a ++ y :: b) d = last b y.
Proof.
  induction a as [|x a IH]; simpl app.
  - apply last_cons.
  - rewrite last_cons. destruct a as [|x' a]; simpl app in *.
    + apply last_cons.
    + rewrite <- (IH). symmetry. rewrite last_cons. rewrite last_cons.
      reflexivity.
Qed.

Lemma getitem_last_app {A} (a b : list A) :
  getitem_last (a ++ b)
  = match b with [] => getitem_last a | _ :: _ => getitem_last b end.
Proof.
  destruct b as [|y b]; [rewrite app_nil_r; reflexivity|].
  destruct a as [|x a]; [reflexivity|].
  simpl. f_equal. apply last_app_cons.
Qed.

Lemma getitem_last_nth {A} (l : list A) x :
  getitem_last l = Ok x -> nth_error l (length l - 1) = Some x.
Proof.
  destruct l as [|y l]; simpl; [discriminate|].
  intros H; injection H as <-.
  rewrite Nat.sub_0_r.
  revert y; induction l as [|z l IH]; intros y; [reflexivity|].
  simpl length. change (nth_error (y :: z :: l) (S (length l)))
    with (nth_error (z :: l) (length l)).
  rewrite IH. rewrite (last_cons l z y). reflexivity.
Qed.

Lemma held_within_cases (absolutes : list SnipState) (t : datetime) :
  (held_within absolutes t = []
   /\ forall s, In s absolutes -> ~ holds_within s t)
  \/ (exists i s rest,
        held_within absolutes t = (snip_begin s, to_snip s) :: rest
        /\ nth_error absolutes i = Some s /\ holds_within s t
        /\ forall j s', (j < i)%nat -> nth_error absolutes j = Some s' ->
                        ~ holds_within s' t).
Proof.
  unfold holds_within.
  induction absolutes as [|s l IH]; simpl.
  - left; split; [reflexivity|intros s []].
  - destruct (snip_begin s <=? t) eqn:Hb; destruct (t <=? snip_end s) eqn:He;
      simpl.
    1: { right. exists 0%nat, s, (held_within l t).
         repeat split; try lia. }
    all: destruct IH as [[Hnil Hall]|(i & s1 & rest & Hh & Hi & Hin & Hfirst)];
      [left; split; [assumption|intros s' [<-|Hs']; [lia|auto]]
      |right; exists (S i), s1, rest; repeat split; try assumption; try lia;
       intros [|j] s' Hj Hs'; simpl in Hs';
       [injection Hs' as <-; lia|apply (Hfirst j); [lia|assumption]]].
Qed.

Lemma held_within_nil (absolutes : list SnipState) (t : datetime) :
  held_within absolutes t = [] ->
  forall s, In s absolutes -> ~ holds_within s t.
Proof.
  intros Hnil.
  destruct (held_within_cases absolutes t) as [[_ H]|(i & s & rest & Hh & _)];
    [exact H|congruence].
Qed.

Lemma ended_before_last (absolutes : list SnipState) (t : datetime) (k : nat) :
  match getitem_last
          (flat_map (fun '(i, s) => if snip_end s <? t then [i] else [])
                    (combine (seq k (length absolutes)) absolutes)) with
  | Ok i =>
      (k <= i)%nat
      /\ exists s, nth_error absolutes (i - k) = Some s /\ snip_end s < t
                   /\ forall j s', (i - k < j)%nat ->
                                   nth_error absolutes j = Some s' ->
                                   t <= snip_end s'
  | Raise _ => forall s, In s absolutes -> t <= snip_end s
  end.
Proof.
  revert k; induction absolutes as [|s l IH]; intros k; simpl.
  - intros s [].
  - rewrite getitem_last_app. specialize (IH (S k)).
    destruct (flat_map _ (combine (seq (S k) (length l)) l)) as [|i0 r] eqn:E.
    + simpl in IH. destruct (snip_end s <? t) eqn:He; simpl.
      * split; [lia|]. exists s. rewrite Nat.sub_diag. repeat split; [lia|].
        intros [|j] s' Hj Hs'; [lia|]. simpl in Hs'.
        apply IH. eapply nth_error_In; eassumption.
      * intros s' [<-|Hs']; [lia|auto].
    + destruct (getitem_last (i0 :: r)) as [i|] eqn:El; [|discriminate].
      destruct IH as (Hk & s1 & Hi & Hlt & Hlater).
      split; [lia|]. exists s1.
      replace (i - k)%nat with (S (i - S k)) by lia. simpl.
      repeat split; try assumption.
      intros [|j] s' Hj Hs'; [lia|]. simpl in Hs'.
      apply (Hlater j); [lia|assumption].
Qed.

(** [flatten_snips] returns on every non-empty list of SnipStates, and what
    it returns is told by where the time stands. *)
Lemma flatten_snips_located (absolutes : list SnipState) (t : datetime) :
  absolutes <> [] ->
  exists v, flatten_snips absolutes t = Ok v /\ located absolutes t v.
Proof.
  intros Hne. unfold flatten_snips.
  destruct (held_within_cases absolutes t)
    as [[Hnil Hout]|(i & s & rest & Hh & Hi & Hin & Hfirst)].
  2: { rewrite Hh. eexists; split; [reflexivity|].
       eapply loc_inside; eauto. }
  rewrite Hnil.
  destruct absolutes as [|s0 l] eqn:Eabs; [congruence|]. rewrite <- Eabs in *.
  assert (H0 : nth_error absolutes 0 = Some s0) by (rewrite Eabs; reflexivity).
  unfold getitem at 1. rewrite H0. cbn [bind].
  destruct (t <? snip_begin s0) eqn:Hb0.
  { eexists; split; [reflexivity|]. eapply loc_before; eauto. lia. }
  destruct (getitem_last absolutes) as [sl|] eqn:El;
    [|rewrite Eabs in El; discriminate].
  pose proof (getitem_last_nth _ _ El) as Hl. cbn [bind].
  destruct (snip_end sl <? t) eqn:Hel.
  { eexists; split; [reflexivity|]. eapply loc_after; eauto; lia. }
  pose proof (ended_before_last absolutes t 0) as Hend.
  unfold ended_before, enumerate.
  destruct (getitem_last _) as [i|e] in Hend |- *; cbn [bind].
  - destruct Hend as (_ & s & Hi & Hlt & Hlater). rewrite Nat.sub_0_r in Hi.
    assert (Hlen : (S i < length absolutes)%nat).
    { assert (i < length absolutes)%nat by (apply nth_error_Some; congruence).
      destruct (Nat.eq_dec (S i) (length absolutes)) as [E|E]; [|lia].
      replace (length absolutes - 1)%nat with i in Hl by lia.
      rewrite Hi in Hl; injection Hl as ->. lia. }
    destruct (nth_error absolutes (S i)) as [s'|] eqn:Hi';
      [|apply nth_error_None in Hi'; lia].
    unfold getitem. rewrite Nat.add_1_r, Hi'. cbn [bind].
    eexists; split; [reflexivity|].
    assert (t <= snip_end s') by (apply (Hlater (S i)); [lia|assumption]).
    assert (~ holds_within s' t)
      by (apply Hout; eapply nth_error_In; eassumption).
    unfold holds_within in *.
    apply loc_between with (s0 := s0) (i := i) (s := s) (s' := s');
      [exact Hout|exact H0|lia|exact Hi|exact Hi'|lia| |reflexivity].
    intros j s'' Hj Hs''. apply (Hlater j); [lia|assumption].
  - exfalso. assert (Hin0 : In s0 absolutes) by (rewrite Eabs; left; reflexivity).
    apply (Hout s0 Hin0). unfold holds_within. specialize (Hend s0 Hin0). lia.
Qed.

(** ** The mapping is monotone *)

Definition compared (i j : nat) : Prop := True.

(** Compares every two SnipStates named in the context, in the order
    their indices allow. *)
Ltac compare_snips Hc :=
  repeat match goal with
    | Hi : nth_error ?l ?i = Some ?s, Hj : nth_error ?l ?j = Some ?s' |- _ =>
        lazymatch goal with
        | _ : compared i j |- _ => fail
        | _ => idtac
        end;
        assert (compared i j) by exact I;
        first [ pose proof (chain_compare _ _ _ _ _ Hc Hi Hj ltac:(lia))
              | assert (j < i)%nat by lia
              | let Hle := fresh "Hle" in
                let Hgt := fresh "Hgt" in
                destruct (le_lt_dec i j) as [Hle|Hgt];
                [pose proof (chain_compare _ _ _ _ _ Hc Hi Hj Hle)|] ]
    end.

Ltac same_index :=
  repeat match goal with
    | Hi : nth_error ?l ?i = Some ?s, Hj : nth_error ?l ?i = Some ?s' |- _ =>
        rewrite Hi in Hj; injection Hj as Hj; subst s'
    end.

Ltac index_bounds :=
  repeat match goal with
    | Hi : nth_error ?l ?i = Some ?s |- _ =>
        lazymatch goal with
        | _ : (i < length l)%nat |- _ => fail
        | _ => idtac
        end;
        assert (i < length l)%nat by (apply nth_error_Some; congruence)
    end.

Lemma located_monotone (absolutes : list SnipState) (t1 t2 v1 v2 : datetime) :
  chain absolutes ->
  (forall s, nth_error absolutes 0 = Some s -> to_snip s = 0) ->
  located absolutes t1 v1 -> located absolutes t2 v2 ->
  t1 < t2 -> v1 <= v2.
Proof.
  intros Hc Hzero [s1 _ H1 Hb1 ->|i1 s1 H1 Hin1 _ ->
                  |z1 i1 s1 s1' _ Hz1 Hzb1 H1 H1' Hg1 _ ->
                  |z1 s1 _ Hz1 Hzb1 H1 Ha1 ->]
                  [s2 _ H2 Hb2 ->|i2 s2 H2 Hin2 _ ->
                  |z2 i2 s2 s2' _ Hz2 Hzb2 H2 H2' Hg2 _ ->
                  |z2 s2 _ Hz2 Hzb2 H2 Ha2 ->]
                  Hlt;
    unfold holds_within in *;
    try (pose proof (Hzero _ H1)); try (pose proof (Hzero _ H2));
    try (pose proof (Hzero _ Hz1)); try (pose proof (Hzero _ Hz2));
    try (pose proof (chain_follows _ _ _ _ Hc H1 H1'));
    try (pose proof (chain_follows _ _ _ _ Hc H2 H2'));
    same_index; index_bounds; compare_snips Hc;
    unfold follows, precedes, edited_begin in *; lia.
Qed.

Lemma flatten_snips_monotone (absolutes : list SnipState) (t1 t2 : datetime) :
  chain absolutes ->
  (forall s, nth_error absolutes 0 = Some s -> to_snip s = 0) ->
  absolutes <> [] -> t1 <= t2 ->
  exists v1 v2,
    flatten_snips absolutes t1 = Ok v1 /\ flatten_snips absolutes t2 = Ok v2
    /\ v1 <= v2.
Proof.
  intros Hc Hzero Hne Hle.
  destruct (flatten_snips_located absolutes t1 Hne) as (v1 & E1 & L1).
  destruct (flatten_snips_located absolutes t2 Hne) as (v2 & E2 & L2).
  exists v1, v2. repeat split; try assumption.
  destruct (Z.eq_dec t1 t2) as [->|Hneq].
  - rewrite E1 in E2. injection E2 as ->. lia.
  - apply (located_monotone absolutes t1 t2 v1 v2); auto. lia.
Qed.

Lemma parse_snips_nil (snips : list Snip) :
  parse_snips snips = Ok [] -> snips = [].
Proof.
  destruct snips as [|[b e] rest]; simpl; [reflexivity|].
  destruct (convert_to_datetime b); simpl; [|discriminate].
  destruct (convert_to_datetime e); simpl; [|discriminate].
  destruct (parse_snips rest); simpl; discriminate.
Qed.

Lemma convert_crumbles_parsed (snips : list Snip) ps :
  parse_snips snips = Ok ps ->
  convert_crumbles_to_absolute snips = Ok (absolutes_from ps 0).
Proof.
  intros H. unfold convert_crumbles_to_absolute.
  rewrite crumbles_loop_parsed, H. reflexivity.
Qed.

Lemma convert_crumbles_inv (snips : list Snip) absolutes :
  convert_crumbles_to_absolute snips = Ok absolutes ->
  exists ps, parse_snips snips = Ok ps /\ absolutes = absolutes_from ps 0.
Proof.
  unfold convert_crumbles_to_absolute. rewrite crumbles_loop_parsed.
  destruct (parse_snips snips) as [ps|]; simpl; [|discriminate].
  intros H; injection H as <-. exists ps; split; reflexivity.
Qed.

(** The SnipStates determine the order of the cuts they were built from. *)
Lemma intervals_sorted_cuts_in_order ps total :
  sorted_nonoverlapping (intervals (absolutes_from ps total)) ->
  cuts_in_order ps.
Proof.
  revert total; induction ps as [|[b e] rest IH]; intros total; simpl;
    [trivial|].
  intros (Hbe & Hnext & Hrest). split; [lia|]. split.
  - destruct rest as [|[b' e'] rest']; simpl in *; [trivial|lia].
  - eapply IH; eassumption.
Qed.

(** The whole mapping, on the SnipStates of snips in order. *)
Lemma subtitle_datetime_monotone (snips : list Snip) ps (ts1 ts2 : pystr)
    (t1 t2 : datetime) :
  parse_snips snips = Ok ps -> cuts_in_order ps -> ps <> [] ->
  strptime_HMS ts1 = Ok t1 -> strptime_HMS ts2 = Ok t2 -> t1 <= t2 ->
  exists m1 m2,
    subtitle_datetime snips ts1 = Ok m1 /\ subtitle_datetime snips ts2 = Ok m2
    /\ m1 <= m2.
Proof.
  intros Hps Hord Hne H1 H2 Hle.
  unfold subtitle_datetime.
  rewrite H1, H2, (convert_crumbles_parsed _ _ Hps). cbn [bind].
  apply flatten_snips_monotone.
  - apply cuts_in_order_chain; assumption.
  - apply absolutes_from_head.
  - destruct ps as [|[b e] rest]; [congruence|discriminate].
  - lia.
Qed.

Definition two_snips : list Snip :=
  [ (lit "00:05:20.00", lit "00:05:54.00");
    (lit "00:25:34.00", lit "00:25:39.90") ].

(** The table of the script is made of cuts in order (two pairs of its
    snips overlap as written). *)
Lemma CRUMBLES_SNIPS_in_order :
  exists ps, parse_snips CRUMBLES_SNIPS = Ok ps /\ cuts_in_order ps /\ ps <> [].
Proof.
  eexists. split; [vm_compute; reflexivity|].
  split; [|discriminate]. simpl. lia.
Qed.

(** ** Messages sent during a snip *)

Lemma flatten_snips_first_holder (absolutes : list SnipState) (t : datetime)
    (i : nat) (s : SnipState) :
  nth_error absolutes i = Some s -> holds_within s t ->
  (forall j s', (j < i)%nat -> nth_error absolutes j = Some s' ->
                ~ holds_within s' t) ->
  flatten_snips absolutes t = Ok (snip_begin s - to_snip s).
Proof.
  intros Hi Hin Hfirst.
  assert (Hne : absolutes <> []) by (destruct absolutes, i; discriminate).
  destruct (flatten_snips_located absolutes t Hne)
    as (v & E & [s0 Hout _ _ _|i' s' Hi' Hin' Hfirst' ->
                |s0 i' s' s'' Hout _ _ _ _ _ _ _|s0 s' Hout _ _ _ _ _]);
    try (exfalso; apply (Hout s); [eapply nth_error_In; eassumption|assumption]).
  rewrite E. destruct (Nat.lt_trichotomy i i') as [Hlt|[->|Hgt]].
  - exfalso. apply (Hfirst' i s); assumption.
  - rewrite Hi in Hi'. injection Hi' as <-. reflexivity.
  - exfalso. apply (Hfirst i' s'); assumption.
Qed.

Lemma flatten_snips_any_holder (absolutes : list SnipState) (t : datetime)
    (s : SnipState) :
  chain absolutes -> In s absolutes -> holds_within s t ->
  flatten_snips absolutes t = Ok (snip_begin s - to_snip s).
Proof.
  intros Hc Hin Hh.
  assert (Hne : absolutes <> []) by (destruct absolutes; [destruct Hin|discriminate]).
  destruct (In_nth_error _ _ Hin) as (j & Hj).
  destruct (flatten_snips_located absolutes t Hne)
    as (v & E & [s0 Hout _ _ _|i s' Hi Hin' Hfirst ->
                |s0 i s' s'' Hout _ _ _ _ _ _ _|s0 s' Hout _ _ _ _ _]);
    try (exfalso; apply (Hout s); assumption).
  rewrite E. f_equal.
  destruct (le_lt_dec i j) as [Hle|Hgt].
  - pose proof (chain_compare _ _ _ _ _ Hc Hi Hj Hle) as F.
    unfold holds_within, precedes, edited_begin in *.
    destruct (Nat.eq_dec i j) as [->|Hne'].
    + rewrite Hi in Hj. injection Hj as <-. reflexivity.
    + assert (i < j)%nat by lia. lia.
  - exfalso. apply (Hfirst j s); assumption.
Qed.

(** C2. A raw timestamp whose time, the offset taken off, falls within
    [[absoluteStart, absoluteEnd]] of some snip, the two ends included, is
    mapped to [absoluteStart - cumulativeRemoved] of that snip, which is
    what gets printed. *)
Theorem held_within_snip_collapses (snips : list Snip)
    (absolutes : list SnipState) (ts : pystr) (t : datetime) (s : SnipState) :
  convert_crumbles_to_absolute snips = Ok absolutes ->
  sorted_nonoverlapping (intervals absolutes) ->
  strptime_HMS ts = Ok t ->
  In s absolutes ->
  snip_begin s <= t - chat_offset <= snip_end s ->
  subtitle_datetime snips ts = Ok (snip_begin s - to_snip s)
  /\ convert_message_timestamp_to_subtitle_time snips ts
     = Ok (strftime_HMS00 (snip_begin s - to_snip s)).
Proof.
  intros Habs Hsorted Hts Hin Hheld.
  assert (E : subtitle_datetime snips ts = Ok (snip_begin s - to_snip s)).
  { unfold subtitle_datetime. rewrite Hts, Habs. cbn [bind].
    apply flatten_snips_any_holder; [|assumption|exact Hheld].
    destruct (convert_crumbles_inv _ _ Habs) as (ps & _ & ->).
    apply cuts_in_order_chain.
    eapply intervals_sorted_cuts_in_order; eassumption. }
  split; [exact E|].
  unfold convert_message_timestamp_to_subtitle_time. rewrite E. reflexivity.
Qed.

(** The SnipStates of the script's table. *)
Definition CRUMBLES_ABSOLUTES : list SnipState :=
  Eval vm_compute in
    match convert_crumbles_to_absolute CRUMBLES_SNIPS with
    | Ok absolutes => absolutes
    | Raise _ => []
    end.

Lemma CRUMBLES_ABSOLUTES_eq :
  convert_crumbles_to_absolute CRUMBLES_SNIPS = Ok CRUMBLES_ABSOLUTES.
Proof. vm_compute. reflexivity. Qed.

(** A message sent at 04:09:46 stands at 00:05:54.00 of the raw video,
    the very end of the first snip, and is shown at its begin. *)
Lemma held_within_snip_collapses_witness :
  subtitle_datetime CRUMBLES_SNIPS (lit "04:09:46") = Ok (320000000 - 0)
  /\ convert_message_timestamp_to_subtitle_time CRUMBLES_SNIPS (lit "04:09:46")
     = Ok (strftime_HMS00 (320000000 - 0)).
Proof.
  apply (held_within_snip_collapses CRUMBLES_SNIPS CRUMBLES_ABSOLUTES
           (lit "04:09:46") (timedelta_hms 4 9 46)
           (mkSnipState 320000000 354000000 0)).
  - vm_compute. reflexivity.
  - simpl. lia.
  - vm_compute. reflexivity.
  - left. reflexivity.
  - vm_compute. split; discriminate.
Defined.

(** ** Messages sent outside every snip *)

(** As the description words it: the latest snip whose end precedes the
    time, and the adjustment by the cumulative removal of that snip. *)
Definition latest_ended_before (absolutes : list SnipState) (t : datetime)
  : outcome SnipState :=
  getitem_last (filter (fun s => snip_end s <? t) absolutes).

Definition described_adjustment (absolutes : list SnipState) (t : datetime)
  : outcome datetime :=
  first <- getitem absolutes 0 ;;
  final <- getitem_last absolutes ;;
  if t <? snip_begin first then Ok t
  else if snip_end final <? t then Ok (t - to_snip final)
  else s <- latest_ended_before absolutes t ;; Ok (t - to_snip s).

Lemma absolutes_from_step ps total i s s' :
  nth_error (absolutes_from ps total) i = Some s ->
  nth_error (absolutes_from ps total) (S i) = Some s' ->
  to_snip s' = to_snip s + (snip_end s - snip_begin s).
Proof.
  revert total i; induction ps as [|[b e] rest IH]; intros total i Hi Hi'.
  - destruct i; discriminate.
  - destruct i as [|i]; simpl in Hi, Hi'.
    + injection Hi as <-. apply absolutes_from_head in Hi'. simpl. lia.
    + eapply IH; eassumption.
Qed.

Lemma flatten_snips_outside (absolutes : list SnipState) (t : datetime)
    (first final : SnipState) :
  (forall s, In s absolutes -> ~ holds_within s t) ->
  getitem absolutes 0 = Ok first -> getitem_last absolutes = Ok final ->
  (t < snip_begin first -> flatten_snips absolutes t = Ok t)
  /\ (snip_begin first <= t -> snip_end final < t ->
      flatten_snips absolutes t = Ok (t - to_snip final))
  /\ (snip_begin first <= t -> t <= snip_end final ->
      exists i s next,
        nth_error absolutes i = Some s /\ snip_end s < t
        /\ (forall j s', (i < j)%nat -> nth_error absolutes j = Some s' ->
                         t <= snip_end s')
        /\ nth_error absolutes (S i) = Some next
        /\ flatten_snips absolutes t = Ok (t - to_snip next)).
Proof.
  intros Hout Hfirst Hfinal.
  assert (H0 : nth_error absolutes 0 = Some first)
    by (unfold getitem in Hfirst; destruct (nth_error absolutes 0);
        [injection Hfirst as ->; reflexivity|discriminate]).
  pose proof (getitem_last_nth _ _ Hfinal) as Hl.
  assert (Hne : absolutes <> []) by (destruct absolutes; discriminate).
  destruct (flatten_snips_located absolutes t Hne)
    as (v & E & [s0 _ Hs0 Hb ->|i s Hi Hin _ _
                |s0 i s s' _ Hs0 Hb0 Hi Hi' Hg Hlater ->
                |s0 s _ Hs0 Hb0 Hs Ha ->]);
    same_index; rewrite E.
  - repeat split; intros; try lia; reflexivity.
  - exfalso. apply (Hout s); [eapply nth_error_In; eassumption|assumption].
  - assert (Hlen : (S i < length absolutes)%nat)
      by (apply nth_error_Some; congruence).
    assert (t <= snip_end final)
      by (apply (Hlater (length absolutes - 1)%nat); [lia|assumption]).
    repeat split; intros; try lia.
    exists i, s, s'. repeat split; try assumption; lia.
  - repeat split; intros; try lia; try reflexivity.
Qed.

(** C3, as the code has it.  A time, the offset taken off, that is held
    within no snip: before the first snip's begin it is left as it is;
    otherwise, after the last snip's end, the last snip's [to_snip] (the
    removal before that snip) is taken off; otherwise the [to_snip] of the
    snip that comes next after the latest snip ending before the time is
    taken off, which is the removal up to and including that latest snip. *)
Theorem outside_snips_adjustment (snips : list Snip)
    (absolutes : list SnipState) (ts : pystr) (t : datetime)
    (first final : SnipState) :
  convert_crumbles_to_absolute snips = Ok absolutes ->
  strptime_HMS ts = Ok t ->
  (forall s, In s absolutes -> ~ holds_within s (t - chat_offset)) ->
  getitem absolutes 0 = Ok first -> getitem_last absolutes = Ok final ->
  (t - chat_offset < snip_begin first ->
   subtitle_datetime snips ts = Ok (t - chat_offset))
  /\ (snip_begin first <= t - chat_offset ->
      snip_end final < t - chat_offset ->
      subtitle_datetime snips ts = Ok (t - chat_offset - to_snip final))
  /\ (snip_begin first <= t - chat_offset ->
      t - chat_offset <= snip_end final ->
      exists i s next,
        nth_error absolutes i = Some s /\ snip_end s < t - chat_offset
        /\ (forall j s', (i < j)%nat -> nth_error absolutes j = Some s' ->
                         t - chat_offset <= snip_end s')
        /\ nth_error absolutes (S i) = Some next
        /\ to_snip next = to_snip s + (snip_end s - snip_begin s)
        /\ subtitle_datetime snips ts = Ok (t - chat_offset - to_snip next)).
Proof.
  intros Habs Hts Hout Hfirst Hfinal.
  unfold subtitle_datetime. rewrite Hts, Habs. cbn [bind].
  destruct (flatten_snips_outside absolutes (t - chat_offset) first final
              Hout Hfirst Hfinal) as (Hbefore & Hafter & Hbetween).
  repeat split; try assumption.
  intros Hb He.
  destruct (Hbetween Hb He) as (i & s & next & Hi & Hlt & Hlater & Hn & E).
  exists i, s, next. repeat split; try assumption.
  destruct (convert_crumbles_inv _ _ Habs) as (ps & _ & ->).
  eapply absolutes_from_step; eassumption.
Qed.

(** A message sent at 04:13:52 stands at 00:10:00.00 of the raw video,
    between the first and the second snip. *)
Lemma outside_snips_adjustment_witness :
  exists i s next,
    nth_error CRUMBLES_ABSOLUTES i = Some s
    /\ snip_end s < timedelta_hms 4 13 52 - chat_offset
    /\ (forall j s', (i < j)%nat -> nth_error CRUMBLES_ABSOLUTES j = Some s' ->
                     timedelta_hms 4 13 52 - chat_offset <= snip_end s')
    /\ nth_error CRUMBLES_ABSOLUTES (S i) = Some next
    /\ to_snip next = to_snip s + (snip_end s - snip_begin s)
    /\ subtitle_datetime CRUMBLES_SNIPS (lit "04:13:52")
       = Ok (timedelta_hms 4 13 52 - chat_offset - to_snip next).
Proof.
  apply (outside_snips_adjustment CRUMBLES_SNIPS CRUMBLES_ABSOLUTES
           (lit "04:13:52") (timedelta_hms 4 13 52)
           (mkSnipState 320000000 354000000 0)
           (mkSnipState 5100200000 5194200000 225200000)).
  - vm_compute. reflexivity.
  - vm_compute. reflexivity.
  - apply held_within_nil. vm_compute. reflexivity.
  - vm_compute. reflexivity.
  - vm_compute. reflexivity.
  - vm_compute. discriminate.
  - vm_compute. discriminate.
Defined.

(** Between the first and the second snip the description takes off the
    removal before the first snip, which is nothing; the code takes off the
    34 seconds of the first snip. *)
Lemma described_adjustment_counterexample :
  held_within CRUMBLES_ABSOLUTES (timedelta_hms 0 10 0) = []
  /\ latest_ended_before CRUMBLES_ABSOLUTES (timedelta_hms 0 10 0)
     = Ok (mkSnipState 320000000 354000000 0)
  /\ described_adjustment CRUMBLES_ABSOLUTES (timedelta_hms 0 10 0)
     = Ok (timedelta_hms 0 10 0)
  /\ flatten_snips CRUMBLES_ABSOLUTES (timedelta_hms 0 10 0)
     = Ok (timedelta_hms 0 9 26)
  /\ convert_message_timestamp_to_subtitle_time CRUMBLES_SNIPS (lit "04:13:52")
     = Ok (lit "00:09:26.00")
  /\ flatten_snips CRUMBLES_ABSOLUTES (timedelta_hms 0 10 0)
     <> described_adjustment CRUMBLES_ABSOLUTES (timedelta_hms 0 10 0).
Proof.
  repeat split; try (vm_compute; reflexivity).
  vm_compute. discriminate.
Qed.

(** ** The printed time *)

(** As the description words it: a time printed to the hundredth of a
    second, [HH:MM:SS.ss]. *)
Definition hundredths_format (d : datetime) : pystr :=
  strftime_HMS d ++ [dot] ++ two_digits (microsecond d / 10000).

Lemma whole_second_fields (d : datetime) :
  second_of_day (d - microsecond d) = second_of_day d
  /\ microsecond (d - microsecond d) = 0.
Proof.
  unfold second_of_day, microsecond, usec.
  assert (E : d - d mod 1000000 = (d / 1000000) * 1000000)
    by (pose proof (Z.div_mod d 1000000); lia).
  rewrite E. split.
  - rewrite Z.div_mul by lia. reflexivity.
  - apply Z.mod_mul. lia.
Qed.

(** C8, as the code has it.  What the mapper prints is the mapped time cut
    down to its whole second, in the format [HH:MM:SS.ss]: the two digits
    after the point are the [00] of the format string, whatever the
    fraction of the mapped time. *)
Theorem printed_time_is_whole_second (snips : list Snip) (ts : pystr) :
  convert_message_timestamp_to_subtitle_time snips ts
  = (d <- subtitle_datetime snips ts ;;
     Ok (hundredths_format (d - microsecond d))).
Proof.
  unfold convert_message_timestamp_to_subtitle_time.
  destruct (subtitle_datetime snips ts) as [d|e]; [|reflexivity].
  cbn [bind]. f_equal.
  unfold strftime_HMS00, hundredths_format, strftime_HMS.
  destruct (whole_second_fields d) as [-> ->]. reflexivity.
Qed.

(** Every printed time has eleven characters and ends in [.00]. *)
Lemma printed_time_shape (snips : list Snip) (ts out : pystr) :
  convert_message_timestamp_to_subtitle_time snips ts = Ok out ->
  length out = 11%nat /\ skipn 8 out = lit ".00"
  /\ nth_error out 2 = Some colon /\ nth_error out 5 = Some colon.
Proof.
  unfold convert_message_timestamp_to_subtitle_time.
  destruct (subtitle_datetime snips ts) as [d|e]; [|discriminate].
  intros H; injection H as <-. repeat split.
Qed.

(** A message sent at 04:40:00 is mapped to 00:35:28.1 of the video (39.9
    seconds were snipped before it) and printed as [00:35:28.00]. *)
Lemma hundredths_counterexample :
  subtitle_datetime CRUMBLES_SNIPS (lit "04:40:00") = Ok 2128100000
  /\ microsecond 2128100000 = 100000
  /\ hundredths_format 2128100000 = lit "00:35:28.10"
  /\ convert_message_timestamp_to_subtitle_time CRUMBLES_SNIPS (lit "04:40:00")
     = Ok (lit "00:35:28.00")
  /\ convert_message_timestamp_to_subtitle_time CRUMBLES_SNIPS (lit "04:40:00")
     <> Ok (hundredths_format 2128100000).
Proof.
  repeat split; try (vm_compute; reflexivity).
  vm_compute. discriminate.
Qed.

(** * The cues *)

From Stdlib Require DecimalString.

Definition MAX_LINE_LENGTH : nat := 37.
Definition LINES_ON_SCREEN : nat := 24.
Definition Y_POS : Z := 15.
Definition X_POS : Z := 170.

Record Message : Type := mkMessage {
  sent_time : pystr;
  text : pystr
}.

(** [str(n)], as an f-string prints an [int]. *)
Definition str_of_int (n : Z) : pystr :=
  lit (DecimalString.NilZero.string_of_int (Z.to_int n)).

(** [sep.join(l)]. *)
Fixpoint join (sep : pystr) (l : list pystr) : pystr :=
  match l with
  | [] => []
  | [x] => x
  | x :: l' => x ++ sep ++ join sep l'
  end.

(** [s * n]: nothing when [n] is not positive. *)
Definition str_mul (s : pystr) (n : Z) : pystr :=
  concat (repeat s (Z.to_nat n)).

(** [l[k:]], [l[-k:]] and [l[:-k]] for [k >= 0]: [-0] is [0]. *)
Definition slice_from {A} (l : list A) (k : nat) : list A := skipn k l.

Definition slice_last {A} (l : list A) (k : nat) : list A :=
  match k with
  | O => l
  | S _ => skipn (length l - k) l
  end.

Definition slice_but_last {A} (l : list A) (k : nat) : list A :=
  match k with
  | O => []
  | S _ => firstn (length l - k) l
  end.

Definition common_line_beginning (begin_time end_time : pystr) : pystr :=
  lit "Dialogue: "
  ++ lit "0," ++ begin_time ++ lit "," ++ end_time ++ lit ","
  ++ lit "Chat Replay,,0,0,0,,{\pos(" ++ str_of_int X_POS ++ lit ","
  ++ str_of_int Y_POS ++ lit ")}".

Definition format_all_but_bottom (messages : list Message)
    (begin_time end_time : pystr) : pystr :=
  let full_text := join (lit "\N") (map text messages) in
  common_line_beginning begin_time end_time ++ full_text.

(** The line of [format_faded_messages] for the message at index [i] of
    [len] messages. *)
Definition faded_line (len : nat) (begin_time end_time : pystr)
    (i : nat) (message : Message) : pystr :=
  let index_from_bottom := Z.of_nat len - Z.of_nat i in
  common_line_beginning begin_time end_time
  ++ lit "{\fad(1000,0)}"
  ++ str_mul (lit " \N") (Z.of_nat LINES_ON_SCREEN - index_from_bottom)
  ++ text message.

Definition format_faded_messages (messages : list Message)
    (begin_time end_time : pystr) : list pystr :=
  map (fun '(i, message) =>
         faded_line (length messages) begin_time end_time i message)
      (enumerate messages).

(** ** The sliding window *)

(** The loop [while len(result) < n: result += seq[i]; i += 1] of
    [flat_window]; [rest] is [seq[i:]]. *)
Fixpoint fill_window (rest : list (list Message)) (n : nat)
    (result : list Message) (i : nat)
  : outcome (list Message * nat * list (list Message)) :=
  if (length result <? n)%nat then
    match rest with
    | [] => Raise IndexError
    | group :: rest' => fill_window rest' n (result ++ group) (S i)
    end
  else Ok (result, i, rest).

(** The loop [for elem in it] of [flat_window]: what it yields. *)
Fixpoint slide_window (rest : list (list Message)) (result : list Message)
  : list (nat * list Message) :=
  match rest with
  | [] => []
  | elem :: rest' =>
      let new_additions_length := length elem in
      let result' := slice_from result new_additions_length ++ elem in
      (length elem, result') :: slide_window rest' result'
  end.

(** [list(flat_window(seq, n))]. *)
Definition flat_window (seq : list (list Message)) (n : nat)
  : outcome (list (nat * list Message)) :=
  '(result, i, rest) <- fill_window seq n [] 0 ;;
  let result := slice_last result n in
  previous <- match i with
              | O => getitem_last seq
              | S i' => getitem seq i'
              end ;;
  Ok ((length previous, result) :: slide_window rest result).

(** ** The output lines *)

Definition closing_time : pystr := lit "01:37:23.00".

Definition padding : list (list Message) :=
  repeat [mkMessage (lit "0:00:00.00") (lit " ")] LINES_ON_SCREEN.

(** [windows[i + 1][1][-1].sent_time], and the closing time when that
    raises [IndexError]. *)
Definition end_time_at (windows : list (nat * list Message)) (i : nat)
  : outcome pystr :=
  match (w <- getitem windows (i + 1) ;;
         m <- getitem_last (snd w) ;;
         Ok (sent_time m)) with
  | Ok t => Ok t
  | Raise IndexError => Ok closing_time
  | Raise e => Raise e
  end.

(** The lines one window adds to [final_lines]. *)
Definition window_cues (begin_time end_time : pystr) (w : nat * list Message)
  : list pystr :=
  let '(length, message_chunk) := w in
  format_all_but_bottom (slice_but_last message_chunk length) begin_time end_time
  :: format_faded_messages (slice_last message_chunk length) begin_time end_time.

(** The loop of [get_output_lines] over [enumerate(windows)], from index
    [i]: the lines of each window. *)
Fixpoint cue_blocks (windows : list (nat * list Message)) (i : nat)
    (rest : list (nat * list Message)) : outcome (list (list pystr)) :=
  match rest with
  | [] => Ok []
  | w :: rest' =>
      m <- getitem_last (snd w) ;;
      let begin_time := sent_time m in
      end_time <- end_time_at windows i ;;
      blocks <- cue_blocks windows (S i) rest' ;;
      Ok (window_cues begin_time end_time w :: blocks)
  end.

(** [get_output_lines], from the messages of the file. *)
Definition get_output_lines_of (total_messages : list (list Message))
  : outcome (list pystr) :=
  let padded_messages := padding ++ total_messages in
  windows <- flat_window padded_messages LINES_ON_SCREEN ;;
  blocks <- cue_blocks windows 0 windows ;;
  Ok (concat blocks).

Example common_line_beginning_ex :
  common_line_beginning (lit "0:00:00.00") (lit "00:04:28.00")
  = lit "Dialogue: 0,0:00:00.00,00:04:28.00,Chat Replay,,0,0,0,,{\pos(170,15)}".
Proof. vm_compute. reflexivity. Qed.

(** ** The size of the window *)

Lemma fill_window_spec (rest : list (list Message)) (n : nat)
    (result : list Message) (i : nat) result' i' rest' :
  fill_window rest n result i = Ok (result', i', rest') ->
  (n <= length result')%nat
  /\ (exists taken, rest = taken ++ rest' /\ i' = (i + length taken)%nat
                    /\ result' = result ++ concat taken).
Proof.
  revert result i; induction rest as [|group rest IH]; intros result i;
    simpl; destruct (length result <? n)%nat eqn:Hlt; try discriminate.
  - intros H; injection H as <- <- <-. apply Nat.ltb_ge in Hlt.
    split; [assumption|]. exists []. simpl.
    rewrite Nat.add_0_r, app_nil_r. auto.
  - intros H. destruct (IH _ _ H) as (Hn & taken & -> & -> & ->).
    split; [assumption|]. exists (group :: taken). simpl.
    rewrite <- app_assoc. repeat split. lia.
  - intros H; injection H as <- <- <-. apply Nat.ltb_ge in Hlt.
    split; [assumption|]. exists []. simpl.
    rewrite Nat.add_0_r, app_nil_r. auto.
Qed.

Lemma slice_last_length {A} (l : list A) (n : nat) :
  (0 < n)%nat -> (n <= length l)%nat -> length (slice_last l n) = n.
Proof.
  intros Hpos Hle. destruct n as [|n]; [lia|].
  unfold slice_last. rewrite length_skipn. lia.
Qed.

Lemma slide_window_sizes (rest : list (list Message)) (n : nat)
    (result : list Message) :
  length result = n ->
  (forall group, In group rest -> (length group <= n)%nat) ->
  forall w, In w (slide_window rest result) -> length (snd w) = n.
Proof.
  revert result; induction rest as [|elem rest IH]; intros result Hlen Hall w;
    simpl; [intros []|].
  assert (Hnew : length (slice_from result (length elem) ++ elem) = n).
  { unfold slice_from. rewrite length_app, length_skipn.
    specialize (Hall elem (or_introl eq_refl)). lia. }
  intros [<-|Hin]; [exact Hnew|].
  eapply IH; [exact Hnew| |exact Hin].
  intros group Hg. apply Hall. right; assumption.
Qed.

(** While no group is longer than the window, every window of
    [flat_window] holds exactly [n] lines. *)
Lemma flat_window_sizes (seq : list (list Message)) (n : nat) windows :
  (0 < n)%nat ->
  (forall group, In group seq -> (length group <= n)%nat) ->
  flat_window seq n = Ok windows ->
  forall w, In w windows -> length (snd w) = n.
Proof.
  intros Hpos Hall. unfold flat_window.
  destruct (fill_window seq n [] 0) as [[[result i] rest]|] eqn:Hfill;
    [|discriminate].
  cbn [bind]. destruct (fill_window_spec _ _ _ _ _ _ _ Hfill)
    as (Hn & taken & -> & _ & _).
  destruct (match i with O => _ | S _ => _ end) as [previous|]; [|discriminate].
  cbn [bind]. intros H; injection H as <-.
  pose proof (slice_last_length result n Hpos Hn) as Hlen.
  intros w [<-|Hin]; [exact Hlen|].
  eapply slide_window_sizes; [exact Hlen| |exact Hin].
  intros group Hg. apply Hall. apply in_or_app. right; assumption.
Qed.

(** The windows of the padded messages, while no message takes more
    lines than the screen has. *)
Lemma padded_window_sizes (total_messages : list (list Message)) windows :
  (forall group, In group total_messages ->
                 (length group <= LINES_ON_SCREEN)%nat) ->
  flat_window (padding ++ total_messages) LINES_ON_SCREEN = Ok windows ->
  forall w, In w windows -> length (snd w) = LINES_ON_SCREEN.
Proof.
  intros Hall. apply flat_window_sizes.
  - unfold LINES_ON_SCREEN. lia.
  - intros group Hg. apply in_app_or in Hg. destruct Hg as [Hp|Hm].
    + apply repeat_spec in Hp. subst group. unfold LINES_ON_SCREEN. simpl. lia.
    + apply Hall; assumption.
Qed.

(** C4 fails on the code: a message that takes 25 lines makes a window
    of 25 lines.  After the 24 lines of padding the first window is full;
    the step for the message drops [result[25:]], which is all of it, and
    appends the 25 lines. *)
Theorem window_of_oversized_group (m : Message) :
  flat_window (padding ++ [repeat m 25]) LINES_ON_SCREEN
  = Ok [ (1%nat, concat padding); (25%nat, repeat m 25) ]
  /\ length (repeat m 25) <> LINES_ON_SCREEN.
Proof.
  split; [reflexivity|]. unfold LINES_ON_SCREEN. simpl. lia.
Qed.

(** ** The times of the cues *)

(** The begin time of the cues of a window: [message_chunk[-1].sent_time]. *)
Definition window_begin (w : nat * list Message) : outcome pystr :=
  m <- getitem_last (snd w) ;; Ok (sent_time m).

Lemma end_time_at_next (windows : list (nat * list Message)) (i : nat) e :
  end_time_at windows i = Ok e ->
  match nth_error windows (S i) with
  | Some next => is_ok (window_begin next) -> window_begin next = Ok e
  | None => e = closing_time
  end.
Proof.
  unfold end_time_at, getitem, window_begin. rewrite Nat.add_1_r.
  destruct (nth_error windows (S i)) as [next|]; cbn [bind].
  - destruct (getitem_last (snd next)) as [m|]; cbn [bind]; [|intros _ []].
    intros H _. exact H.
  - intros H; injection H as <-. reflexivity.
Qed.

Lemma cue_blocks_nth (windows : list (nat * list Message)) rest i blocks :
  cue_blocks windows i rest = Ok blocks ->
  length blocks = length rest
  /\ forall j w, nth_error rest j = Some w ->
       exists begin_time end_time,
         window_begin w = Ok begin_time
         /\ end_time_at windows (i + j) = Ok end_time
         /\ nth_error blocks j = Some (window_cues begin_time end_time w).
Proof.
  revert i blocks; induction rest as [|w0 rest IH]; intros i blocks; simpl.
  - intros H; injection H as <-. split; [reflexivity|].
    intros [|j] w; discriminate.
  - unfold window_begin.
    destruct (getitem_last (snd w0)) as [m|] eqn:Hm; cbn [bind];
      [|discriminate].
    destruct (end_time_at windows i) as [e|] eqn:He; cbn [bind]; [|discriminate].
    destruct (cue_blocks windows (S i) rest) as [blocks'|] eqn:Hb; cbn [bind];
      [|discriminate].
    intros H; injection H as <-. destruct (IH _ _ Hb) as (Hlen & Hnth).
    split; [simpl; congruence|].
    intros [|j] w Hw; simpl in Hw.
    + injection Hw as <-. exists (sent_time m), e.
      rewrite Hm, Nat.add_0_r. repeat split; assumption.
    + destruct (Hnth j w Hw) as (b & e' & Hbw & Hew & Hblock).
      exists b, e'. rewrite Nat.add_succ_r. repeat split; assumption.
Qed.

Lemma window_cues_begin (begin_time end_time : pystr) (w : nat * list Message)
    (cue : pystr) :
  In cue (window_cues begin_time end_time w) ->
  exists body, cue = common_line_beginning begin_time end_time ++ body.
Proof.
  destruct w as [k chunk]. unfold window_cues.
  intros [<-|Hin].
  - unfold format_all_but_bottom. eexists; reflexivity.
  - unfold format_faded_messages in Hin. apply in_map_iff in Hin.
    destruct Hin as ([i m] & <- & _). unfold faded_line.
    eexists; reflexivity.
Qed.

Lemma fill_window_done (rest : list (list Message)) (n : nat)
    (result : list Message) (i : nat) :
  (n <= length result)%nat -> fill_window rest n result i = Ok (result, i, rest).
Proof.
  intros H. apply Nat.ltb_ge in H. destruct rest; simpl; rewrite H; reflexivity.
Qed.

(** [get_output_lines] returns on every list of messages: the padding
    fills the first window, and no window is ever empty. *)
Lemma padded_windows (total_messages : list (list Message)) :
  flat_window (padding ++ total_messages) LINES_ON_SCREEN
  = Ok ((1%nat, concat padding) :: slide_window total_messages (concat padding)).
Proof.
  unfold flat_window.
  assert (Hfill : fill_window (padding ++ total_messages) LINES_ON_SCREEN [] 0
                  = Ok (concat padding, LINES_ON_SCREEN, total_messages)).
  { unfold padding, LINES_ON_SCREEN. simpl.
    apply fill_window_done. simpl. lia. }
  rewrite Hfill. reflexivity.
Qed.

Lemma slide_window_min (rest : list (list Message)) (n : nat)
    (result : list Message) :
  (n <= length result)%nat ->
  forall w, In w (slide_window rest result) -> (n <= length (snd w))%nat.
Proof.
  revert result; induction rest as [|elem rest IH]; intros result Hlen w;
    simpl; [intros []|].
  assert (Hnew : (n <= length (slice_from result (length elem) ++ elem))%nat).
  { unfold slice_from. rewrite length_app, length_skipn. lia. }
  intros [<-|Hin]; [exact Hnew|].
  eapply IH; [exact Hnew|exact Hin].
Qed.

Lemma end_time_at_ok (windows : list (nat * list Message)) (i : nat) :
  exists e, end_time_at windows i = Ok e.
Proof.
  unfold end_time_at, getitem.
  destruct (nth_error windows (i + 1)) as [w|]; cbn [bind];
    [|eexists; reflexivity].
  destruct (snd w) as [|m l]; cbn; eexists; reflexivity.
Qed.

Lemma cue_blocks_ok (windows rest : list (nat * list Message)) (i : nat) :
  (forall w, In w rest -> snd w <> []) ->
  exists blocks, cue_blocks windows i rest = Ok blocks.
Proof.
  revert i; induction rest as [|w rest IH]; intros i Hall; simpl.
  - eexists; reflexivity.
  - destruct (snd w) as [|m l] eqn:Hw;
      [exfalso; apply (Hall w); [left; reflexivity|exact Hw]|].
    cbn [getitem_last bind].
    destruct (end_time_at_ok windows i) as (e & ->). cbn [bind].
    destruct (IH (S i)) as (blocks & ->);
      [intros w' Hin; apply Hall; right; exact Hin|].
    cbn [bind]. eexists; reflexivity.
Qed.

Lemma get_output_lines_of_ok (total_messages : list (list Message)) :
  exists lines, get_output_lines_of total_messages = Ok lines.
Proof.
  unfold get_output_lines_of. rewrite padded_windows. cbn [bind].
  destruct (cue_blocks_ok
              ((1%nat, concat padding)
                 :: slide_window total_messages (concat padding))
              ((1%nat, concat padding)
                 :: slide_window total_messages (concat padding)) 0)
    as (blocks & ->).
  - intros w [<-|Hin]; [discriminate|].
    pose proof (slide_window_min total_messages 24 (concat padding)
                  (Nat.le_refl _) w Hin) as Hlen.
    destruct (snd w); [simpl in Hlen; lia|discriminate].
  - cbn [bind]. eexists; reflexivity.
Qed.

(** C5. [get_output_lines] returns, and its lines are the cues of the
    windows, in order.  All the cues of a window begin when its last line
    was sent and end when the cues of the next window begin, the first one
    among them; the cues of the last window end at [01:37:23.00]. *)
Theorem cues_contiguous (total_messages : list (list Message)) :
  exists lines windows blocks,
    get_output_lines_of total_messages = Ok lines
    /\ flat_window (padding ++ total_messages) LINES_ON_SCREEN = Ok windows
    /\ lines = concat blocks /\ length blocks = length windows
    /\ forall i w, nth_error windows i = Some w ->
         exists begin_time end_time,
           window_begin w = Ok begin_time
           /\ nth_error blocks i = Some (window_cues begin_time end_time w)
           /\ (forall cue, In cue (window_cues begin_time end_time w) ->
                 exists body,
                   cue = common_line_beginning begin_time end_time ++ body)
           /\ match nth_error windows (S i) with
              | Some next => window_begin next = Ok end_time
              | None => end_time = closing_time
              end.
Proof.
  destruct (get_output_lines_of_ok total_messages) as (lines & Hlines).
  exists lines. revert Hlines. unfold get_output_lines_of.
  destruct (flat_window (padding ++ total_messages) LINES_ON_SCREEN)
    as [windows|] eqn:Hw; cbn [bind]; [|discriminate].
  destruct (cue_blocks windows 0 windows) as [blocks|] eqn:Hb; cbn [bind];
    [|discriminate].
  intros H; injection H as <-.
  exists windows, blocks. destruct (cue_blocks_nth _ _ _ _ Hb) as (Hlen & Hnth).
  repeat split; try assumption.
  intros i w Hi. destruct (Hnth i w Hi) as (b & e & Hbw & He & Hblock).
  exists b, e. repeat split; try assumption.
  - apply window_cues_begin.
  - simpl in He. pose proof (end_time_at_next _ _ _ He) as Hnext.
    destruct (nth_error windows (S i)) as [next|] eqn:Hn; [|exact Hnext].
    apply Hnext. destruct (Hnth (S i) next Hn) as (b' & _ & -> & _). exact I.
Qed.

(** ** The faded lines *)

Lemma nth_error_combine_seq {A} (l : list A) (k i : nat) :
  nth_error (combine (seq k (length l)) l) i
  = option_map (fun x => ((k + i)%nat, x)) (nth_error l i).
Proof.
  revert k i; induction l as [|x l IH]; intros k i; simpl.
  - destruct i; reflexivity.
  - destruct i as [|i]; simpl.
    + rewrite Nat.add_0_r. reflexivity.
    + rewrite IH, Nat.add_succ_r. reflexivity.
Qed.

Lemma format_faded_messages_length (messages : list Message) b e :
  length (format_faded_messages messages b e) = length messages.
Proof.
  unfold format_faded_messages, enumerate.
  rewrite length_map, length_combine, length_seq. lia.
Qed.

Lemma format_faded_messages_nth (messages : list Message) b e i m :
  nth_error messages i = Some m ->
  nth_error (format_faded_messages messages b e) i
  = Some (faded_line (length messages) b e i m).
Proof.
  intros Hi. unfold format_faded_messages, enumerate.
  rewrite nth_error_map, nth_error_combine_seq, Hi. reflexivity.
Qed.

(** C6, as the code has it.  A window of [LINES_ON_SCREEN] lines whose
    step brought [k] new lines, [1 <= k <= LINES_ON_SCREEN], is shown as
    one line for the [LINES_ON_SCREEN - k] oldest lines, not faded, and
    [k] faded lines for the newest ones; the [j]-th of these from the
    bottom has [LINES_ON_SCREEN - j] blank lines above its text, so that
    it stands on its own row of the screen. *)
Theorem window_regions (begin_time end_time : pystr) (k : nat)
    (message_chunk : list Message) :
  length message_chunk = LINES_ON_SCREEN ->
  (1 <= k <= LINES_ON_SCREEN)%nat ->
  let oldest := firstn (LINES_ON_SCREEN - k) message_chunk in
  let newest := skipn (LINES_ON_SCREEN - k) message_chunk in
  window_cues begin_time end_time (k, message_chunk)
  = (common_line_beginning begin_time end_time
       ++ join (lit "\N") (map text oldest))
    :: format_faded_messages newest begin_time end_time
  /\ length oldest = (LINES_ON_SCREEN - k)%nat
  /\ length (format_faded_messages newest begin_time end_time) = k
  /\ forall j m,
       (1 <= j <= k)%nat ->
       nth_error message_chunk (LINES_ON_SCREEN - j) = Some m ->
       nth_error (format_faded_messages newest begin_time end_time) (k - j)
       = Some (common_line_beginning begin_time end_time
                 ++ lit "{\fad(1000,0)}"
                 ++ concat (repeat (lit " \N") (LINES_ON_SCREEN - j))
                 ++ text m).
Proof.
  intros Hlen Hk oldest newest. subst oldest newest.
  assert (Hnew : length (skipn (LINES_ON_SCREEN - k) message_chunk) = k)
    by (rewrite length_skipn; lia).
  repeat split.
  - unfold window_cues, slice_but_last, slice_last, format_all_but_bottom.
    destruct k as [|k]; [lia|]. rewrite Hlen. reflexivity.
  - rewrite length_firstn. lia.
  - rewrite format_faded_messages_length. exact Hnew.
  - intros j m Hj Hm.
    rewrite (format_faded_messages_nth _ _ _ _ m).
    + unfold faded_line, str_mul. rewrite Hnew.
      replace (Z.to_nat (Z.of_nat LINES_ON_SCREEN
                         - (Z.of_nat k - Z.of_nat (k - j))))
        with (LINES_ON_SCREEN - j)%nat by lia.
      reflexivity.
    + rewrite nth_error_skipn.
      replace (LINES_ON_SCREEN - k + (k - j))%nat
        with (LINES_ON_SCREEN - j)%nat by lia.
      exact Hm.
Qed.

Definition blank_message : Message := mkMessage (lit "0:00:00.00") (lit " ").

Definition example_chunk : list Message :=
  repeat blank_message 22
  ++ [ mkMessage (lit "00:04:28.00") (lit "tmh: hello");
       mkMessage (lit "00:04:28.00") (lit "\h\hworld") ].

(** The bottom line of a step of two lines has 23 blank lines above it. *)
Lemma window_regions_witness :
  nth_error
    (format_faded_messages (skipn (LINES_ON_SCREEN - 2) example_chunk)
       (lit "00:04:28.00") closing_time) (2 - 1)
  = Some (common_line_beginning (lit "00:04:28.00") closing_time
            ++ lit "{\fad(1000,0)}"
            ++ concat (repeat (lit " \N") (LINES_ON_SCREEN - 1))
            ++ text (mkMessage (lit "00:04:28.00") (lit "\h\hworld"))).
Proof.
  destruct (window_regions (lit "00:04:28.00") closing_time 2 example_chunk)
    as (_ & _ & _ & H).
  - reflexivity.
  - unfold LINES_ON_SCREEN. lia.
  - apply H; [lia|reflexivity].
Defined.

(** As the description words it: entry [j] of [k] from the bottom has
    [k - j] blank lines above it. *)
Definition described_faded_messages (messages : list Message)
    (begin_time end_time : pystr) : list pystr :=
  map (fun '(i, message) =>
         let k := Z.of_nat (length messages) in
         let j := Z.of_nat (length messages) - Z.of_nat i in
         common_line_beginning begin_time end_time
         ++ lit "{\fad(1000,0)}"
         ++ str_mul (lit " \N") (k - j)
         ++ text message)
      (enumerate messages).

(** A step of one line: the code puts 23 blank lines above it, the
    description none. *)
Lemma faded_padding_counterexample :
  format_faded_messages [mkMessage (lit "00:04:28.00") (lit "tmh: hi")]
    (lit "00:04:28.00") closing_time
  = [ common_line_beginning (lit "00:04:28.00") closing_time
        ++ lit "{\fad(1000,0)}"
        ++ concat (repeat (lit " \N") 23) ++ lit "tmh: hi" ]
  /\ described_faded_messages [mkMessage (lit "00:04:28.00") (lit "tmh: hi")]
       (lit "00:04:28.00") closing_time
     = [ common_line_beginning (lit "00:04:28.00") closing_time
           ++ lit "{\fad(1000,0)}" ++ lit "tmh: hi" ]
  /\ format_faded_messages [mkMessage (lit "00:04:28.00") (lit "tmh: hi")]
       (lit "00:04:28.00") closing_time
     <> described_faded_messages
          [mkMessage (lit "00:04:28.00") (lit "tmh: hi")]
          (lit "00:04:28.00") closing_time.
Proof.
  repeat split; try (vm_compute; reflexivity).
  vm_compute. discriminate.
Qed.

(** * Further properties of the mapper *)

(** The mapper fails only on a timestamp or a table of snips that cannot
    be read, or on an empty table: the searches by index of its last
    branch never raise. *)
Theorem mapper_returns_iff (snips : list Snip) (ts : pystr) :
  (exists out, convert_message_timestamp_to_subtitle_time snips ts = Ok out)
  <-> (exists t, strptime_HMS ts = Ok t)
      /\ (exists absolutes,
            convert_crumbles_to_absolute snips = Ok absolutes
            /\ absolutes <> []).
Proof.
  unfold convert_message_timestamp_to_subtitle_time, subtitle_datetime.
  destruct (strptime_HMS ts) as [t|e]; cbn [bind].
  2: { split; [intros (out & H); discriminate
              |intros ((t & H) & _); discriminate]. }
  destruct (convert_crumbles_to_absolute snips) as [absolutes|e]; cbn [bind].
  2: { split; [intros (out & H); discriminate
              |intros (_ & absolutes & H & _); discriminate]. }
  split.
  - intros (out & H). split; [eexists; reflexivity|].
    exists absolutes. split; [reflexivity|].
    intros ->. cbn in H. discriminate.
  - intros (_ & absolutes' & H & Hne). injection H as <-.
    destruct (flatten_snips_located absolutes (t - chat_offset) Hne)
      as (v & -> & _).
    cbn [bind]. eexists; reflexivity.
Qed.

(** What [convert_crumbles_to_absolute] keeps: one SnipState for each
    snip, in order; the first removal is zero and each removal is the one
    before it plus the length of the snip before it; taking the removal
    off the begin and the end of a SnipState gives back the snip. *)
Theorem snip_states_invariants (snips : list Snip)
    (absolutes : list SnipState) :
  convert_crumbles_to_absolute snips = Ok absolutes ->
  length absolutes = length snips
  /\ (forall s, nth_error absolutes 0 = Some s -> to_snip s = 0)
  /\ (forall i s s',
        nth_error absolutes i = Some s ->
        nth_error absolutes (S i) = Some s' ->
        to_snip s' = to_snip s + (snip_end s - snip_begin s))
  /\ (forall i b e s,
        nth_error snips i = Some (b, e) -> nth_error absolutes i = Some s ->
        convert_to_datetime b = Ok (snip_begin s - to_snip s)
        /\ convert_to_datetime e = Ok (snip_end s - to_snip s)).
Proof.
  intros Habs.
  destruct (convert_crumbles_inv _ _ Habs) as (ps & Hps & ->).
  repeat split.
  - rewrite absolutes_from_length. clear Habs.
    revert ps Hps; induction snips as [|[b e] rest IH]; intros ps; simpl.
    + intros H; injection H as <-. reflexivity.
    + destruct (convert_to_datetime b); cbn [bind]; [|discriminate].
      destruct (convert_to_datetime e); cbn [bind]; [|discriminate].
      destruct (parse_snips rest) as [ps'|]; cbn [bind]; [|discriminate].
      intros H; injection H as <-. simpl. f_equal. apply IH. reflexivity.
  - apply absolutes_from_head.
  - intros i s s'. apply absolutes_from_step.
  - clear Habs. revert ps Hps H H0. generalize 0 as total.
    revert i; induction snips as [|[b0 e0] rest IH]; intros i total ps;
      simpl; [destruct i; discriminate|].
    destruct (convert_to_datetime b0) as [b'|] eqn:Hb; cbn [bind];
      [|discriminate].
    destruct (convert_to_datetime e0) as [e'|] eqn:He; cbn [bind];
      [|discriminate].
    destruct (parse_snips rest) as [ps'|] eqn:Hrest; cbn [bind];
      [|discriminate].
    intros H; injection H as <-. destruct i as [|i]; simpl.
    + intros H1 H2. injection H1 as <- <-. injection H2 as <-. simpl.
      rewrite Hb. f_equal. lia.
    + intros H1 H2. eapply IH; [reflexivity|exact H1|exact H2].
  - clear Habs. revert ps Hps H H0. generalize 0 as total.
    revert i; induction snips as [|[b0 e0] rest IH]; intros i total ps;
      simpl; [destruct i; discriminate|].
    destruct (convert_to_datetime b0) as [b'|] eqn:Hb; cbn [bind];
      [|discriminate].
    destruct (convert_to_datetime e0) as [e'|] eqn:He; cbn [bind];
      [|discriminate].
    destruct (parse_snips rest) as [ps'|] eqn:Hrest; cbn [bind];
      [|discriminate].
    intros H; injection H as <-. destruct i as [|i]; simpl.
    + intros H1 H2. injection H1 as <- <-. injection H2 as <-. simpl.
      rewrite He. f_equal. lia.
    + intros H1 H2. eapply IH; [reflexivity|exact H1|exact H2].
Qed.

Lemma snip_states_invariants_witness :
  length CRUMBLES_ABSOLUTES = length CRUMBLES_SNIPS
  /\ (forall s, nth_error CRUMBLES_ABSOLUTES 0 = Some s -> to_snip s = 0)
  /\ (forall i s s',
        nth_error CRUMBLES_ABSOLUTES i = Some s ->
        nth_error CRUMBLES_ABSOLUTES (S i) = Some s' ->
        to_snip s' = to_snip s + (snip_end s - snip_begin s))
  /\ (forall i b e s,
        nth_error CRUMBLES_SNIPS i = Some (b, e) ->
        nth_error CRUMBLES_ABSOLUTES i = Some s ->
        convert_to_datetime b = Ok (snip_begin s - to_snip s)
        /\ convert_to_datetime e = Ok (snip_end s - to_snip s)).
Proof.
  apply (snip_states_invariants CRUMBLES_SNIPS CRUMBLES_ABSOLUTES).
  vm_compute. reflexivity.
Defined.

Lemma printed_time_shape_witness :
  length (lit "00:35:28.00") = 11%nat
  /\ skipn 8 (lit "00:35:28.00") = lit ".00"
  /\ nth_error (lit "00:35:28.00") 2 = Some colon
  /\ nth_error (lit "00:35:28.00") 5 = Some colon.
Proof.
  apply (printed_time_shape CRUMBLES_SNIPS (lit "04:40:00")).
  vm_compute. reflexivity.
Defined.

(** ** Printed times are read back *)

Lemma split_char_nonempty (sep : codepoint) (s : pystr) :
  split_char sep s <> [].
Proof.
  destruct s as [|c s]; simpl; [discriminate|].
  destruct (char_eqb c sep); [discriminate|].
  destruct (split_char sep s); discriminate.
Qed.

Lemma split_char_no_sep (sep : codepoint) (s : pystr) :
  ~ In sep s -> split_char sep s = [s].
Proof.
  induction s as [|c s IH]; intros Hno; simpl; [reflexivity|].
  destruct (char_eqb c sep) eqn:E.
  - exfalso. apply Hno. left. apply N.eqb_eq in E. exact E.
  - rewrite IH; [reflexivity|]. intros Hin. apply Hno. right; exact Hin.
Qed.

Lemma split_char_app_sep (sep : codepoint) (a rest : pystr) :
  ~ In sep a -> split_char sep (a ++ sep :: rest) = a :: split_char sep rest.
Proof.
  induction a as [|c a IH]; intros Hno; simpl.
  - unfold char_eqb. rewrite N.eqb_refl. reflexivity.
  - destruct (char_eqb c sep) eqn:E.
    + exfalso. apply Hno. left. apply N.eqb_eq in E. exact E.
    + rewrite IH; [reflexivity|]. intros Hin. apply Hno. right; exact Hin.
Qed.

(** The two digits of every number below 100 are read back, and hold
    neither a colon, nor a point, nor a comma. *)
Definition two_digits_checked (n : nat) : bool :=
  let s := two_digits (Z.of_nat n) in
  match digits_value 0 s with
  | Some v => (v =? Z.of_nat n)
  | None => false
  end
  && forallb (fun c => negb (N.eqb c 58 || N.eqb c 46 || N.eqb c 44)) s.

Lemma two_digits_all_checked : forallb two_digits_checked (seq 0 100) = true.
Proof. vm_compute. reflexivity. Qed.

Lemma two_digits_spec (n : Z) :
  0 <= n < 100 ->
  digits_value 0 (two_digits n) = Some n
  /\ forall c, In c (two_digits n) -> c <> 58%N /\ c <> 46%N /\ c <> 44%N.
Proof.
  intros Hn.
  pose proof two_digits_all_checked as H.
  rewrite forallb_forall in H.
  specialize (H (Z.to_nat n)).
  assert (Hin : In (Z.to_nat n) (seq 0 100)) by (apply in_seq; lia).
  specialize (H Hin). unfold two_digits_checked in H.
  rewrite Z2Nat.id in H by lia.
  apply andb_true_iff in H. destruct H as [Hv Hc].
  split.
  - destruct (digits_value 0 (two_digits n)) as [v|]; [|discriminate].
    apply Z.eqb_eq in Hv. congruence.
  - rewrite forallb_forall in Hc. intros c Hcin. specialize (Hc c Hcin).
    apply negb_true_iff in Hc. apply orb_false_iff in Hc.
    destruct Hc as [Hc H44]. apply orb_false_iff in Hc. destruct Hc as [H58 H46].
    apply N.eqb_neq in H58, H46, H44. auto.
Qed.

Lemma time_field_two_digits (bound n : Z) :
  0 <= n <= bound -> n < 100 -> time_field bound (two_digits n) = Ok n.
Proof.
  intros Hn Hlt. destruct (two_digits_spec n) as [Hv _]; [lia|].
  unfold time_field. change (two_digits n) with
    [Z.to_N (48 + n / 10); Z.to_N (48 + n mod 10)] in *.
  rewrite Hv. destruct (n <=? bound) eqn:E; [reflexivity|lia].
Qed.

Lemma second_of_day_fields (d : datetime) :
  let s := second_of_day d in
  0 <= s / 3600 <= 23 /\ 0 <= s / 60 mod 60 <= 59 /\ 0 <= s mod 60 <= 59
  /\ timedelta_hms (s / 3600) (s / 60 mod 60) (s mod 60) = s * usec.
Proof.
  unfold second_of_day, timedelta_hms. cbv zeta.
  set (s := (d / usec) mod 86400).
  assert (Hs : 0 <= s < 86400) by (apply Z.mod_pos_bound; lia).
  pose proof (Z.div_mod s 3600 ltac:(lia)).
  pose proof (Z.mod_pos_bound s 3600 ltac:(lia)).
  pose proof (Z.div_mod s 60 ltac:(lia)).
  pose proof (Z.mod_pos_bound s 60 ltac:(lia)).
  pose proof (Z.div_mod (s / 60) 60 ltac:(lia)).
  pose proof (Z.mod_pos_bound (s / 60) 60 ltac:(lia)).
  assert (s / 3600 = s / 60 / 60)
    by (rewrite Z.div_div by lia; reflexivity).
  repeat split; lia.
Qed.

(** What the mapper prints is a time that [convert_to_datetime] reads, and
    [strptime] with [%H:%M:%S] reads its first eight characters: both give
    the whole second of the day that was printed. *)
Theorem printed_time_read_back (d : datetime) :
  convert_to_datetime (strftime_HMS00 d) = Ok (second_of_day d * usec)
  /\ strptime_HMS (strftime_HMS d) = Ok (second_of_day d * usec).
Proof.
  destruct (second_of_day_fields d) as (Hh & Hm & Hs & Hsum).
  cbv zeta in *.
  unfold strftime_HMS00, strftime_HMS, convert_to_datetime, strptime_HMS.
  set (s := second_of_day d) in *.
  destruct (two_digits_spec (s / 3600)) as [_ Hch]; [lia|].
  destruct (two_digits_spec (s / 60 mod 60)) as [_ Hcm]; [lia|].
  destruct (two_digits_spec (s mod 60)) as [_ Hcs]; [lia|].
  assert (Nh : ~ In colon (two_digits (s / 3600)))
    by (intros Hin; apply Hch in Hin; unfold colon in Hin; tauto).
  assert (Nm : ~ In colon (two_digits (s / 60 mod 60)))
    by (intros Hin; apply Hcm in Hin; unfold colon in Hin; tauto).
  assert (Ns : ~ In colon (two_digits (s mod 60)))
    by (intros Hin; apply Hcs in Hin; unfold colon in Hin; tauto).
  assert (Nd : ~ In dot (two_digits (s mod 60)))
    by (intros Hin; apply Hcs in Hin; unfold dot in Hin; tauto).
  split.
  - rewrite <- !app_assoc. cbn ["++"] .
    rewrite (split_char_app_sep colon _ _ Nh).
    rewrite (split_char_app_sep colon _ _ Nm).
    assert (E : split_char colon (two_digits (s mod 60) ++ lit ".00")
                = [two_digits (s mod 60) ++ lit ".00"]).
    { apply split_char_no_sep. intros Hin. apply in_app_or in Hin.
      destruct Hin as [Hin|Hin]; [exact (Ns Hin)|].
      vm_compute in Hin. intuition discriminate. }
    rewrite E.
    change (lit ".00") with (dot :: lit "00").
    rewrite (split_char_app_sep dot _ _ Nd).
    change (split_char dot (lit "00")) with [lit "00"].
    rewrite !time_field_two_digits by lia. cbn [bind].
    change (fraction_field (lit "00")) with (Ok 0). cbn [bind].
    rewrite Hsum. f_equal. lia.
  - cbn ["++"].
    rewrite (split_char_app_sep colon _ _ Nh).
    rewrite (split_char_app_sep colon _ _ Nm).
    rewrite (split_char_no_sep colon _ Ns).
    rewrite !time_field_two_digits by lia. cbn [bind].
    rewrite Hsum. reflexivity.
Qed.

(** * Further properties of the window and of the cues *)

Lemma slide_window_length (rest : list (list Message)) (result : list Message) :
  length (slide_window rest result) = length rest.
Proof.
  revert result; induction rest as [|elem rest IH]; intros result; simpl;
    [reflexivity|]. rewrite IH. reflexivity.
Qed.

Lemma slide_window_nth (rest : list (list Message)) (result : list Message)
    (i : nat) (w : nat * list Message) :
  nth_error (slide_window rest result) i = Some w ->
  nth_error (map (@length Message) rest) i = Some (fst w)
  /\ length (snd w)
     = Nat.max (length result)
               (list_max (map (@length Message) (firstn (S i) rest))).
Proof.
  revert result i; induction rest as [|elem rest IH]; intros result i;
    [destruct i; discriminate|].
  assert (Hnew : length (slice_from result (length elem) ++ elem)
                 = Nat.max (length result) (length elem)).
  { unfold slice_from. rewrite length_app, length_skipn. lia. }
  destruct i as [|i]; cbn [slide_window nth_error map].
  - intros H; injection H as <-. cbn [fst snd].
    split; [reflexivity|]. rewrite Hnew.
    change (firstn 1 (elem :: rest)) with [elem]. cbn. lia.
  - intros H. destruct (IH _ _ H) as (Hk & Hlen). split; [exact Hk|].
    rewrite Hlen, Hnew.
    change (firstn (S (S i)) (elem :: rest)) with (elem :: firstn (S i) rest).
    cbn [map].
    change (list_max (length elem :: ?l))
      with (Nat.max (length elem) (list_max l)).
    lia.
Qed.

(** The size of the window is the largest of the height of the screen and
    the sizes of the messages read so far: one window for the padding and
    one for each message, the window never gets smaller, and once a message
    took more lines than the screen has, every later window is that big. *)
Theorem window_size_is_running_max (total_messages : list (list Message)) :
  exists windows,
    flat_window (padding ++ total_messages) LINES_ON_SCREEN = Ok windows
    /\ length windows = S (length total_messages)
    /\ forall i w, nth_error windows i = Some w ->
         length (snd w)
         = Nat.max LINES_ON_SCREEN
             (list_max (map (@length Message) (firstn i total_messages)))
         /\ fst w = match i with
                    | O => 1%nat
                    | S i' => length (nth i' total_messages [])
                    end.
Proof.
  eexists. split; [apply padded_windows|]. split.
  - simpl. rewrite slide_window_length. reflexivity.
  - intros [|i] w; cbn [nth_error].
    + intros H; injection H as <-. split; reflexivity.
    + intros H. destruct (slide_window_nth _ _ _ _ H) as (Hk & Hlen).
      split; [exact Hlen|].
      rewrite nth_error_map in Hk.
      destruct (nth_error total_messages i) as [g|] eqn:Hg; [|discriminate].
      injection Hk as <-. rewrite (nth_error_nth _ _ _ Hg). reflexivity.
Qed.

Lemma padded_window_sizes_witness :
  length (snd (2%nat,
               skipn 2 (concat padding)
               ++ [mkMessage (lit "00:04:28.00") (lit "tmh: hello");
                   mkMessage (lit "00:04:28.00") (lit "\h\hworld")]))
  = LINES_ON_SCREEN.
Proof.
  apply (padded_window_sizes
           [[mkMessage (lit "00:04:28.00") (lit "tmh: hello");
             mkMessage (lit "00:04:28.00") (lit "\h\hworld")]]
           [ (1%nat, concat padding);
             (2%nat, skipn 2 (concat padding)
                     ++ [mkMessage (lit "00:04:28.00") (lit "tmh: hello");
                         mkMessage (lit "00:04:28.00") (lit "\h\hworld")]) ]).
  - intros group [<-|[]]. unfold LINES_ON_SCREEN. simpl. lia.
  - vm_compute. reflexivity.
  - right. left. reflexivity.
Defined.

(** ** Reading the times of a cue *)

Definition comma : codepoint := 44%N.

(** The second and third fields of a [Dialogue] line. *)
Definition cue_times (cue : pystr) : option (pystr * pystr) :=
  match split_char comma cue with
  | _ :: begin_time :: end_time :: _ => Some (begin_time, end_time)
  | _ => None
  end.

Lemma cue_times_common (begin_time end_time body : pystr) :
  ~ In comma begin_time -> ~ In comma end_time ->
  cue_times (common_line_beginning begin_time end_time ++ body)
  = Some (begin_time, end_time).
Proof.
  intros Hb He. unfold cue_times.
  assert (E : common_line_beginning begin_time end_time ++ body
              = lit "Dialogue: 0"
                ++ comma :: (begin_time
                ++ comma :: (end_time
                ++ comma :: (lit "Chat Replay,,0,0,0,,{\pos(170,15)}"
                             ++ body)))).
  { unfold common_line_beginning. rewrite <- !app_assoc. reflexivity. }
  rewrite E.
  rewrite split_char_app_sep by (vm_compute; intuition discriminate).
  rewrite (split_char_app_sep comma _ _ Hb).
  rewrite (split_char_app_sep comma _ _ He).
  reflexivity.
Qed.

(** The times of the mapper hold no comma. *)
Lemma printed_time_no_comma (d : datetime) : ~ In comma (strftime_HMS00 d).
Proof.
  destruct (second_of_day_fields d) as (Hh & Hm & Hs & _). cbv zeta in *.
  unfold strftime_HMS00, strftime_HMS. set (s := second_of_day d) in *.
  destruct (two_digits_spec (s / 3600)) as [_ Hch]; [lia|].
  destruct (two_digits_spec (s / 60 mod 60)) as [_ Hcm]; [lia|].
  destruct (two_digits_spec (s mod 60)) as [_ Hcs]; [lia|].
  intros Hin. repeat (apply in_app_or in Hin; destruct Hin as [Hin|Hin]).
  - apply Hch in Hin. unfold comma in Hin. tauto.
  - vm_compute in Hin. intuition discriminate.
  - apply Hcm in Hin. unfold comma in Hin. tauto.
  - vm_compute in Hin. intuition discriminate.
  - apply Hcs in Hin. unfold comma in Hin. tauto.
  - vm_compute in Hin. intuition discriminate.
Qed.

(** The begin and the end time of every line of a window are read back
    from the line, as its second and third fields, whatever the texts of
    the messages, when the times themselves hold no comma; the times the
    mapper prints hold none. *)
Theorem cue_times_read_back (begin_time end_time : pystr)
    (w : nat * list Message) (cue : pystr) :
  ~ In comma begin_time -> ~ In comma end_time ->
  In cue (window_cues begin_time end_time w) ->
  cue_times cue = Some (begin_time, end_time).
Proof.
  intros Hb He Hin.
  destruct (window_cues_begin _ _ _ _ Hin) as (body & ->).
  apply cue_times_common; assumption.
Qed.

Lemma cue_times_read_back_witness :
  cue_times (common_line_beginning (lit "00:04:28.00") closing_time
               ++ join (lit "\N") (map text (firstn 22 example_chunk)))
  = Some (lit "00:04:28.00", closing_time).
Proof.
  apply (cue_times_read_back (lit "00:04:28.00") closing_time
           (2%nat, example_chunk)).
  - vm_compute. intuition discriminate.
  - vm_compute. intuition discriminate.
  - left. reflexivity.
Defined.

(** * The colours of the names *)

From Stdlib Require Hexadecimal.

Fixpoint hex_uint_chars (u : Hexadecimal.uint) : pystr :=
  match u with
  | Hexadecimal.Nil => []
  | Hexadecimal.D0 u' => 48%N :: hex_uint_chars u'
  | Hexadecimal.D1 u' => 49%N :: hex_uint_chars u'
  | Hexadecimal.D2 u' => 50%N :: hex_uint_chars u'
  | Hexadecimal.D3 u' => 51%N :: hex_uint_chars u'
  | Hexadecimal.D4 u' => 52%N :: hex_uint_chars u'
  | Hexadecimal.D5 u' => 53%N :: hex_uint_chars u'
  | Hexadecimal.D6 u' => 54%N :: hex_uint_chars u'
  | Hexadecimal.D7 u' => 55%N :: hex_uint_chars u'
  | Hexadecimal.D8 u' => 56%N :: hex_uint_chars u'
  | Hexadecimal.D9 u' => 57%N :: hex_uint_chars u'
  | Hexadecimal.Da u' => 97%N :: hex_uint_chars u'
  | Hexadecimal.Db u' => 98%N :: hex_uint_chars u'
  | Hexadecimal.Dc u' => 99%N :: hex_uint_chars u'
  | Hexadecimal.Dd u' => 100%N :: hex_uint_chars u'
  | Hexadecimal.De u' => 101%N :: hex_uint_chars u'
  | Hexadecimal.Df u' => 102%N :: hex_uint_chars u'
  end.

(** [hex(n)]: [0x] and the digits, no padding, [-] first for a negative
    number. *)
Definition hex (n : Z) : pystr :=
  (if n <? 0 then lit "-0x" else lit "0x")
  ++ hex_uint_chars (N.to_hex_uint (Z.abs_N n)).

Definition rgb_to_ass_tag (r g b : Z) : pystr :=
  let r_hex := skipn 2 (hex r) in
  let g_hex := skipn 2 (hex g) in
  let b_hex := skipn 2 (hex b) in
  lit "{\c&H" ++ b_hex ++ g_hex ++ r_hex ++ lit "&}".

Definition ELECTROLATE : pystr := rgb_to_ass_tag 26 187 243.
Definition SCUD : pystr := rgb_to_ass_tag 241 196 15.
Definition MOXIE : pystr := rgb_to_ass_tag 255 226 227.
Definition MODS : pystr := rgb_to_ass_tag 32 95 112.
Definition PRISONER : pystr := rgb_to_ass_tag 46 192 87.
Definition TMH : pystr := rgb_to_ass_tag 113 82 182.
Definition MINITRUE : pystr := rgb_to_ass_tag 43 139 76.

(** A [dict] with [str] keys, as the list of its items. *)
Definition pydict : Type := list (pystr * pystr).

Fixpoint dict_get (d : pydict) (key : pystr) : option pystr :=
  match d with
  | [] => None
  | (k, v) :: d' => if str_eqb k key then Some v else dict_get d' key
  end.

(** [d[key]]. *)
Definition dict_getitem (d : pydict) (key : pystr) : outcome pystr :=
  match dict_get d key with
  | Some v => Ok v
  | None => Raise KeyError
  end.

Definition NAME_REPLACEMENTS : pydict := [].

Definition NAME_COLORS : pydict :=
  [ (lit "BattleToad", ELECTROLATE);
    (lit "bDwS", ELECTROLATE);
    (lit "CantHandleMyHandle", ELECTROLATE);
    (lit "Chud Droopy", MODS);
    (lit "Clone", ELECTROLATE);
    (lit "Crunchyeater", PRISONER);
    (lit "dasty", ELECTROLATE);
    (lit "Don Hau" ++ [223%N] ++ lit "ettler", ELECTROLATE);
    (lit "duk", MINITRUE);
    (lit "Gym Slow", PRISONER);
    (lit "Jammho", ELECTROLATE);
    (lit "KitKat", ELECTROLATE);
    (lit "Lamb's Ear", PRISONER);
    (lit "Lordy", MODS);
    (lit "Mermaid", ELECTROLATE);
    (lit "MF", MOXIE);
    (lit "Poopenheimer", ELECTROLATE);
    (lit "Quate", PRISONER);
    (lit "sling", SCUD);
    (lit "spaghetti squash", ELECTROLATE);
    (lit "Spicy Deluxe", ELECTROLATE);
    (lit "teratoma jones", ELECTROLATE);
    (lit "tmh", TMH);
    (lit "Toner Martini", ELECTROLATE) ].

Example ELECTROLATE_tag : ELECTROLATE = lit "{\c&Hf3bb1a&}".
Proof. vm_compute. reflexivity. Qed.

Example SCUD_tag : SCUD = lit "{\c&Hfc4f1&}".
Proof. vm_compute. reflexivity. Qed.

Definition hex_digit (d : Z) : codepoint :=
  nth (Z.to_nat d) (lit "0123456789abcdef") 0%N.

Definition hex2 (n : Z) : pystr := [hex_digit (n / 16); hex_digit (n mod 16)].

Definition hex_byte_checked (n : nat) : bool :=
  let z := Z.of_nat n in
  str_eqb (skipn 2 (hex z)) (if z <? 16 then [hex_digit z] else hex2 z).

Lemma hex_bytes_all_checked : forallb hex_byte_checked (seq 0 256) = true.
Proof. vm_compute. reflexivity. Qed.

Lemma str_eqb_eq (a b : pystr) : str_eqb a b = true <-> a = b.
Proof.
  revert b; induction a as [|x a IH]; intros [|y b]; simpl;
    try (split; [discriminate|discriminate]); [tauto|].
  unfold char_eqb. rewrite andb_true_iff, N.eqb_eq, IH.
  split; [intros [-> ->]; reflexivity|intros H; injection H; auto].
Qed.

Lemma hex_byte (n : Z) :
  0 <= n <= 255 ->
  skipn 2 (hex n) = if n <? 16 then [hex_digit n] else hex2 n.
Proof.
  intros Hn. pose proof hex_bytes_all_checked as H.
  rewrite forallb_forall in H. specialize (H (Z.to_nat n)).
  unfold hex_byte_checked in H. rewrite Z2Nat.id in H by lia.
  apply str_eqb_eq. apply H. apply in_seq. lia.
Qed.

(** [rgb_to_ass_tag] writes the blue, the green and the red component, in
    this order and without padding: components from 16 to 255 give the six
    hexadecimal digits of a colour, and a tag of components up to 255 has
    six digits only then (a component below 16 gives a single digit). *)
Theorem rgb_tag_digits (r g b : Z) :
  0 <= r <= 255 -> 0 <= g <= 255 -> 0 <= b <= 255 ->
  (16 <= r -> 16 <= g -> 16 <= b ->
   rgb_to_ass_tag r g b
   = lit "{\c&H" ++ hex2 b ++ hex2 g ++ hex2 r ++ lit "&}")
  /\ (length (rgb_to_ass_tag r g b) = 13%nat
      <-> 16 <= r /\ 16 <= g /\ 16 <= b).
Proof.
  intros Hr Hg Hb. unfold rgb_to_ass_tag.
  rewrite (hex_byte r Hr), (hex_byte g Hg), (hex_byte b Hb).
  destruct (r <? 16) eqn:Er; destruct (g <? 16) eqn:Eg;
    destruct (b <? 16) eqn:Eb; simpl; split; try lia; try reflexivity;
    split; try lia; try discriminate.
Qed.

Lemma rgb_tag_digits_witness :
  (16 <= 241 -> 16 <= 196 -> 16 <= 15 ->
   rgb_to_ass_tag 241 196 15
   = lit "{\c&H" ++ hex2 15 ++ hex2 196 ++ hex2 241 ++ lit "&}")
  /\ (length (rgb_to_ass_tag 241 196 15) = 13%nat
      <-> 16 <= 241 /\ 16 <= 196 /\ 16 <= 15).
Proof.
  apply (rgb_tag_digits 241 196 15); lia.
Defined.

(** * Wrapping a message *)

(** ** Methods of [str] *)

Fixpoint starts_with (prefix s : pystr) : bool :=
  match prefix, s with
  | [], _ => true
  | a :: prefix', b :: s' => char_eqb a b && starts_with prefix' s'
  | _ :: _, [] => false
  end.

(** The scan of [s.replace(old, new)] for a non-empty [old]; [skip] counts
    the characters of a replaced occurrence still to be passed. *)
Fixpoint replace_from (old new : pystr) (skip : nat) (s : pystr) : pystr :=
  match s with
  | [] => []
  | c :: s' =>
      match skip with
      | S k => replace_from old new k s'
      | O =>
          if starts_with old s
          then new ++ replace_from old new (length old - 1) s'
          else c :: replace_from old new 0 s'
      end
  end.

(** [s.replace(old, new)]. *)
Definition str_replace (s old new : pystr) : pystr :=
  match old with
  | [] => new ++ flat_map (fun c => c :: new) s
  | _ :: _ => replace_from old new 0 s
  end.

(** [s.index(c)] for a character [c]. *)
Fixpoint str_index (s : pystr) (c : codepoint) : outcome nat :=
  match s with
  | [] => Raise ValueError
  | x :: s' =>
      if char_eqb x c then Ok 0%nat
      else i <- str_index s' c ;; Ok (S i)
  end.

(** [s[1:-1]]. *)
Definition slice_inner {A} (s : list A) : list A := removelast (tl s).

(** ** [textwrap.wrap] *)

(** The tables of Unicode that the regular expressions of [textwrap] read
    beyond ASCII: which characters are alphanumeric ([\w] is these and the
    underscore) and which are decimal digits ([\d]). *)
Record unicode_table : Type := mkUnicodeTable {
  uni_alnum : codepoint -> bool;
  uni_decimal : codepoint -> bool
}.

(** [textwrap]'s [_whitespace], the characters [\t\n\x0b\x0c\r ] . *)
Definition is_whitespace (c : codepoint) : bool :=
  N.eqb c 9 || N.eqb c 10 || N.eqb c 11 || N.eqb c 12 || N.eqb c 13
  || N.eqb c 32.

(** [c.isspace()], the characters that [strip] removes. *)
Definition is_space (c : codepoint) : bool :=
  (N.leb 9 c && N.leb c 13) || (N.leb 28 c && N.leb c 32)
  || N.eqb c 133 || N.eqb c 160 || N.eqb c 5760
  || (N.leb 8192 c && N.leb c 8202)
  || N.eqb c 8232 || N.eqb c 8233 || N.eqb c 8239 || N.eqb c 8287
  || N.eqb c 12288.

Definition hyphen : codepoint := 45%N.
Definition space : codepoint := 32%N.

Section TextWrap.

Variable U : unicode_table.

Definition is_decimal (c : codepoint) : bool :=
  if N.ltb c 128 then N.leb 48 c && N.leb c 57 else uni_decimal U c.

(** [\w]. *)
Definition is_word (c : codepoint) : bool :=
  if N.ltb c 128 then
    (N.leb 48 c && N.leb c 57) || (N.leb 65 c && N.leb c 90)
    || (N.leb 97 c && N.leb c 122) || N.eqb c 95
  else uni_alnum U c.

(** [[^\d\W]]. *)
Definition is_letter (c : codepoint) : bool := is_word c && negb (is_decimal c).

(** [word_punct]: a word character or one of the marks of punctuation
    (exclamation mark, double and single quote, ampersand, point, comma,
    question mark). *)
Definition is_word_punct (c : codepoint) : bool :=
  is_word c || N.eqb c 33 || N.eqb c 34 || N.eqb c 39 || N.eqb c 38
  || N.eqb c 46 || N.eqb c 44 || N.eqb c 63.

(** [s.expandtabs(8)], from column [col]. *)
Fixpoint expandtabs_from (col : nat) (s : pystr) : pystr :=
  match s with
  | [] => []
  | c :: s' =>
      if N.eqb c 9 then
        let incr := (8 - col mod 8)%nat in
        repeat space incr ++ expandtabs_from (col + incr) s'
      else
        c :: expandtabs_from
               (if N.eqb c 10 || N.eqb c 13 then 0 else col + 1)%nat s'
  end.

(** [_munge_whitespace]. *)
Definition munge_whitespace (text : pystr) : pystr :=
  map (fun c => if is_whitespace c then space else c) (expandtabs_from 0 text).

(** The character at offset [k] from the place the match began: in the
    text still to split when [k >= 0], in the text already split (kept
    backwards) when [k < 0]. *)
Definition char_at (before rest : pystr) (k : Z) : option codepoint :=
  if k <? 0 then nth_error before (Z.to_nat (- k - 1))
  else nth_error rest (Z.to_nat k).

Definition test_at (p : codepoint -> bool) (before rest : pystr) (k : Z) : bool :=
  match char_at before rest k with
  | Some c => p c
  | None => false
  end.

(** The length of the run of the characters that satisfy [p] at the head. *)
Fixpoint run_length (p : codepoint -> bool) (s : pystr) : nat :=
  match s with
  | c :: s' => if p c then S (run_length p s') else O
  | [] => O
  end.

Definition is_hyphen (c : codepoint) : bool := N.eqb c hyphen.

(** [(?=-{2,}\w)] at offset [k]. *)
Definition emdash_ahead (rest : pystr) (k : nat) : bool :=
  let h := run_length is_hyphen (skipn k rest) in
  (2 <=? h)%nat
  && match nth_error rest (k + h) with
     | Some c => is_word c
     | None => false
     end.

(** The hyphen at offset [l] ends a chunk:
    [-(?:(?<=lt{2}-)|(?<=lt-lt-))(?=lt-?lt)]. *)
Definition hyphen_break (before rest : pystr) (l : Z) : bool :=
  ((test_at is_letter before rest (l - 2) && test_at is_letter before rest (l - 1))
   || (test_at is_letter before rest (l - 3)
       && test_at is_hyphen before rest (l - 2)
       && test_at is_letter before rest (l - 1)))
  && test_at is_letter before rest (l + 1)
  && (test_at is_letter before rest (l + 2)
      || (test_at is_hyphen before rest (l + 2)
          && test_at is_letter before rest (l + 3))).

(** The lazy [nws+?] of a word, [l] characters taken, [tail] still ahead:
    the first [l] at which the hyphen, the end of the word or an em-dash
    lets the match end. *)
Fixpoint word_length_from (before rest : pystr) (l : nat) (tail : pystr) : nat :=
  match tail with
  | [] => l
  | c :: tail' =>
      if is_hyphen c && hyphen_break before rest (Z.of_nat l) then S l
      else if is_whitespace c then l
      else if test_at is_word_punct before rest (Z.of_nat l - 1)
              && emdash_ahead rest l then l
      else word_length_from before rest (S l) tail'
  end.

(** The length of the match of [wordsep_re] at the head of [rest]. *)
Definition chunk_length (before rest : pystr) : nat :=
  match rest with
  | [] => O
  | c :: tail =>
      if is_whitespace c then run_length is_whitespace rest
      else if test_at is_word_punct before rest (-1) && emdash_ahead rest 0
      then run_length is_hyphen rest
      else word_length_from before rest 1 tail
  end.

(** [wordsep_re.split(text)], the empty strings left out. *)
Fixpoint split_chunks (fuel : nat) (before rest : pystr) : list pystr :=
  match fuel with
  | O => []
  | S fuel' =>
      match rest with
      | [] => []
      | _ :: _ =>
          let n := chunk_length before rest in
          firstn n rest
            :: split_chunks fuel' (rev (firstn n rest) ++ before) (skipn n rest)
      end
  end.

Definition wordsep_split (text : pystr) : list pystr :=
  split_chunks (length text) [] text.

(** [chunk.strip() == '']. *)
Definition all_space (chunk : pystr) : bool := forallb is_space chunk.

(** The inner loop of [_wrap_chunks]: the chunks that fit on the line. *)
Fixpoint take_fitting (chunks : list pystr) (width : Z) (cur_len : Z)
    (cur_line : list pystr) : list pystr * Z * list pystr :=
  match chunks with
  | [] => (cur_line, cur_len, [])
  | chunk :: chunks' =>
      if cur_len + Z.of_nat (length chunk) <=? width
      then take_fitting chunks' width (cur_len + Z.of_nat (length chunk))
             (cur_line ++ [chunk])
      else (cur_line, cur_len, chunks)
  end.

(** [chunk.rfind('-', 0, stop)]. *)
Definition rfind_hyphen (chunk : pystr) (stop : nat) : Z :=
  fold_left (fun found '(i, c) => if is_hyphen c then Z.of_nat i else found)
            (enumerate (firstn stop chunk)) (-1).

(** [_handle_long_word], the long words being broken: the head of
    [chunks] is cut and its begin put on the line. *)
Definition handle_long_word (chunks cur_line : list pystr) (cur_len width : Z)
  : list pystr * list pystr :=
  match chunks with
  | [] => (cur_line, chunks)
  | chunk :: chunks' =>
      let space_left := if width <? 1 then 1 else width - cur_len in
      let hyphen_at := rfind_hyphen chunk (Z.to_nat space_left) in
      let stop :=
        if (space_left <? Z.of_nat (length chunk))
           && (0 <? hyphen_at)
           && existsb (fun c => negb (is_hyphen c))
                      (firstn (Z.to_nat hyphen_at) chunk)
        then hyphen_at + 1 else space_left in
      (cur_line ++ [firstn (Z.to_nat stop) chunk],
       skipn (Z.to_nat stop) chunk :: chunks')
  end.

(** One turn of the outer loop of [_wrap_chunks]: the chunks left and the
    lines so far, one more line made. *)
Definition wrap_line (width : Z) (subsequent_indent : pystr) (indent_len : Z)
    (chunks lines : list pystr) : list pystr * list pystr :=
  let indent := match lines with [] => [] | _ :: _ => subsequent_indent end in
  let line_width :=
    width - match lines with [] => 0 | _ :: _ => indent_len end in
  let chunks1 :=
    match chunks, lines with
    | chunk :: chunks', _ :: _ => if all_space chunk then chunks' else chunks
    | _, _ => chunks
    end in
  let '(cur_line, cur_len, chunks2) := take_fitting chunks1 line_width 0 [] in
  let '(cur_line2, chunks3) :=
    match chunks2 with
    | chunk :: _ =>
        if line_width <? Z.of_nat (length chunk)
        then handle_long_word chunks2 cur_line cur_len line_width
        else (cur_line, chunks2)
    | [] => (cur_line, chunks2)
    end in
  let cur_line3 :=
    match cur_line2 with
    | [] => cur_line2
    | x :: l => if all_space (last l x) then removelast cur_line2 else cur_line2
    end in
  match cur_line3 with
  | [] => (chunks3, lines)
  | _ :: _ => (chunks3, lines ++ [indent ++ concat cur_line3])
  end.

Fixpoint wrap_chunks (fuel : nat) (width : Z) (subsequent_indent : pystr)
    (indent_len : Z) (chunks lines : list pystr) : list pystr :=
  match fuel with
  | O => lines
  | S fuel' =>
      match chunks with
      | [] => lines
      | _ :: _ =>
          let '(chunks', lines') :=
            wrap_line width subsequent_indent indent_len chunks lines in
          wrap_chunks fuel' width subsequent_indent indent_len chunks' lines'
      end
  end.

(** [textwrap.wrap(text, width, subsequent_indent=indent)], where
    [indent_len] is what [len(indent)] says. *)
Definition textwrap_wrap (text : pystr) (width : Z) (subsequent_indent : pystr)
    (indent_len : Z) : outcome (list pystr) :=
  let chunks := wordsep_split (munge_whitespace text) in
  if width <=? 0 then Raise ValueError
  else Ok (wrap_chunks (S (length (concat chunks))) width subsequent_indent
             indent_len chunks []).

End TextWrap.

(** A table that knows no character beyond ASCII. *)
Definition ascii_table : unicode_table :=
  mkUnicodeTable (fun _ => false) (fun _ => false).

(** * From the transcript to the output file *)

Definition semicolon : codepoint := 59%N.
Definition newline : codepoint := 10%N.
Definition hash : codepoint := 35%N.
Definition quote : codepoint := 34%N.

(** The clap emoji, one character. *)
Definition clap : pystr := [128079%N].

(** [InsaneHack("\\h\\h")]: four characters, and a [len] of two. *)
Definition insane_hack_indent : pystr := lit "\h\h".
Definition insane_hack_len : Z := 2.

Definition text_white_reset : pystr := lit "{\c&HFFFFFF&}".

(** The files that the script reads and writes, the last written first,
    and what it has printed. *)
Record world : Type := mkWorld {
  files : pydict;
  printed : list pystr
}.

(** [Path(name).read_text()]. *)
Definition read_text (w : world) (name : pystr) : outcome pystr :=
  match dict_get (files w) name with
  | Some content => Ok content
  | None => Raise FileNotFoundError
  end.

(** [Path(name).open("w")]: the file is made, or emptied. *)
Definition open_for_writing (w : world) (name : pystr) : world :=
  mkWorld ((name, []) :: files w) (printed w).

(** [out_file.write(data)] on the file [name], open for writing. *)
Definition write_to (w : world) (name data : pystr) : world :=
  match dict_get (files w) name with
  | Some content => mkWorld ((name, content ++ data) :: files w) (printed w)
  | None => w
  end.

Definition print (w : world) (line : pystr) : world :=
  mkWorld (files w) (printed w ++ [line]).

Section Script.

Variable U : unicode_table.

Definition get_messages_from_line (line : pystr) : outcome (list Message) :=
  match split_char semicolon line with
  | [author; timestamp; quoted_text; attachment; reactions; _] =>
      sent <- convert_message_timestamp_to_subtitle_time
                CRUMBLES_SNIPS (slice_inner timestamp) ;;
      let author := slice_inner author in
      i <- str_index author hash ;;
      let author := firstn i author in
      let author :=
        match dict_get NAME_REPLACEMENTS author with
        | Some name => name
        | None => author
        end in
      let text1 := author ++ lit ": " ++ slice_inner quoted_text in
      let text2 := str_replace text1 [quote; quote] [quote] in
      let insane_hack_text := str_replace text2 clap (lit "]]") in
      contents <- textwrap_wrap U insane_hack_text (Z.of_nat MAX_LINE_LENGTH)
                    insane_hack_indent insane_hack_len ;;
      let messages :=
        map (fun content =>
               mkMessage sent (str_replace content (lit "]]") clap))
            contents in
      first <- getitem messages 0 ;;
      color <- dict_getitem NAME_COLORS author ;;
      Ok (mkMessage (sent_time first)
            (str_replace (text first) (author ++ lit ": ")
               (color ++ author ++ lit ": " ++ text_white_reset))
            :: tl messages)
  | _ => Raise ValueError
  end.

(** [get_lines_in_file]. *)
Definition get_lines_in_file (w : world) : outcome (list pystr) :=
  content <- read_text w (lit "talkie_v2.csv") ;;
  let lines_including_header := split_char newline content in
  Ok (skipn 1 lines_including_header).

(** The loop of [get_messages_in_file]. *)
Fixpoint messages_of_lines (lines : list pystr) : outcome (list (list Message)) :=
  match lines with
  | [] => Ok []
  | line :: rest =>
      match split_char semicolon line with
      | [_; _; quoted_text; _; _; _] =>
          if str_eqb quoted_text [quote; quote] then messages_of_lines rest
          else
            messages <- get_messages_from_line line ;;
            total_messages <- messages_of_lines rest ;;
            Ok (messages :: total_messages)
      | _ => Raise ValueError
      end
  end.

Definition get_messages_in_file (w : world) : outcome (list (list Message)) :=
  lines <- get_lines_in_file w ;;
  messages_of_lines lines.

Definition get_output_lines (w : world) : outcome (list pystr) :=
  total_messages <- get_messages_in_file w ;;
  get_output_lines_of total_messages.

(** [main]: what it raises, if anything, and the world it leaves. *)
Definition main (w : world) : outcome unit * world :=
  match get_output_lines w with
  | Raise e => (Raise e, w)
  | Ok lines =>
      let out := lit "subtitles_out.ass" in
      let w1 := open_for_writing w out in
      match read_text w1 (lit "subtitles_base.ass") with
      | Raise e => (Raise e, w1)
      | Ok base_text =>
          let w2 := write_to w1 out base_text in
          let w3 := write_to w2 out (join [newline] lines) in
          (Ok tt, print w3 (lit "done"))
      end
  end.

End Script.

Definition example_line : pystr :=
  [quote] ++ lit "tmh#1234" ++ [quote; semicolon; quote] ++ lit "04:08:20"
  ++ [quote; semicolon; quote] ++ lit "hi there" ++ [quote; semicolon; quote]
  ++ [quote; semicolon; quote] ++ [quote; semicolon].

Example get_messages_from_line_ex :
  get_messages_from_line ascii_table example_line
  = Ok [mkMessage (lit "00:04:28.00")
          (lit "{\c&Hb65271&}tmh: {\c&HFFFFFF&}hi there")].
Proof. vm_compute. reflexivity. Qed.

(** * What wrapping keeps *)

Section WrapFacts.

Variable U : unicode_table.

(** ** The split into chunks *)

Lemma run_length_le (p : codepoint -> bool) (s : pystr) :
  (run_length p s <= length s)%nat.
Proof.
  induction s as [|c s IH]; simpl; [lia|]. destruct (p c); simpl; lia.
Qed.

Lemma word_length_from_bounds (before rest : pystr) (l : nat) (tail : pystr) :
  (l <= word_length_from U before rest l tail <= l + length tail)%nat.
Proof.
  revert l; induction tail as [|c tail IH]; intros l; simpl; [lia|].
  destruct (is_hyphen c && hyphen_break U before rest (Z.of_nat l)); [lia|].
  destruct (is_whitespace c); [lia|].
  destruct (test_at (is_word_punct U) before rest (Z.of_nat l - 1)
            && emdash_ahead U rest l); [lia|].
  specialize (IH (S l)). lia.
Qed.

Lemma chunk_length_bounds (before rest : pystr) :
  rest <> [] ->
  (1 <= chunk_length U before rest <= length rest)%nat.
Proof.
  destruct rest as [|c tail]; [congruence|]. intros _.
  unfold chunk_length.
  destruct (is_whitespace c) eqn:Hws.
  - pose proof (run_length_le is_whitespace (c :: tail)).
    simpl in *. rewrite Hws in *. lia.
  - destruct (test_at (is_word_punct U) before (c :: tail) (-1)
              && emdash_ahead U (c :: tail) 0) eqn:Hem.
    + apply andb_true_iff in Hem. destruct Hem as [_ Hem].
      unfold emdash_ahead in Hem. apply andb_true_iff in Hem.
      destruct Hem as [Hh _]. apply Nat.leb_le in Hh.
      change (skipn 0 (c :: tail)) with (c :: tail) in Hh.
      pose proof (run_length_le is_hyphen (c :: tail)). lia.
    + pose proof (word_length_from_bounds before (c :: tail) 1 tail).
      simpl length. lia.
Qed.

Lemma split_chunks_spec (fuel : nat) (before rest : pystr) :
  (length rest <= fuel)%nat ->
  concat (split_chunks U fuel before rest) = rest
  /\ Forall (fun chunk => chunk <> []) (split_chunks U fuel before rest).
Proof.
  revert before rest; induction fuel as [|fuel IH]; intros before rest Hlen.
  - destruct rest; [split; [reflexivity|constructor]|simpl in Hlen; lia].
  - destruct rest as [|c tail]; [split; [reflexivity|constructor]|].
    cbn [split_chunks].
    set (n := chunk_length U before (c :: tail)).
    assert (Hn : (1 <= n <= length (c :: tail))%nat)
      by (apply chunk_length_bounds; discriminate).
    destruct (IH (rev (firstn n (c :: tail)) ++ before) (skipn n (c :: tail)))
      as (Hcat & Hne).
    { rewrite length_skipn. lia. }
    split.
    + cbn [concat]. rewrite Hcat. apply firstn_skipn.
    + constructor; [|exact Hne].
      intros E. apply (f_equal (@length _)) in E.
      rewrite length_firstn in E. cbn [length] in E. lia.
Qed.

Lemma wordsep_split_spec (text : pystr) :
  concat (wordsep_split U text) = text
  /\ Forall (fun chunk => chunk <> []) (wordsep_split U text).
Proof. apply split_chunks_spec. lia. Qed.

End WrapFacts.

(** ** One line *)

Definition nonempty_chunks (chunks : list pystr) : Prop :=
  Forall (fun chunk => chunk <> []) chunks.

Lemma take_fitting_spec (chunks : list pystr) (width cur_len : Z)
    (cur_line cur_line' : list pystr) (cur_len' : Z) (chunks' : list pystr) :
  take_fitting chunks width cur_len cur_line = (cur_line', cur_len', chunks') ->
  exists taken,
    chunks = taken ++ chunks' /\ cur_line' = cur_line ++ taken
    /\ cur_len' = cur_len + Z.of_nat (length (concat taken))
    /\ (cur_len <= width -> cur_len' <= width)
    /\ match chunks' with
       | [] => True
       | chunk :: _ => width < cur_len' + Z.of_nat (length chunk)
       end.
Proof.
  revert cur_len cur_line; induction chunks as [|chunk chunks IH];
    intros cur_len cur_line; simpl.
  - intros H; injection H as <- <- <-. exists [].
    rewrite !app_nil_r. simpl. repeat split; auto; lia.
  - destruct (cur_len + Z.of_nat (length chunk) <=? width) eqn:Hfit.
    + intros H. destruct (IH _ _ H) as (taken & -> & -> & -> & Hle & Hnext).
      exists (chunk :: taken). rewrite <- app_assoc. simpl.
      rewrite length_app. repeat split; auto; lia.
    + intros H; injection H as <- <- <-. exists [].
      rewrite !app_nil_r. simpl. repeat split; auto; lia.
Qed.

Lemma rfind_fold_bounds (l : pystr) (k : nat) (acc : Z) :
  let r := fold_left (fun found '(i, c) => if is_hyphen c then Z.of_nat i else found)
                     (combine (seq k (length l)) l) acc in
  r = acc \/ Z.of_nat k <= r < Z.of_nat k + Z.of_nat (length l).
Proof.
  revert k acc; induction l as [|c l IH]; intros k acc; simpl; [left; reflexivity|].
  destruct (IH (S k) (if is_hyphen c then Z.of_nat k else acc)) as [E|E];
    cbv zeta in E.
  - rewrite E. destruct (is_hyphen c); [right; lia|left; reflexivity].
  - right. lia.
Qed.

Lemma rfind_hyphen_bounds (chunk : pystr) (stop : nat) :
  -1 <= rfind_hyphen chunk stop < Z.of_nat stop.
Proof.
  unfold rfind_hyphen, enumerate.
  pose proof (rfind_fold_bounds (firstn stop chunk) 0 (-1)) as H.
  cbv zeta in H. pose proof (length_firstn stop chunk).
  destruct H as [->|H]; lia.
Qed.

Lemma handle_long_word_spec (chunk : pystr) (chunks cur_line : list pystr)
    (cur_len width : Z) :
  1 <= width -> 0 <= cur_len <= width -> width < Z.of_nat (length chunk) ->
  exists piece remainder,
    handle_long_word (chunk :: chunks) cur_line cur_len width
    = (cur_line ++ [piece], remainder :: chunks)
    /\ chunk = piece ++ remainder /\ remainder <> []
    /\ Z.of_nat (length piece) <= width - cur_len
    /\ (cur_len < width -> piece <> []).
Proof.
  intros Hw Hcur Hlong. unfold handle_long_word. cbv zeta.
  assert (Hw1 : (width <? 1) = false) by (apply Z.ltb_ge; lia).
  rewrite Hw1.
  pose proof (rfind_hyphen_bounds chunk (Z.to_nat (width - cur_len))) as Hh.
  set (hyphen_at := rfind_hyphen chunk (Z.to_nat (width - cur_len))) in *.
  match goal with
  | |- context [Z.to_nat (if ?b then ?x else ?y)] =>
      set (stop := if b then x else y)
  end.
  assert (Hstop : 0 <= stop <= width - cur_len
                  /\ (cur_len < width -> 1 <= stop)).
  { subst stop. destruct (_ && _) eqn:E.
    - apply andb_true_iff in E. destruct E as [E _].
      apply andb_true_iff in E. destruct E as [_ E].
      apply Z.ltb_lt in E. lia.
    - lia. }
  exists (firstn (Z.to_nat stop) chunk), (skipn (Z.to_nat stop) chunk).
  repeat split.
  - symmetry. apply firstn_skipn.
  - intros E. apply (f_equal (@length _)) in E.
    rewrite length_skipn in E. simpl in E. lia.
  - rewrite length_firstn. lia.
  - intros Hlt E. apply (f_equal (@length _)) in E.
    rewrite length_firstn in E. simpl in E. lia.
Qed.

Lemma all_space_app (a b : pystr) :
  all_space (a ++ b) = all_space a && all_space b.
Proof. unfold all_space. apply forallb_app. Qed.

Lemma nonempty_chunks_concat (chunks : list pystr) :
  nonempty_chunks chunks -> chunks <> [] -> concat chunks <> [].
Proof.
  intros Hne Hc. destruct chunks as [|c chunks]; [congruence|].
  inversion Hne; subst. simpl. destruct c; [congruence|discriminate].
Qed.

Lemma long_word_step_spec (width cur_len : Z)
    (cur_line chunks2 cur_line2 chunks3 : list pystr) :
  1 <= width -> 0 <= cur_len <= width -> nonempty_chunks chunks2 ->
  match chunks2 with
  | chunk :: _ =>
      if width <? Z.of_nat (length chunk)
      then handle_long_word chunks2 cur_line cur_len width
      else (cur_line, chunks2)
  | [] => (cur_line, chunks2)
  end = (cur_line2, chunks3) ->
  exists pieces,
    cur_line2 = cur_line ++ pieces
    /\ concat chunks2 = concat pieces ++ concat chunks3
    /\ nonempty_chunks chunks3
    /\ Z.of_nat (length (concat pieces)) <= width - cur_len
    /\ (pieces = [] /\ chunks3 = chunks2
        \/ exists piece, pieces = [piece] /\ (cur_len < width -> piece <> []))
    /\ (forall chunk rest, chunks2 = chunk :: rest ->
          width < Z.of_nat (length chunk) -> pieces <> []).
Proof.
  intros Hw Hcur Hne.
  destruct chunks2 as [|chunk rest].
  - intros H; injection H as <- <-. exists []. rewrite app_nil_r. simpl.
    repeat split; auto; try lia. intros; discriminate.
  - destruct (width <? Z.of_nat (length chunk)) eqn:Hlong.
    + apply Z.ltb_lt in Hlong.
      destruct (handle_long_word_spec chunk rest cur_line cur_len width
                  Hw Hcur Hlong)
        as (piece & remainder & -> & Hsplit & Hrem & Hlen & Hpiece).
      intros H; injection H as <- <-. exists [piece].
      inversion Hne; subst. simpl. rewrite !app_nil_r, <- app_assoc.
      repeat split; auto.
      * constructor; assumption.
      * right. exists piece. split; [reflexivity|exact Hpiece].
      * intros; discriminate.
    + apply Z.ltb_ge in Hlong.
      intros H; injection H as <- <-. exists []. rewrite app_nil_r. simpl.
      repeat split; auto; try lia.
      intros chunk' rest' E Hl. injection E as <- <-. lia.
Qed.

Lemma drop_last_space_spec (cur_line2 : list pystr) :
  let cur_line3 :=
    match cur_line2 with
    | [] => cur_line2
    | x :: l => if all_space (last l x) then removelast cur_line2 else cur_line2
    end in
  exists dropped,
    cur_line2 = cur_line3 ++ dropped
    /\ all_space (concat dropped) = true
    /\ (dropped = [] \/ exists x, dropped = [x]).
Proof.
  destruct cur_line2 as [|x l]; cbv zeta.
  - exists []. repeat split; auto.
  - destruct (all_space (last l x)) eqn:Hsp.
    + exists [last l x]. repeat split.
      * rewrite <- (last_cons l x x). apply app_removelast_last. discriminate.
      * simpl. rewrite app_nil_r. exact Hsp.
      * right. eexists; reflexivity.
    + exists []. rewrite app_nil_r. repeat split; auto.
Qed.

Lemma drop_last_space_snoc_empty (taken : list pystr) :
  match taken ++ [[]] with
  | [] => taken ++ [[]]
  | x :: l =>
      if all_space (last l x) then removelast (taken ++ [[]])
      else taken ++ [[]]
  end = taken.
Proof.
  destruct taken as [|t ts]; [reflexivity|].
  cbn [app]. rewrite last_last. change (all_space []) with true. cbv iota.
  change (t :: ts ++ [[]]) with ((t :: ts) ++ [[]]).
  apply removelast_last.
Qed.

(** What one turn of the loop of [_wrap_chunks] does. *)
Lemma wrap_line_spec (width : Z) (indent : pystr) (indent_len : Z)
    (chunks lines chunks' lines' : list pystr) :
  0 <= indent_len < width -> nonempty_chunks chunks -> chunks <> [] ->
  wrap_line width indent indent_len chunks lines = (chunks', lines') ->
  exists d1 content d2,
    concat chunks = d1 ++ content ++ d2 ++ concat chunks'
    /\ all_space d1 = true /\ all_space d2 = true
    /\ nonempty_chunks chunks'
    /\ (length (concat chunks') < length (concat chunks))%nat
    /\ Z.of_nat (length content)
       <= width - match lines with [] => 0 | _ :: _ => indent_len end
    /\ (content = [] /\ lines' = lines
        \/ content <> []
           /\ lines' = lines ++ [match lines with [] => [] | _ :: _ => indent end
                                 ++ content]).
Proof.
  intros Hw Hne Hc. unfold wrap_line.
  set (lw := width - match lines with [] => 0 | _ :: _ => indent_len end).
  assert (Hlw : 1 <= lw) by (subst lw; destruct lines; lia).
  set (chunks1 := match chunks, lines with
                  | chunk :: chunks0, _ :: _ =>
                      if all_space chunk then chunks0 else chunks
                  | _, _ => chunks
                  end).
  assert (H1 : exists d1, concat chunks = d1 ++ concat chunks1
                          /\ all_space d1 = true /\ nonempty_chunks chunks1
                          /\ (d1 <> [] \/ chunks1 = chunks)).
  { subst chunks1. destruct chunks as [|chunk chunks0]; [congruence|].
    destruct lines as [|line0 lines0].
    - exists []. repeat split; auto.
    - destruct (all_space chunk) eqn:Hsp.
      + exists chunk. inversion Hne; subst. repeat split; auto.
      + exists []. repeat split; auto. }
  destruct H1 as (d1 & Hd1 & Hsp1 & Hne1 & Hprog1).
  destruct (take_fitting chunks1 lw 0 []) as [[cur_line cur_len] chunks2] eqn:Htake.
  destruct (take_fitting_spec _ _ _ _ _ _ _ Htake)
    as (taken & Hsplit & Hline & Hlen & Hle & Hnext).
  simpl in Hline. subst cur_line.
  assert (Hcur : 0 <= cur_len <= lw) by lia.
  assert (Hne2 : nonempty_chunks taken /\ nonempty_chunks chunks2).
  { rewrite Hsplit in Hne1. apply Forall_app in Hne1. exact Hne1. }
  destruct Hne2 as [Hnet Hne2].
  destruct (match chunks2 with
            | [] => (taken, chunks2)
            | chunk :: _ =>
                if lw <? Z.of_nat (length chunk)
                then handle_long_word chunks2 taken cur_len lw
                else (taken, chunks2)
            end) as [cur_line2 chunks3] eqn:Hlong.
  assert (Hlong' : match chunks2 with
                   | chunk :: _ =>
                       if lw <? Z.of_nat (length chunk)
                       then handle_long_word chunks2 taken cur_len lw
                       else (taken, chunks2)
                   | [] => (taken, chunks2)
                   end = (cur_line2, chunks3))
    by (destruct chunks2; exact Hlong).
  destruct (long_word_step_spec lw cur_len taken chunks2 cur_line2 chunks3
              Hlw Hcur Hne2 Hlong')
    as (pieces & Hline2 & Hcat2 & Hne3 & Hplen & Hpieces & Hforced).
  destruct (drop_last_space_spec cur_line2) as (dropped & Hdrop & Hdsp & Hdshape).
  cbv zeta in Hdrop.
  remember (match cur_line2 with
            | [] => cur_line2
            | x :: l =>
                if all_space (last l x) then removelast cur_line2
                else cur_line2
            end) as cur_line3 eqn:Hcl3.
  assert (Hq1 : concat cur_line2 = concat taken ++ concat pieces)
    by (rewrite Hline2; apply concat_app).
  assert (Hq2 : concat cur_line2 = concat cur_line3 ++ concat dropped)
    by (rewrite <- concat_app; apply (f_equal (@concat _)); exact Hdrop).
  assert (Hc2 : concat chunks = d1 ++ concat cur_line2 ++ concat chunks3).
  { rewrite Hd1, Hsplit, concat_app, Hcat2, Hq1, <- !app_assoc. reflexivity. }
  assert (Hcat : concat chunks
                 = d1 ++ concat cur_line3 ++ concat dropped ++ concat chunks3).
  { rewrite Hc2, Hq2, <- !app_assoc. reflexivity. }
  assert (Hlen2 : Z.of_nat (length (concat cur_line2)) <= lw).
  { rewrite Hq1, length_app. lia. }
  assert (Hne_line3 : nonempty_chunks cur_line3).
  { assert (Hall : nonempty_chunks cur_line2 \/
                   exists piece, cur_line2 = taken ++ [piece] /\ piece = []).
    { rewrite Hline2. destruct Hpieces as [[-> _]|(piece & -> & Hp)].
      - left. rewrite app_nil_r. exact Hnet.
      - destruct piece as [|c p].
        + right. exists []. split; reflexivity.
        + left. apply Forall_app. split; [exact Hnet|].
          constructor; [discriminate|constructor]. }
    destruct Hall as [Hall|(piece & E & ->)].
    - rewrite Hdrop in Hall. apply Forall_app in Hall. tauto.
    - rewrite Hcl3, E, drop_last_space_snoc_empty. exact Hnet. }
  assert (Hprog : (length (concat chunks3) < length (concat chunks))%nat).
  { rewrite Hc2, !length_app.
    destruct Hprog1 as [Hd|Hsame].
    - destruct d1; [congruence|]. simpl. lia.
    - assert (Hnz : concat cur_line2 <> []).
      { rewrite Hq1.
        destruct taken as [|t0 taken'].
        - simpl.
          assert (Hs' : chunks = chunks2)
            by (transitivity chunks1; [symmetry; exact Hsame|exact Hsplit]).
          destruct chunks2 as [|chunk rest]; [congruence|].
          assert (Hp : pieces <> []).
          { apply (Hforced chunk rest eq_refl). simpl in Hlen. lia. }
          destruct Hpieces as [[-> _]|(piece & -> & Hpne)]; [congruence|].
          simpl. rewrite app_nil_r. apply Hpne. simpl in Hlen. lia.
        - inversion Hnet as [|? ? Ht0 Hrest]. simpl.
          destruct t0; [congruence|discriminate]. }
      destruct (concat cur_line2); [congruence|]. simpl. lia. }
  assert (Hclen : Z.of_nat (length (concat cur_line3)) <= lw).
  { rewrite Hq2, length_app in Hlen2. lia. }
  intros Hfinal.
  exists d1, (concat cur_line3), (concat dropped).
  clear Hcl3.
  destruct cur_line3 as [|x l]; injection Hfinal as <- <-;
    repeat split; try assumption.
  - left. split; reflexivity.
  - right. split; [|reflexivity].
    apply nonempty_chunks_concat; [exact Hne_line3|discriminate].
Qed.

(** ** All the lines *)

(** The lines of [wrap], from what stands on them after the indent. *)
Definition add_indent (indent : pystr) (contents : list pystr) : list pystr :=
  match contents with
  | [] => []
  | c :: cs => c :: map (app indent) cs
  end.

(** A text is the contents of the lines, in order, with nothing but
    white space before, between and after them. *)
Inductive rejoined : list pystr -> pystr -> Prop :=
| rejoined_nil d : all_space d = true -> rejoined [] d
| rejoined_cons d c cs rest :
    all_space d = true -> rejoined cs rest ->
    rejoined (c :: cs) (d ++ c ++ rest).

(** The first line is no longer than the width, the others no longer than
    the width less what the indent counts for. *)
Definition fits (width indent_len : Z) (contents : list pystr) : Prop :=
  match contents with
  | [] => True
  | c :: cs =>
      Z.of_nat (length c) <= width
      /\ Forall (fun c' => Z.of_nat (length c') <= width - indent_len) cs
  end.

Lemma rejoined_extend (contents : list pystr) (p d : pystr) :
  rejoined contents p -> all_space d = true -> rejoined contents (p ++ d).
Proof.
  intros H Hd; induction H as [d0 H0|d0 c cs rest H0 H IH].
  - constructor. rewrite all_space_app, H0, Hd. reflexivity.
  - rewrite <- !app_assoc. constructor; assumption.
Qed.

Lemma rejoined_snoc (contents : list pystr) (p d1 c d2 : pystr) :
  rejoined contents p -> all_space d1 = true -> all_space d2 = true ->
  rejoined (contents ++ [c]) (p ++ d1 ++ c ++ d2).
Proof.
  intros H H1 H2; induction H as [d0 H0|d0 c0 cs rest H0 H IH].
  - simpl. rewrite app_assoc. constructor.
    + rewrite all_space_app, H0, H1. reflexivity.
    + constructor. exact H2.
  - simpl. rewrite <- !app_assoc. constructor; assumption.
Qed.

Lemma add_indent_snoc (indent : pystr) (contents : list pystr) (c : pystr) :
  add_indent indent (contents ++ [c])
  = add_indent indent contents
    ++ [match add_indent indent contents with
        | [] => []
        | _ :: _ => indent
        end ++ c].
Proof.
  destruct contents as [|c0 cs]; simpl; [reflexivity|].
  rewrite map_app. reflexivity.
Qed.

Lemma fits_snoc (width indent_len : Z) (contents : list pystr) (c : pystr) :
  0 <= indent_len ->
  fits width indent_len contents ->
  Z.of_nat (length c)
  <= width - match contents with [] => 0 | _ :: _ => indent_len end ->
  fits width indent_len (contents ++ [c]).
Proof.
  intros Hi Hf Hc. destruct contents as [|c0 cs]; simpl in *.
  - split; [lia|constructor].
  - destruct Hf as [H0 Hcs]. split; [exact H0|].
    apply Forall_app. split; [exact Hcs|]. constructor; [exact Hc|constructor].
Qed.

Lemma wrap_chunks_spec (width : Z) (indent : pystr) (indent_len : Z) :
  0 <= indent_len < width ->
  forall (fuel : nat) (chunks contents : list pystr) (prefix : pystr),
    nonempty_chunks chunks ->
    (length (concat chunks) < fuel)%nat ->
    rejoined contents prefix -> fits width indent_len contents ->
    nonempty_chunks contents ->
    exists contents',
      wrap_chunks fuel width indent indent_len chunks
                  (add_indent indent contents)
      = add_indent indent contents'
      /\ rejoined contents' (prefix ++ concat chunks)
      /\ fits width indent_len contents'
      /\ nonempty_chunks contents'.
Proof.
  intros Hw fuel; induction fuel as [|fuel IH];
    intros chunks contents prefix Hne Hfuel Hre Hfit Hcne; [lia|].
  destruct chunks as [|chunk chunks0].
  - exists contents. simpl. rewrite app_nil_r. auto.
  - cbn [wrap_chunks].
    destruct (wrap_line width indent indent_len (chunk :: chunks0)
                (add_indent indent contents)) as [chunks' lines'] eqn:Hline.
    destruct (wrap_line_spec _ _ _ _ _ _ _ Hw Hne ltac:(discriminate) Hline)
      as (d1 & content & d2 & Hcat & Hd1 & Hd2 & Hne' & Hprog & Hlen & Hlines).
    assert (Hsame : match add_indent indent contents with
                    | [] => 0 | _ :: _ => indent_len end
                    = match contents with [] => 0 | _ :: _ => indent_len end)
      by (destruct contents; reflexivity).
    rewrite Hsame in Hlen. rewrite Hcat.
    assert (Hfuel' : (length (concat chunks') < fuel)%nat) by lia.
    destruct Hlines as [[-> ->]|[Hcontent ->]].
    + assert (Hre1 : rejoined contents (prefix ++ d1 ++ d2)).
      { apply rejoined_extend; [exact Hre|].
        rewrite all_space_app, Hd1, Hd2. reflexivity. }
      destruct (IH chunks' contents (prefix ++ d1 ++ d2)
                  Hne' Hfuel' Hre1 Hfit Hcne)
        as (contents' & E & Hre' & Hfit' & Hcne').
      exists contents'. split; [exact E|]. repeat split; auto.
      simpl. rewrite <- !app_assoc in Hre'. exact Hre'.
    + rewrite <- add_indent_snoc.
      assert (Hre1 : rejoined (contents ++ [content])
                       (prefix ++ d1 ++ content ++ d2))
        by (apply rejoined_snoc; assumption).
      assert (Hfit1 : fits width indent_len (contents ++ [content]))
        by (apply fits_snoc; [lia|exact Hfit|exact Hlen]).
      assert (Hcne1 : nonempty_chunks (contents ++ [content])).
      { apply Forall_app. split; [exact Hcne|].
        constructor; [exact Hcontent|constructor]. }
      destruct (IH chunks' (contents ++ [content])
                  (prefix ++ d1 ++ content ++ d2)
                  Hne' Hfuel' Hre1 Hfit1 Hcne1)
        as (contents' & E & Hre' & Hfit' & Hcne').
      exists contents'. split; [exact E|]. repeat split; auto.
      rewrite <- !app_assoc in Hre'. exact Hre'.
Qed.

(** ** The text is kept *)

Definition not_space (c : codepoint) : bool := negb (is_space c).

Lemma all_space_filter (d : pystr) :
  all_space d = true -> filter not_space d = [].
Proof.
  unfold all_space, not_space. induction d as [|c d IH]; simpl; [reflexivity|].
  intros H. apply andb_true_iff in H. destruct H as [Hc Hd].
  rewrite Hc. simpl. apply IH. exact Hd.
Qed.

Lemma rejoined_filter (contents : list pystr) (p : pystr) :
  rejoined contents p ->
  filter not_space (concat contents) = filter not_space p.
Proof.
  induction 1 as [d Hd|d c cs rest Hd H IH]; simpl.
  - symmetry. apply all_space_filter. exact Hd.
  - rewrite !filter_app, IH, (all_space_filter d Hd). reflexivity.
Qed.

Lemma is_whitespace_is_space (c : codepoint) :
  is_whitespace c = true -> is_space c = true.
Proof.
  unfold is_whitespace, is_space. intros H.
  repeat (apply orb_true_iff in H; destruct H as [H|H]);
    apply N.eqb_eq in H; subst c; reflexivity.
Qed.

Lemma expandtabs_filter (col : nat) (s : pystr) :
  filter not_space (expandtabs_from col s) = filter not_space s.
Proof.
  revert col; induction s as [|c s IH]; intros col; simpl; [reflexivity|].
  destruct (N.eqb c 9) eqn:Htab.
  - apply N.eqb_eq in Htab. subst c. rewrite filter_app, IH.
    change (not_space 9%N) with false. cbv iota.
    assert (E : forall n, filter not_space (repeat space n) = [])
      by (induction n; simpl; auto).
    rewrite E. reflexivity.
  - simpl. rewrite IH. reflexivity.
Qed.

Lemma munge_whitespace_filter (text : pystr) :
  filter not_space (munge_whitespace text) = filter not_space text.
Proof.
  unfold munge_whitespace. rewrite <- (expandtabs_filter 0 text).
  induction (expandtabs_from 0 text) as [|c s IH]; simpl; [reflexivity|].
  destruct (is_whitespace c) eqn:Hws.
  - assert (Hs : not_space c = false)
      by (unfold not_space; rewrite (is_whitespace_is_space c Hws); reflexivity).
    rewrite Hs. change (not_space space) with false. cbv iota. exact IH.
  - rewrite IH. reflexivity.
Qed.

(** The lines of [textwrap.wrap], for a width that leaves room after the
    indent. *)
Lemma textwrap_wrap_spec (U : unicode_table) (text : pystr) (width : Z)
    (indent : pystr) (indent_len : Z) :
  0 <= indent_len < width ->
  exists contents,
    textwrap_wrap U text width indent indent_len
    = Ok (add_indent indent contents)
    /\ rejoined contents (munge_whitespace text)
    /\ fits width indent_len contents
    /\ nonempty_chunks contents.
Proof.
  intros Hw. unfold textwrap_wrap.
  destruct (width <=? 0) eqn:E; [lia|].
  destruct (wordsep_split_spec U (munge_whitespace text)) as (Hcat & Hne).
  destruct (wrap_chunks_spec width indent indent_len Hw
              (S (length (concat (wordsep_split U (munge_whitespace text)))))
              (wordsep_split U (munge_whitespace text)) [] [])
    as (contents & Hwrap & Hre & Hfit & Hcne); auto.
  - constructor. reflexivity.
  - exact I.
  - constructor.
  - exists contents. cbn [app] in Hre. rewrite Hcat in Hre.
    change (add_indent indent []) with (@nil pystr) in Hwrap.
    rewrite Hwrap. auto.
Qed.

(** [textwrap.wrap] keeps the text: for a width that leaves room after
    the indent, it returns lines that are not empty; the first is at most
    [width] long and stands as it is, the others are the indent followed by
    at most [width - indent_len] characters; and the text, its white space
    made spaces, is what stands on the lines, in order, with nothing but
    white space before, between and after, so that the lines hold the
    characters of the text that are not white space, all of them and in
    their order. *)
Theorem wrap_keeps_text (U : unicode_table) (text : pystr) (width : Z)
    (indent : pystr) (indent_len : Z) :
  0 <= indent_len < width ->
  exists contents,
    textwrap_wrap U text width indent indent_len
    = Ok (add_indent indent contents)
    /\ rejoined contents (munge_whitespace text)
    /\ filter not_space (concat contents) = filter not_space text
    /\ fits width indent_len contents
    /\ Forall (fun c => c <> []) contents.
Proof.
  intros Hw.
  destruct (textwrap_wrap_spec U text width indent indent_len Hw)
    as (contents & E & Hre & Hfit & Hne).
  exists contents. repeat split; auto.
  rewrite (rejoined_filter _ _ Hre). apply munge_whitespace_filter.
Qed.

Lemma wrap_keeps_text_witness :
  exists contents,
    textwrap_wrap ascii_table (lit "tmh: well-known words, wrapped at the width of the screen")
      37 insane_hack_indent 2
    = Ok (add_indent insane_hack_indent contents)
    /\ rejoined contents
         (munge_whitespace
            (lit "tmh: well-known words, wrapped at the width of the screen"))
    /\ filter not_space (concat contents)
       = filter not_space
           (lit "tmh: well-known words, wrapped at the width of the screen")
    /\ fits 37 2 contents
    /\ Forall (fun c => c <> []) contents.
Proof.
  apply (wrap_keeps_text ascii_table
           (lit "tmh: well-known words, wrapped at the width of the screen")
           37 insane_hack_indent 2).
  lia.
Defined.

Example wrap_example :
  textwrap_wrap ascii_table
    (lit "tmh: well-known words, wrapped at the width of the screen")
    37 insane_hack_indent 2
  = Ok [ lit "tmh: well-known words, wrapped at the";
         lit "\h\hwidth of the screen" ].
Proof. vm_compute. reflexivity. Qed.

(** * The messages of a line *)

(** ** [replace] *)

Lemma starts_with_nth (old s : pystr) (i : nat) :
  starts_with old s = true -> (i < length old)%nat ->
  nth_error s i = nth_error old i.
Proof.
  revert s i; induction old as [|a old IH]; intros s i H Hi; [simpl in Hi; lia|].
  destruct s as [|b s]; [discriminate|]. simpl in H.
  apply andb_true_iff in H. destruct H as [Hab H]. apply N.eqb_eq in Hab.
  destruct i as [|i]; simpl; [congruence|]. apply IH; [exact H|simpl in Hi; lia].
Qed.

(** A character that is not of [old] stays where [old] is replaced. *)
Lemma replace_from_keeps (a : codepoint) (old new : pystr) (c : codepoint)
    (s : pystr) (skip : nat) :
  ~ In c (a :: old) ->
  (forall i x, (i < skip)%nat -> nth_error s i = Some x -> In x (a :: old)) ->
  In c s -> In c (replace_from (a :: old) new skip s).
Proof.
  intros Hc. revert skip; induction s as [|x s IH]; intros skip Hskip Hin;
    [destruct Hin|].
  cbn [replace_from]. destruct skip as [|k].
  - destruct (starts_with (a :: old) (x :: s)) eqn:Hst.
    + apply in_or_app. right. apply IH.
      * intros i y Hi Hy.
        assert (Hn : nth_error (x :: s) (S i) = nth_error (a :: old) (S i))
          by (apply starts_with_nth; [exact Hst|simpl in *; lia]).
        cbn [nth_error] in Hn. rewrite Hy in Hn. symmetry in Hn.
        right. eapply nth_error_In; exact Hn.
      * destruct Hin as [->|Hin]; [|exact Hin]. exfalso. apply Hc.
        simpl in Hst. apply andb_true_iff in Hst. destruct Hst as [E _].
        apply N.eqb_eq in E. left. congruence.
    + destruct Hin as [->|Hin]; [left; reflexivity|right].
      apply IH; [intros i y Hi; lia|exact Hin].
  - apply IH.
    + intros i y Hi Hy. apply (Hskip (S i) y); [lia|exact Hy].
    + destruct Hin as [->|Hin]; [|exact Hin]. exfalso. apply Hc.
      apply (Hskip 0%nat c); [lia|reflexivity].
Qed.

Lemma str_replace_keeps (s old new : pystr) (c : codepoint) :
  old <> [] -> ~ In c old -> In c s -> In c (str_replace s old new).
Proof.
  intros Hold Hc Hin. destruct old as [|a old]; [congruence|].
  unfold str_replace. apply replace_from_keeps; auto. intros i x Hi. lia.
Qed.

(** ** What [get_messages_from_line] returns and raises *)

(** The name of the author, from the first field of a line:
    [author[1:-1]], cut at the [#], replaced if the table of replacements
    has it. *)
Definition record_author (author_field : pystr) : outcome pystr :=
  let author := slice_inner author_field in
  i <- str_index author hash ;;
  let author := firstn i author in
  Ok match dict_get NAME_REPLACEMENTS author with
     | Some name => name
     | None => author
     end.

(** The text that is wrapped, [insane_hack_text]. *)
Definition record_text (author quoted_text : pystr) : pystr :=
  str_replace
    (str_replace (author ++ lit ": " ++ slice_inner quoted_text)
       [quote; quote] [quote])
    clap (lit "]]").

(** The message of the first line, and of a line after the first. *)
Definition first_message (sent author color line : pystr) : Message :=
  mkMessage sent
    (str_replace (str_replace line (lit "]]") clap) (author ++ lit ": ")
       (color ++ author ++ lit ": " ++ text_white_reset)).

Definition later_message (sent line : pystr) : Message :=
  mkMessage sent (str_replace line (lit "]]") clap).

Lemma str_index_raises (s : pystr) (c : codepoint) (e : exn) :
  str_index s c = Raise e -> e = ValueError.
Proof.
  induction s as [|x s IH]; simpl; [congruence|].
  destruct (char_eqb x c); [discriminate|].
  destruct (str_index s c); cbn [bind]; [discriminate|].
  intros H. apply IH. congruence.
Qed.

Lemma record_author_raises (author_field : pystr) (e : exn) :
  record_author author_field = Raise e -> e = ValueError.
Proof.
  unfold record_author.
  destruct (str_index (slice_inner author_field) hash) eqn:Hi; cbn [bind];
    [discriminate|].
  intros H. injection H as <-. exact (str_index_raises _ _ _ Hi).
Qed.

Lemma time_field_raises (bound : Z) (s : pystr) (e : exn) :
  time_field bound s = Raise e -> e = ValueError.
Proof.
  unfold time_field.
  destruct s as [|a [|b [|c s]]]; try congruence;
    (destruct (digits_value 0 _) as [v|]; [|congruence]);
    (destruct (v <=? bound)%Z; congruence).
Qed.

Lemma strptime_HMS_raises (s : pystr) (e : exn) :
  strptime_HMS s = Raise e -> e = ValueError.
Proof.
  unfold strptime_HMS.
  destruct (split_char colon s) as [|h [|m [|sec [|x l]]]]; try congruence.
  destruct (time_field 23 h) eqn:Eh; cbn [bind];
    [|intros H; injection H as <-; exact (time_field_raises _ _ _ Eh)].
  destruct (time_field 59 m) eqn:Em; cbn [bind];
    [|intros H; injection H as <-; exact (time_field_raises _ _ _ Em)].
  destruct (time_field 59 sec) eqn:Es; cbn [bind];
    [discriminate
    |intros H; injection H as <-; exact (time_field_raises _ _ _ Es)].
Qed.

(** With the snips of the script, the mapper raises nothing but the
    [ValueError] of [strptime]. *)
Lemma mapper_CRUMBLES_raises (timestamp : pystr) (e : exn) :
  convert_message_timestamp_to_subtitle_time CRUMBLES_SNIPS timestamp = Raise e ->
  e = ValueError.
Proof.
  unfold convert_message_timestamp_to_subtitle_time, subtitle_datetime.
  destruct (strptime_HMS timestamp) as [t|e'] eqn:Et; cbn [bind];
    [|intros H; injection H as <-; exact (strptime_HMS_raises _ _ Et)].
  rewrite CRUMBLES_ABSOLUTES_eq. cbn [bind].
  destruct (flatten_snips_located CRUMBLES_ABSOLUTES (t - chat_offset))
    as (v & -> & _); [discriminate|].
  cbn [bind]. discriminate.
Qed.

Lemma record_text_colon (author quoted_text : pystr) :
  In colon (record_text author quoted_text).
Proof.
  unfold record_text.
  apply str_replace_keeps; [discriminate|vm_compute; intuition discriminate|].
  apply str_replace_keeps; [discriminate|vm_compute; intuition discriminate|].
  apply in_or_app. right. left. reflexivity.
Qed.

Lemma wrap_contents_nonempty (contents : list pystr) (text : pystr)
    (c : codepoint) :
  rejoined contents (munge_whitespace text) ->
  In c text -> is_space c = false -> contents <> [].
Proof.
  intros Hre Hin Hc ->.
  pose proof (rejoined_filter _ _ Hre) as E.
  rewrite munge_whitespace_filter in E. simpl in E.
  assert (H : In c (filter not_space text))
    by (apply filter_In; split; [exact Hin|unfold not_space; rewrite Hc; reflexivity]).
  rewrite <- E in H. destruct H.
Qed.

(** The lines of a record, before they are made messages. *)
Lemma record_lines (U : unicode_table) (author quoted_text : pystr) :
  exists c0 cs,
    textwrap_wrap U (record_text author quoted_text)
      (Z.of_nat MAX_LINE_LENGTH) insane_hack_indent insane_hack_len
    = Ok (c0 :: map (app insane_hack_indent) cs)
    /\ rejoined (c0 :: cs) (munge_whitespace (record_text author quoted_text))
    /\ fits (Z.of_nat MAX_LINE_LENGTH) insane_hack_len (c0 :: cs)
    /\ nonempty_chunks (c0 :: cs).
Proof.
  destruct (textwrap_wrap_spec U (record_text author quoted_text)
              (Z.of_nat MAX_LINE_LENGTH) insane_hack_indent insane_hack_len)
    as (contents & Hwrap & Hre & Hfit & Hne);
    [unfold insane_hack_len, MAX_LINE_LENGTH; simpl; lia|].
  assert (Hc : contents <> []).
  { eapply wrap_contents_nonempty;
      [exact Hre|apply record_text_colon|reflexivity]. }
  destruct contents as [|c0 cs]; [congruence|].
  exists c0, cs. auto.
Qed.

(** [get_messages_from_line] on a line of six fields, with the lines of
    the record. *)
Lemma get_messages_from_line_fields (U : unicode_table) (line : pystr)
    (author_field timestamp quoted_text attachment reactions unused : pystr) :
  split_char semicolon line
  = [author_field; timestamp; quoted_text; attachment; reactions; unused] ->
  get_messages_from_line U line
  = (sent <- convert_message_timestamp_to_subtitle_time CRUMBLES_SNIPS
               (slice_inner timestamp) ;;
     author <- record_author author_field ;;
     contents <- textwrap_wrap U (record_text author quoted_text)
                   (Z.of_nat MAX_LINE_LENGTH) insane_hack_indent
                   insane_hack_len ;;
     color <- dict_getitem NAME_COLORS author ;;
     match contents with
     | [] => Raise IndexError
     | line0 :: lines =>
         Ok (first_message sent author color line0
               :: map (later_message sent) lines)
     end).
Proof.
  intros Hsplit.
  unfold get_messages_from_line. rewrite Hsplit.
  destruct (convert_message_timestamp_to_subtitle_time CRUMBLES_SNIPS
              (slice_inner timestamp)) as [sent|e]; cbn [bind]; [|reflexivity].
  unfold record_author.
  destruct (str_index (slice_inner author_field) hash) as [i|e]; cbn [bind];
    [|reflexivity].
  destruct (record_lines U
              match dict_get NAME_REPLACEMENTS
                      (firstn i (slice_inner author_field)) with
              | Some name => name
              | None => firstn i (slice_inner author_field)
              end quoted_text) as (c0 & cs & Hwrap & _).
  unfold record_text in Hwrap |- *. rewrite Hwrap. cbn [bind].
  cbn [map getitem nth_error bind tl].
  destruct (dict_getitem NAME_COLORS _) as [color|e]; reflexivity.
Qed.

(** What a line has given when [get_messages_from_line] returns. *)
Lemma get_messages_from_line_inv (U : unicode_table) (line : pystr)
    (messages : list Message) :
  get_messages_from_line U line = Ok messages ->
  exists author_field timestamp quoted_text attachment reactions unused
         sent author color c0 cs,
    split_char semicolon line
    = [author_field; timestamp; quoted_text; attachment; reactions; unused]
    /\ convert_message_timestamp_to_subtitle_time CRUMBLES_SNIPS
         (slice_inner timestamp) = Ok sent
    /\ record_author author_field = Ok author
    /\ dict_get NAME_COLORS author = Some color
    /\ rejoined (c0 :: cs) (munge_whitespace (record_text author quoted_text))
    /\ fits (Z.of_nat MAX_LINE_LENGTH) insane_hack_len (c0 :: cs)
    /\ nonempty_chunks (c0 :: cs)
    /\ messages
       = first_message sent author color c0
           :: map (later_message sent) (map (app insane_hack_indent) cs).
Proof.
  intros H.
  destruct (split_char semicolon line)
    as [|f1 [|f2 [|f3 [|f4 [|f5 [|f6 [|f7 l]]]]]]] eqn:Hsplit;
    try (unfold get_messages_from_line in H; rewrite Hsplit in H;
         discriminate).
  rewrite (get_messages_from_line_fields U line f1 f2 f3 f4 f5 f6 Hsplit) in H.
  destruct (convert_message_timestamp_to_subtitle_time CRUMBLES_SNIPS
              (slice_inner f2)) as [sent|e] eqn:Hsent; cbn [bind] in H;
    [|discriminate].
  destruct (record_author f1) as [author|e] eqn:Hauthor; cbn [bind] in H;
    [|discriminate].
  destruct (record_lines U author f3) as (c0 & cs & Hwrap & Hre & Hfit & Hne).
  rewrite Hwrap in H. cbn [bind] in H. unfold dict_getitem in H.
  destruct (dict_get NAME_COLORS author) as [color|] eqn:Hcolor;
    cbn [bind] in H; [|discriminate].
  injection H as <-.
  exists f1, f2, f3, f4, f5, f6, sent, author, color, c0, cs.
  repeat (split; [first [reflexivity|assumption]|]). reflexivity.
Qed.

(** What [get_messages_from_line] raises: [ValueError] for a line of
    other than six fields, for a timestamp that the mapper cannot read and
    for an author field with no [#]; [KeyError] for an author that
    [NAME_COLORS] does not have; and nothing else, the [messages[0]] never
    fails.  Otherwise it returns, with at least one message, and every
    message has the time that the mapper gives for the timestamp. *)
Theorem get_messages_from_line_outcome (U : unicode_table) (line : pystr) :
  match split_char semicolon line with
  | [author_field; timestamp; quoted_text; _; _; _] =>
      match convert_message_timestamp_to_subtitle_time CRUMBLES_SNIPS
              (slice_inner timestamp) with
      | Raise e => get_messages_from_line U line = Raise ValueError
      | Ok sent =>
          match record_author author_field with
          | Raise e => get_messages_from_line U line = Raise ValueError
          | Ok author =>
              match dict_get NAME_COLORS author with
              | None => get_messages_from_line U line = Raise KeyError
              | Some color =>
                  exists first rest,
                    get_messages_from_line U line = Ok (first :: rest)
                    /\ Forall (fun m => sent_time m = sent) (first :: rest)
              end
          end
      end
  | _ => get_messages_from_line U line = Raise ValueError
  end.
Proof.
  destruct (split_char semicolon line)
    as [|f1 [|f2 [|f3 [|f4 [|f5 [|f6 [|f7 l]]]]]]] eqn:Hsplit;
    try (unfold get_messages_from_line; rewrite Hsplit; reflexivity).
  rewrite (get_messages_from_line_fields U line f1 f2 f3 f4 f5 f6 Hsplit).
  destruct (convert_message_timestamp_to_subtitle_time CRUMBLES_SNIPS
              (slice_inner f2)) as [sent|e] eqn:Hsent; cbn [bind];
    [|f_equal; exact (mapper_CRUMBLES_raises _ _ Hsent)].
  destruct (record_author f1) as [author|e] eqn:Hauthor; cbn [bind];
    [|f_equal; exact (record_author_raises _ _ Hauthor)].
  destruct (record_lines U author f3) as (c0 & cs & -> & _). cbn [bind].
  unfold dict_getitem.
  destruct (dict_get NAME_COLORS author) as [color|]; cbn [bind];
    [|reflexivity].
  eexists. eexists. split; [reflexivity|].
  constructor; [reflexivity|].
  apply Forall_map. apply Forall_forall. intros; reflexivity.
Qed.

(** ** The texts of the messages *)

Lemma replace_from_length (old new : pystr) (skip : nat) (s : pystr) :
  (length new <= 1)%nat ->
  (length (replace_from old new skip s) <= length s)%nat.
Proof.
  intros Hnew. revert skip; induction s as [|c s IH]; intros skip;
    cbn [replace_from length]; [lia|].
  destruct skip as [|k]; [|specialize (IH k); lia].
  destruct (starts_with old (c :: s)).
  - rewrite length_app. specialize (IH (length old - 1)%nat). lia.
  - cbn [length]. specialize (IH 0%nat). lia.
Qed.

Lemma replace_from_prefix (a : codepoint) (old new p s : pystr) :
  ~ In a p ->
  replace_from (a :: old) new 0 (p ++ s)
  = p ++ replace_from (a :: old) new 0 s.
Proof.
  induction p as [|x p IH]; intros Ha; [reflexivity|].
  cbn [app replace_from starts_with].
  assert (E : char_eqb a x = false).
  { unfold char_eqb. apply N.eqb_neq. intros ->. apply Ha. left. reflexivity. }
  rewrite E. cbn [andb]. rewrite IH; [reflexivity|].
  intros H. apply Ha. right. exact H.
Qed.

Lemma replace_from_nonempty (old new s : pystr) :
  s <> [] -> new <> [] -> replace_from old new 0 s <> [].
Proof.
  destruct s as [|c s]; [congruence|]. intros _ Hnew. cbn [replace_from].
  destruct (starts_with old (c :: s)); [|discriminate].
  destruct new; [congruence|discriminate].
Qed.

(** The text of a line after the first: the indent stays in front. *)
Lemma later_message_text (sent c : pystr) :
  text (later_message sent (insane_hack_indent ++ c))
  = insane_hack_indent ++ str_replace c (lit "]]") clap.
Proof.
  unfold later_message. cbn [text]. unfold str_replace.
  change (lit "]]") with (93%N :: [93%N]).
  apply replace_from_prefix. vm_compute. intuition discriminate.
Qed.

(** The lines after the first of a record: each is the marker [\h\h]
    followed by at least one and at most [MAX_LINE_LENGTH - 2] characters,
    and has the time of the first line. *)
Theorem later_messages_shape (U : unicode_table) (line : pystr)
    (first : Message) (rest : list Message) :
  get_messages_from_line U line = Ok (first :: rest) ->
  Forall (fun m =>
            sent_time m = sent_time first
            /\ exists body,
                 text m = lit "\h\h" ++ body
                 /\ (1 <= length body <= MAX_LINE_LENGTH - 2)%nat)
         rest.
Proof.
  intros H.
  destruct (get_messages_from_line_inv U line _ H)
    as (f1 & f2 & f3 & f4 & f5 & f6 & sent & author & color & c0 & cs
        & _ & _ & _ & _ & _ & Hfit & Hne & E).
  injection E as -> ->.
  destruct Hfit as [_ Hfit]. inversion Hne as [|x l _ Hne']. subst x l.
  clear Hne. rewrite map_map. apply Forall_map.
  rewrite Forall_forall in Hfit, Hne' |- *. intros c Hc.
  split; [reflexivity|].
  exists (str_replace c (lit "]]") clap).
  split; [apply later_message_text|].
  specialize (Hfit c Hc). specialize (Hne' c Hc).
  unfold str_replace. cbn [lit].
  pose proof (replace_from_length (lit "]]") clap 0 c) as Hlen.
  pose proof (replace_from_nonempty (lit "]]") clap c Hne') as Hnon.
  unfold insane_hack_len, MAX_LINE_LENGTH in *.
  assert (Hl : (length (replace_from (lit "]]") clap 0 c) <= length c)%nat)
    by (apply Hlen; simpl; lia).
  assert (Hn : replace_from (lit "]]") clap 0 c <> [])
    by (apply Hnon; discriminate).
  change (lit "]]") with (93%N :: [93%N]) in *.
  destruct (replace_from (93%N :: [93%N]) clap 0 c); [congruence|].
  cbn [length] in *. lia.
Qed.

(** A record of two lines, with a clap. *)
Definition example_long_line : pystr :=
  [quote] ++ lit "tmh#1234" ++ [quote; semicolon; quote] ++ lit "04:08:20"
  ++ [quote; semicolon; quote]
  ++ lit "well-known words, wrapped at the width of the " ++ clap
  ++ lit " screen"
  ++ [quote; semicolon; quote]
  ++ [quote; semicolon; quote] ++ [quote; semicolon].

Lemma later_messages_shape_witness :
  Forall (fun m =>
            sent_time m
            = sent_time
                (mkMessage (lit "00:04:28.00")
                   (lit "{\c&Hb65271&}tmh: {\c&HFFFFFF&}well-known words, wrapped at the"))
            /\ exists body,
                 text m = lit "\h\h" ++ body
                 /\ (1 <= length body <= MAX_LINE_LENGTH - 2)%nat)
         [mkMessage (lit "00:04:28.00")
            (lit "\h\hwidth of the " ++ clap ++ lit " screen")].
Proof.
  apply (later_messages_shape ascii_table example_long_line).
  vm_compute. reflexivity.
Defined.

(** The texts of the messages of a record are the lines of its text: the
    text [author: text], its doubled quotes made single, its claps written
    as [\]\]] and its white space made spaces, is cut into lines with
    nothing but white space dropped between them; the first line has at
    most [MAX_LINE_LENGTH] characters; on every line the [\]\]] that are
    whole are made claps again, the lines after the first get the marker
    in front, and on the first line [author: ] is replaced by the same with
    the colour of the author before and the reset to white after. *)
Theorem message_texts (U : unicode_table)
    (line f1 f2 f3 f4 f5 f6 author : pystr) (messages : list Message) :
  split_char semicolon line = [f1; f2; f3; f4; f5; f6] ->
  record_author f1 = Ok author ->
  get_messages_from_line U line = Ok messages ->
  exists color c0 cs,
    dict_get NAME_COLORS author = Some color
    /\ rejoined (c0 :: cs) (munge_whitespace (record_text author f3))
    /\ (length c0 <= MAX_LINE_LENGTH)%nat
    /\ map text messages
       = str_replace (str_replace c0 (lit "]]") clap) (author ++ lit ": ")
           (color ++ author ++ lit ": " ++ text_white_reset)
         :: map (fun c => insane_hack_indent ++ str_replace c (lit "]]") clap)
              cs.
Proof.
  intros Hsplit Hauthor H.
  destruct (get_messages_from_line_inv U line _ H)
    as (g1 & g2 & g3 & g4 & g5 & g6 & sent & author' & color & c0 & cs
        & Hsplit' & _ & Hauthor' & Hcolor & Hre & Hfit & _ & ->).
  rewrite Hsplit in Hsplit'. injection Hsplit' as <- <- <- <- <- <-.
  rewrite Hauthor in Hauthor'. injection Hauthor' as <-.
  exists color, c0, cs.
  split; [exact Hcolor|]. split; [exact Hre|].
  split; [destruct Hfit as [Hfit _]; lia|].
  cbn [map first_message text]. f_equal.
  rewrite !map_map. apply map_ext. intros c. apply later_message_text.
Qed.

Lemma message_texts_witness :
  exists color c0 cs,
    dict_get NAME_COLORS (lit "tmh") = Some color
    /\ rejoined (c0 :: cs)
         (munge_whitespace
            (record_text (lit "tmh")
               ([quote]
                ++ lit "well-known words, wrapped at the width of the "
                ++ clap ++ lit " screen" ++ [quote])))
    /\ (length c0 <= MAX_LINE_LENGTH)%nat
    /\ map text
         [mkMessage (lit "00:04:28.00")
            (lit "{\c&Hb65271&}tmh: {\c&HFFFFFF&}well-known words, wrapped at the");
          mkMessage (lit "00:04:28.00")
            (lit "\h\hwidth of the " ++ clap ++ lit " screen")]
       = str_replace (str_replace c0 (lit "]]") clap) (lit "tmh" ++ lit ": ")
           (color ++ lit "tmh" ++ lit ": " ++ text_white_reset)
         :: map (fun c => insane_hack_indent ++ str_replace c (lit "]]") clap)
              cs.
Proof.
  apply (message_texts ascii_table example_long_line
           ([quote] ++ lit "tmh#1234" ++ [quote])
           ([quote] ++ lit "04:08:20" ++ [quote])
           ([quote]
            ++ lit "well-known words, wrapped at the width of the "
            ++ clap ++ lit " screen" ++ [quote])
           [quote; quote] [quote; quote] []);
    vm_compute; reflexivity.
Defined.

(** * The script *)

(** ** The records of the file *)

(** The test of [get_messages_in_file]: the third field of the line is not
    [quote quote], the text of a record with a picture only. *)
Definition has_text (line : pystr) : bool :=
  match nth_error (split_char semicolon line) 2 with
  | Some quoted_text => negb (str_eqb quoted_text [quote; quote])
  | None => true
  end.

Definition six_fields (line : pystr) : Prop :=
  length (split_char semicolon line) = 6%nat.

Lemma messages_of_lines_returns (U : unicode_table) (lines : list pystr)
    (total_messages : list (list Message)) :
  messages_of_lines U lines = Ok total_messages
  <-> Forall six_fields lines
      /\ Forall2 (fun line messages => get_messages_from_line U line = Ok messages)
           (filter has_text lines) total_messages.
Proof.
  revert total_messages; induction lines as [|line rest IH]; intros total.
  - cbn [messages_of_lines filter]. split.
    + intros H; injection H as <-. split; constructor.
    + intros [_ H]. inversion H. reflexivity.
  - cbn [messages_of_lines filter]. unfold has_text.
    destruct (split_char semicolon line)
      as [|f1 [|f2 [|f3 [|f4 [|f5 [|f6 [|f7 l]]]]]]] eqn:Hs;
      try (split; [discriminate|];
           intros [H _]; inversion H as [|x xs Hsix _]; subst;
           unfold six_fields in Hsix; rewrite Hs in Hsix; discriminate).
    assert (Hsix : six_fields line) by (unfold six_fields; rewrite Hs; reflexivity).
    cbn [nth_error]. destruct (str_eqb f3 [quote; quote]); cbn [negb].
    + rewrite IH. split; intros [H1 H2]; split; auto.
      inversion H1; assumption.
    + destruct (get_messages_from_line U line) as [g|e] eqn:Hg; cbn [bind].
      * destruct (messages_of_lines U rest) as [t|e] eqn:Ht; cbn [bind].
        -- destruct (proj1 (IH t) eq_refl) as [H1 H2]. split.
           ++ intros H; injection H as <-. split; constructor; auto.
           ++ intros [_ H]. inversion H as [|x g' xs t' Hg' Ht']; subst.
              pose proof (proj2 (IH t')) as Hr.
              assert (E : Ok t = Ok t').
              { apply Hr. split; assumption. }
              congruence.
        -- split; [discriminate|]. intros [H1 H]. exfalso.
           inversion H as [|x g' xs t' Hg' Ht']; subst.
           inversion H1 as [|x xs _ H1']; subst.
           pose proof (proj2 (IH t') (conj H1' Ht')). discriminate.
      * split; [discriminate|]. intros [_ H].
        inversion H as [|x g' xs t' Hg' Ht']; subst. congruence.
Qed.

(** [get_messages_in_file] returns exactly when the transcript is there,
    every line after its first has six fields, and
    [get_messages_from_line] returns for every such line whose third field
    is not [quote quote]; it returns what these lines give, in order.  The
    lines whose third field is [quote quote] are passed over without being
    read further: their timestamp and their author raise nothing. *)
Theorem get_messages_in_file_returns (U : unicode_table) (w : world)
    (total_messages : list (list Message)) :
  get_messages_in_file U w = Ok total_messages
  <-> exists content,
        read_text w (lit "talkie_v2.csv") = Ok content
        /\ Forall six_fields (skipn 1 (split_char newline content))
        /\ Forall2 (fun line messages =>
                      get_messages_from_line U line = Ok messages)
             (filter has_text (skipn 1 (split_char newline content)))
             total_messages.
Proof.
  unfold get_messages_in_file, get_lines_in_file.
  destruct (read_text w (lit "talkie_v2.csv")) as [content|e]; cbn [bind].
  - rewrite messages_of_lines_returns. split.
    + intros H. exists content. split; [reflexivity|exact H].
    + intros (content' & E & H). injection E as <-. exact H.
  - split; [discriminate|]. intros (content' & E & _). discriminate.
Qed.

(** ** Lines that stop the script *)

Lemma split_char_snoc_sep (sep : codepoint) (s : pystr) :
  split_char sep (s ++ [sep]) = split_char sep s ++ [[]].
Proof.
  induction s as [|c s IH]; cbn [app split_char].
  - unfold char_eqb. rewrite N.eqb_refl. reflexivity.
  - rewrite IH. destruct (char_eqb c sep); [reflexivity|].
    pose proof (split_char_nonempty sep s) as Hne.
    destruct (split_char sep s) as [|x xs]; [congruence|reflexivity].
Qed.

Lemma main_raises (U : unicode_table) (w : world) (e : exn) :
  get_messages_in_file U w = Raise e -> main U w = (Raise e, w).
Proof.
  intros H. unfold main, get_output_lines. rewrite H. reflexivity.
Qed.

Lemma short_line_raises (U : unicode_table) (w : world) (content line : pystr) :
  read_text w (lit "talkie_v2.csv") = Ok content ->
  In line (skipn 1 (split_char newline content)) ->
  ~ six_fields line ->
  exists e, get_messages_in_file U w = Raise e.
Proof.
  intros Hread Hin Hshort.
  destruct (get_messages_in_file U w) as [total|e] eqn:H;
    [|exists e; reflexivity].
  exfalso. unfold get_messages_in_file, get_lines_in_file in H.
  rewrite Hread in H. cbn [bind] in H.
  apply messages_of_lines_returns in H. destruct H as [H _].
  rewrite Forall_forall in H. exact (Hshort (H line Hin)).
Qed.

(** A line after the first that has not six fields stops the script,
    wherever it stands and whatever the other lines are: [main] raises,
    and has written and printed nothing. *)
Theorem main_stops_on_short_line (U : unicode_table) (w : world)
    (content line : pystr) :
  read_text w (lit "talkie_v2.csv") = Ok content ->
  In line (skipn 1 (split_char newline content)) ->
  length (split_char semicolon line) <> 6%nat ->
  exists e, main U w = (Raise e, w).
Proof.
  intros Hread Hin Hshort.
  destruct (short_line_raises U w content line Hread Hin Hshort) as (e & H).
  exists e. apply main_raises. exact H.
Qed.

(** A transcript that ends with a newline stops the script: the [split]
    leaves an empty last line, which has one field. *)
Theorem main_stops_on_final_newline (U : unicode_table) (w : world)
    (content : pystr) :
  read_text w (lit "talkie_v2.csv") = Ok (content ++ [newline]) ->
  exists e, main U w = (Raise e, w).
Proof.
  intros Hread.
  destruct (short_line_raises U w (content ++ [newline]) [] Hread) as (e & H).
  - rewrite split_char_snoc_sep.
    pose proof (split_char_nonempty newline content) as Hne.
    destruct (split_char newline content) as [|x xs]; [congruence|].
    cbn [app skipn]. apply in_or_app. right. left. reflexivity.
  - unfold six_fields. simpl. discriminate.
  - exists e. apply main_raises. exact H.
Qed.

(** ** What [main] leaves *)

Lemma get_messages_from_line_raises (U : unicode_table) (line : pystr)
    (e : exn) :
  get_messages_from_line U line = Raise e -> e = ValueError \/ e = KeyError.
Proof.
  destruct (split_char semicolon line)
    as [|f1 [|f2 [|f3 [|f4 [|f5 [|f6 [|f7 l]]]]]]] eqn:Hsplit;
    try (unfold get_messages_from_line; rewrite Hsplit; intros H;
         injection H as <-; left; reflexivity).
  rewrite (get_messages_from_line_fields U line f1 f2 f3 f4 f5 f6 Hsplit).
  destruct (convert_message_timestamp_to_subtitle_time CRUMBLES_SNIPS
              (slice_inner f2)) as [sent|e'] eqn:Hsent; cbn [bind];
    [|intros H; injection H as <-; left;
      exact (mapper_CRUMBLES_raises _ _ Hsent)].
  destruct (record_author f1) as [author|e'] eqn:Hauthor; cbn [bind];
    [|intros H; injection H as <-; left;
      exact (record_author_raises _ _ Hauthor)].
  destruct (record_lines U author f3) as (c0 & cs & -> & _). cbn [bind].
  unfold dict_getitem.
  destruct (dict_get NAME_COLORS author) as [color|]; cbn [bind];
    [discriminate|].
  intros H; injection H as <-. right. reflexivity.
Qed.

Lemma messages_of_lines_raises (U : unicode_table) (lines : list pystr)
    (e : exn) :
  messages_of_lines U lines = Raise e -> e = ValueError \/ e = KeyError.
Proof.
  induction lines as [|line rest IH]; cbn [messages_of_lines]; [discriminate|].
  destruct (split_char semicolon line)
    as [|f1 [|f2 [|f3 [|f4 [|f5 [|f6 [|f7 l]]]]]]];
    try (intros H; injection H as <-; left; reflexivity).
  destruct (str_eqb f3 [quote; quote]); [exact IH|].
  destruct (get_messages_from_line U line) as [g|e'] eqn:Hg; cbn [bind];
    [|intros H; injection H as <-;
      exact (get_messages_from_line_raises U line _ Hg)].
  destruct (messages_of_lines U rest) as [t|e']; cbn [bind];
    [discriminate|].
  intros H; injection H as <-. apply IH. reflexivity.
Qed.

Lemma str_eqb_refl (a : pystr) : str_eqb a a = true.
Proof. apply str_eqb_eq. reflexivity. Qed.

Lemma str_eqb_neq (a b : pystr) : a <> b -> str_eqb a b = false.
Proof.
  intros H. destruct (str_eqb a b) eqn:E; [|reflexivity].
  apply str_eqb_eq in E. congruence.
Qed.

Lemma read_text_opened (w : world) (name out : pystr) :
  name <> out -> read_text (open_for_writing w out) name = read_text w name.
Proof.
  intros Hname. unfold read_text, open_for_writing. cbn [files dict_get].
  rewrite str_eqb_neq; [reflexivity|congruence].
Qed.

(** What [main] does.  If [get_messages_in_file] raises, [main] raises
    the same and has written and printed nothing; this is a
    [FileNotFoundError], a [ValueError] or a [KeyError].  Otherwise the
    lines of the output are made without fail; the output file is opened,
    and emptied, before the base file is read, so that without a base file
    [main] raises [FileNotFoundError] and leaves an empty output file; with
    a base file, [main] returns, the output file holds the base file
    followed at once by the lines with a newline between them, [done] is
    printed, and no other file has changed. *)
Theorem main_outcome (U : unicode_table) (w : world) :
  match get_messages_in_file U w with
  | Raise e =>
      main U w = (Raise e, w)
      /\ (e = FileNotFoundError \/ e = ValueError \/ e = KeyError)
  | Ok total_messages =>
      exists lines,
        get_output_lines_of total_messages = Ok lines
        /\ match read_text w (lit "subtitles_base.ass") with
           | Raise _ =>
               exists w',
                 main U w = (Raise FileNotFoundError, w')
                 /\ read_text w' (lit "subtitles_out.ass") = Ok []
                 /\ printed w' = printed w
                 /\ forall name,
                      name <> lit "subtitles_out.ass" ->
                      read_text w' name = read_text w name
           | Ok base_text =>
               exists w',
                 main U w = (Ok tt, w')
                 /\ read_text w' (lit "subtitles_out.ass")
                    = Ok (base_text ++ join [newline] lines)
                 /\ printed w' = printed w ++ [lit "done"]
                 /\ forall name,
                      name <> lit "subtitles_out.ass" ->
                      read_text w' name = read_text w name
           end
  end.
Proof.
  destruct (get_messages_in_file U w) as [total|e] eqn:Hget.
  2: { split; [apply main_raises; exact Hget|].
       unfold get_messages_in_file, get_lines_in_file in Hget.
       unfold read_text in Hget.
       destruct (dict_get (files w) (lit "talkie_v2.csv")); cbn [bind] in Hget.
       - right. exact (messages_of_lines_raises U _ _ Hget).
       - left. congruence. }
  destruct (get_output_lines_of_ok total) as (lines & Hlines).
  exists lines. split; [exact Hlines|].
  unfold main, get_output_lines. rewrite Hget. cbn [bind]. rewrite Hlines.
  rewrite (read_text_opened w (lit "subtitles_base.ass")
             (lit "subtitles_out.ass")) by discriminate.
  destruct (read_text w (lit "subtitles_base.ass")) as [base_text|e] eqn:Hbase.
  2: { assert (e = FileNotFoundError) as ->.
       { unfold read_text in Hbase.
         destruct (dict_get (files w) (lit "subtitles_base.ass"));
           congruence. }
       eexists. split; [reflexivity|].
       unfold open_for_writing, read_text. cbn [files printed dict_get].
       rewrite str_eqb_refl. split; [reflexivity|]. split; [reflexivity|].
       intros name Hname. rewrite str_eqb_neq by congruence. reflexivity. }
  eexists. split; [reflexivity|].
  unfold write_to, open_for_writing, print, read_text. cbn [files printed].
  cbn [dict_get]. rewrite !str_eqb_refl. cbn [files printed dict_get].
  rewrite !str_eqb_refl. cbn [files printed dict_get].
  rewrite !str_eqb_refl.
  split; [reflexivity|]. split; [reflexivity|].
  intros name Hname. rewrite !str_eqb_neq by congruence. reflexivity.
Qed.

(** ** Witnesses of the lines that stop the script *)

(** A transcript of a header and one record, with and without a newline
    at its end, and one whose record is cut short. *)
Definition example_world (content : pystr) : world :=
  mkWorld [(lit "talkie_v2.csv", content);
           (lit "subtitles_base.ass", lit "[Events]" ++ [newline])] [].

Lemma main_stops_on_short_line_witness :
  exists e,
    main ascii_table (example_world (lit "header" ++ [newline] ++ lit "a;b;c"))
    = (Raise e, example_world (lit "header" ++ [newline] ++ lit "a;b;c")).
Proof.
  apply (main_stops_on_short_line ascii_table
           (example_world (lit "header" ++ [newline] ++ lit "a;b;c"))
           (lit "header" ++ [newline] ++ lit "a;b;c") (lit "a;b;c")).
  - reflexivity.
  - vm_compute. left. reflexivity.
  - vm_compute. discriminate.
Defined.

Lemma main_stops_on_final_newline_witness :
  exists e,
    main ascii_table
      (example_world (lit "header" ++ [newline] ++ example_line ++ [newline]))
    = (Raise e,
       example_world (lit "header" ++ [newline] ++ example_line ++ [newline])).
Proof.
  apply (main_stops_on_final_newline ascii_table
           (example_world
              (lit "header" ++ [newline] ++ example_line ++ [newline]))
           (lit "header" ++ [newline] ++ example_line)).
  vm_compute. reflexivity.
Defined.

(** Without the newline at its end, the same transcript is written out. *)
Example main_example :
  exists w',
    main ascii_table (example_world (lit "header" ++ [newline] ++ example_line))
    = (Ok tt, w')
    /\ printed w' = [lit "done"]
    /\ option_map (firstn 78) (dict_get (files w') (lit "subtitles_out.ass"))
       = Some (lit "[Events]" ++ [newline]
               ++ lit "Dialogue: 0,0:00:00.00,00:04:28.00,Chat Replay,,0,0,0,,{\pos(170,15)}").
Proof.
  exists (snd (main ascii_table
                 (example_world (lit "header" ++ [newline] ++ example_line)))).
  vm_compute. repeat split.
Qed.

(** ** Every record is shown when it was sent *)

Lemma slide_window_last (rest : list (list Message)) (result : list Message)
    (i : nat) (elem : list Message) :
  nth_error rest i = Some elem -> elem <> [] ->
  exists w,
    nth_error (slide_window rest result) i = Some w
    /\ getitem_last (snd w) = getitem_last elem.
Proof.
  revert result i; induction rest as [|g rest IH]; intros result i Hi Hne;
    [destruct i; discriminate|].
  destruct i as [|i]; cbn [slide_window nth_error] in *.
  - injection Hi as ->. eexists. split; [reflexivity|]. cbn [snd].
    rewrite getitem_last_app. destruct elem; [congruence|reflexivity].
  - apply IH; assumption.
Qed.

Lemma getitem_last_In {A} (l : list A) (x : A) :
  getitem_last l = Ok x -> In x l.
Proof.
  intros H. apply getitem_last_nth in H. eapply nth_error_In. exact H.
Qed.

Lemma Forall2_nth_error {A B} (P : A -> B -> Prop) (l : list A) (l' : list B)
    (i : nat) (a : A) :
  Forall2 P l l' -> nth_error l i = Some a ->
  exists b, nth_error l' i = Some b /\ P a b.
Proof.
  intros H; revert i; induction H as [|x y l l' Hxy H IH]; intros i Hi;
    [destruct i; discriminate|].
  destruct i as [|i]; cbn [nth_error] in *.
  - injection Hi as ->. exists y. auto.
  - apply IH. exact Hi.
Qed.

(** From the file to the screen: when the transcript is read, there is one
    window for the padding and one for each line that has a text, in the
    order of the file, and the cues of the window of a line begin at the
    time that the mapper gives for the timestamp of that line, its second
    field without its first and last character. *)
Theorem windows_begin_when_sent (U : unicode_table) (w : world)
    (total_messages : list (list Message)) :
  get_messages_in_file U w = Ok total_messages ->
  exists content windows,
    read_text w (lit "talkie_v2.csv") = Ok content
    /\ flat_window (padding ++ total_messages) LINES_ON_SCREEN = Ok windows
    /\ length windows
       = S (length (filter has_text (skipn 1 (split_char newline content))))
    /\ forall i line,
         nth_error (filter has_text (skipn 1 (split_char newline content))) i
         = Some line ->
         exists timestamp window,
           nth_error (split_char semicolon line) 1 = Some timestamp
           /\ nth_error windows (S i) = Some window
           /\ window_begin window
              = convert_message_timestamp_to_subtitle_time CRUMBLES_SNIPS
                  (slice_inner timestamp).
Proof.
  intros H. unfold get_messages_in_file, get_lines_in_file in H.
  destruct (read_text w (lit "talkie_v2.csv")) as [content|e] eqn:Hread;
    cbn [bind] in H; [|discriminate].
  apply messages_of_lines_returns in H. destruct H as [_ Hall].
  exists content. eexists. split; [reflexivity|].
  split; [apply padded_windows|]. split.
  - cbn [length]. rewrite slide_window_length.
    rewrite (Forall2_length Hall). reflexivity.
  - intros i line Hi.
    destruct (Forall2_nth_error _ _ _ _ _ Hall Hi) as (group & Hg & Hline).
    destruct (get_messages_from_line_inv U line _ Hline)
      as (f1 & f2 & f3 & f4 & f5 & f6 & sent & author & color & c0 & cs
          & Hsplit & Hsent & _ & _ & _ & _ & _ & Hgroup).
    exists f2.
    destruct (slide_window_last total_messages (concat padding) i group Hg)
      as (window & Hw & Hlast); [rewrite Hgroup; discriminate|].
    exists window. split; [rewrite Hsplit; reflexivity|].
    split; [exact Hw|].
    unfold window_begin. rewrite Hlast, Hsent.
    destruct (getitem_last group) as [m|e] eqn:Hm;
      [|rewrite Hgroup in Hm; discriminate].
    cbn [bind]. f_equal. apply getitem_last_In in Hm. rewrite Hgroup in Hm.
    destruct Hm as [<-|Hm]; [reflexivity|].
    apply in_map_iff in Hm. destruct Hm as (l & <- & _). reflexivity.
Qed.

Lemma windows_begin_when_sent_witness :
  exists content windows,
    read_text (example_world (lit "header" ++ [newline] ++ example_line))
      (lit "talkie_v2.csv") = Ok content
    /\ flat_window
         (padding
          ++ [[mkMessage (lit "00:04:28.00")
                 (lit "{\c&Hb65271&}tmh: {\c&HFFFFFF&}hi there")]])
         LINES_ON_SCREEN = Ok windows
    /\ length windows
       = S (length (filter has_text (skipn 1 (split_char newline content))))
    /\ forall i line,
         nth_error (filter has_text (skipn 1 (split_char newline content))) i
         = Some line ->
         exists timestamp window,
           nth_error (split_char semicolon line) 1 = Some timestamp
           /\ nth_error windows (S i) = Some window
           /\ window_begin window
              = convert_message_timestamp_to_subtitle_time CRUMBLES_SNIPS
                  (slice_inner timestamp).
Proof.
  apply (windows_begin_when_sent ascii_table
           (example_world (lit "header" ++ [newline] ++ example_line))
           [[mkMessage (lit "00:04:28.00")
               (lit "{\c&Hb65271&}tmh: {\c&HFFFFFF&}hi there")]]).
  vm_compute. reflexivity.
Defined.

(** ** The sentinel is never shown *)

Definition bracket : codepoint := 93%N.

(** No two [\]] in a row. *)
Fixpoint no_pair (s : pystr) : bool :=
  match s with
  | [] => true
  | x :: s' =>
      match s' with
      | [] => true
      | y :: _ => negb (char_eqb x bracket && char_eqb y bracket) && no_pair s'
      end
  end.

Definition no_bracket (s : pystr) : bool :=
  forallb (fun c => negb (char_eqb c bracket)) s.

Definition head_bracket (s : pystr) : bool :=
  match s with
  | [] => false
  | x :: _ => char_eqb x bracket
  end.

Lemma no_pair_cons (x : codepoint) (s : pystr) :
  no_pair (x :: s)
  = negb (char_eqb x bracket && head_bracket s) && no_pair s.
Proof.
  destruct s as [|y s]; cbn [no_pair head_bracket];
    [rewrite andb_false_r|]; reflexivity.
Qed.

Lemma no_pair_app (new t : pystr) :
  new <> [] -> no_bracket new = true -> no_pair (new ++ t) = no_pair t.
Proof.
  induction new as [|x new IH]; intros Hne Hno; [congruence|].
  cbn [no_bracket forallb] in Hno. apply andb_true_iff in Hno.
  destruct Hno as [Hx Hno]. apply negb_true_iff in Hx.
  cbn [app]. rewrite no_pair_cons, Hx. cbn [andb negb].
  destruct new as [|y new]; [reflexivity|]. apply IH; [discriminate|exact Hno].
Qed.

Lemma head_bracket_app (new t : pystr) :
  new <> [] -> no_bracket new = true -> head_bracket (new ++ t) = false.
Proof.
  destruct new as [|x new]; [congruence|]. intros _ Hno.
  cbn [no_bracket forallb] in Hno. apply andb_true_iff in Hno.
  destruct Hno as [Hx _]. apply negb_true_iff in Hx. exact Hx.
Qed.

(** Brackets that were not in a row are not put in a row by a [replace]
    that writes no bracket. *)
Lemma replace_from_no_pair (old new : pystr) (skip : nat) (s : pystr) :
  new <> [] -> no_bracket new = true -> no_pair s = true ->
  no_pair (replace_from old new skip s) = true.
Proof.
  intros Hne Hno. revert skip; induction s as [|c s IH]; intros skip Hs;
    [reflexivity|].
  rewrite no_pair_cons in Hs. apply andb_true_iff in Hs.
  destruct Hs as [Hc Hs]. cbn [replace_from].
  destruct skip as [|k]; [|apply IH; exact Hs].
  destruct (starts_with old (c :: s)).
  - rewrite (no_pair_app _ _ Hne Hno). apply IH; exact Hs.
  - rewrite no_pair_cons, (IH 0%nat Hs), andb_true_r.
    destruct (char_eqb c bracket); [|reflexivity]. cbn [andb] in Hc |- *.
    apply negb_true_iff in Hc. apply negb_true_iff.
    destruct s as [|d s]; [reflexivity|]. cbn [head_bracket] in Hc.
    cbn [replace_from].
    destruct (starts_with old (d :: s));
      [apply head_bracket_app; assumption|exact Hc].
Qed.

(** After [replace] of two brackets by a clap no two brackets are left in
    a row. *)
Lemma replace_pairs_no_pair (skip : nat) (s : pystr) :
  no_pair (replace_from (lit "]]") clap skip s) = true.
Proof.
  revert skip; induction s as [|c s IH]; intros skip; [reflexivity|].
  cbn [replace_from]. destruct skip as [|k]; [|apply IH].
  destruct (starts_with (lit "]]") (c :: s)) eqn:Hst.
  - rewrite no_pair_app; [apply IH|discriminate|reflexivity].
  - rewrite no_pair_cons, IH, andb_true_r.
    destruct (char_eqb c bracket) eqn:Hc; [|reflexivity]. cbn [andb].
    apply negb_true_iff.
    destruct s as [|d s]; [reflexivity|].
    assert (Hd : char_eqb d bracket = false).
    { change (lit "]]") with [bracket; bracket] in Hst.
      cbn [starts_with] in Hst. unfold char_eqb in *.
      rewrite N.eqb_sym in Hc. rewrite Hc in Hst. cbn [andb] in Hst.
      rewrite andb_true_r in Hst. rewrite N.eqb_sym. exact Hst. }
    cbn [replace_from].
    destruct (starts_with (lit "]]") (d :: s));
      [reflexivity|exact Hd].
Qed.

Lemma dict_get_In (d : pydict) (key value : pystr) :
  dict_get d key = Some value -> In (key, value) d.
Proof.
  induction d as [|[k v] d IH]; cbn [dict_get]; [discriminate|].
  destruct (str_eqb k key) eqn:E.
  - intros H; injection H as ->. apply str_eqb_eq in E. subst k.
    left. reflexivity.
  - intros H. right. apply IH. exact H.
Qed.

Lemma NAME_COLORS_no_bracket :
  forallb (fun '(name, color) => no_bracket name && no_bracket color)
    NAME_COLORS = true.
Proof. vm_compute. reflexivity. Qed.

Lemma no_bracket_app (a b : pystr) :
  no_bracket (a ++ b) = no_bracket a && no_bracket b.
Proof. apply forallb_app. Qed.

(** No text of a message holds two [\]] in a row: the sentinel that
    stands for the clap while the text is wrapped is never shown, and
    neither are two brackets that the sender wrote. *)
Theorem sentinel_never_shown (U : unicode_table) (line : pystr)
    (messages : list Message) :
  get_messages_from_line U line = Ok messages ->
  Forall (fun m => no_pair (text m) = true) messages.
Proof.
  intros H.
  destruct (get_messages_from_line_inv U line _ H)
    as (f1 & f2 & f3 & f4 & f5 & f6 & sent & author & color & c0 & cs
        & _ & _ & _ & Hcolor & _ & _ & _ & ->).
  constructor.
  - unfold first_message. cbn [text]. unfold str_replace at 1.
    apply dict_get_In in Hcolor.
    pose proof NAME_COLORS_no_bracket as Hall.
    rewrite forallb_forall in Hall. specialize (Hall _ Hcolor). cbn in Hall.
    apply andb_true_iff in Hall. destruct Hall as [Ha Hcol].
    assert (Hnew : no_bracket (color ++ author ++ lit ": " ++ text_white_reset)
                   = true).
    { rewrite !no_bracket_app, Ha, Hcol. reflexivity. }
    assert (Hne : color ++ author ++ lit ": " ++ text_white_reset <> []).
    { destruct color; [destruct author|]; discriminate. }
    destruct (author ++ lit ": ") as [|a old] eqn:Hold;
      [destruct author; discriminate|].
    apply replace_from_no_pair; [exact Hne|exact Hnew|].
    apply replace_pairs_no_pair.
  - rewrite map_map. apply Forall_map. apply Forall_forall. intros c _.
    unfold later_message. cbn [text]. apply replace_pairs_no_pair.
Qed.

Lemma sentinel_never_shown_witness :
  Forall (fun m => no_pair (text m) = true)
    [mkMessage (lit "00:04:28.00")
       (lit "{\c&Hb65271&}tmh: {\c&HFFFFFF&}well-known words, wrapped at the");
     mkMessage (lit "00:04:28.00")
       (lit "\h\hwidth of the " ++ clap ++ lit " screen")].
Proof.
  apply (sentinel_never_shown ascii_table example_long_line).
  vm_compute. reflexivity.
Defined.

(** * The order of the printed times *)

(** ** The times that are read are times of one day *)

Lemma digit_value_nonneg (c : codepoint) (d : Z) :
  digit_value c = Some d -> 0 <= d.
Proof.
  unfold digit_value.
  destruct (N.leb 48 c && N.leb c 57)%bool eqn:E; [|discriminate].
  intros H; injection H as <-. apply andb_true_iff in E. destruct E as [E _].
  apply N.leb_le in E. lia.
Qed.

Lemma digits_value_nonneg (s : pystr) (acc v : Z) :
  digits_value acc s = Some v -> 0 <= acc -> 0 <= v.
Proof.
  revert acc; induction s as [|c s IH]; intros acc; cbn [digits_value].
  - intros H; injection H as <-. trivial.
  - destruct (digit_value c) as [d|] eqn:Ed; [|discriminate].
    pose proof (digit_value_nonneg _ _ Ed) as Hd.
    intros H Hacc. apply (IH _ H). lia.
Qed.

Lemma time_field_bounds (bound : Z) (s : pystr) (v : Z) :
  time_field bound s = Ok v -> 0 <= v <= bound.
Proof.
  unfold time_field.
  destruct s as [|a [|b [|c s]]]; try discriminate;
    (destruct (digits_value 0 _) as [v'|] eqn:Ev; [|discriminate]);
    (destruct (v' <=? bound) eqn:Eb; [|discriminate]);
    intros H; injection H as <-;
    pose proof (digits_value_nonneg _ _ _ Ev); lia.
Qed.

Lemma strptime_HMS_bounds (s : pystr) (t : datetime) :
  strptime_HMS s = Ok t -> 0 <= t < 86400 * usec.
Proof.
  unfold strptime_HMS.
  destruct (split_char colon s) as [|h [|m [|sec [|x l]]]]; try discriminate.
  destruct (time_field 23 h) as [h'|] eqn:Eh; cbn [bind]; [|discriminate].
  destruct (time_field 59 m) as [m'|] eqn:Em; cbn [bind]; [|discriminate].
  destruct (time_field 59 sec) as [s'|] eqn:Es; cbn [bind]; [|discriminate].
  apply time_field_bounds in Eh, Em, Es.
  intros H; injection H as <-. unfold timedelta_hms, usec. lia.
Qed.

Lemma fraction_field_nonneg (s : pystr) (v : Z) :
  fraction_field s = Ok v -> 0 <= v.
Proof.
  unfold fraction_field.
  destruct ((1 <=? length s) && (length s <=? 6))%nat; [|discriminate].
  destruct (digits_value 0 _) as [v'|] eqn:Ev; [|discriminate].
  intros H; injection H as <-.
  apply (digits_value_nonneg _ _ _ Ev). lia.
Qed.

Lemma convert_to_datetime_nonneg (s : pystr) (d : datetime) :
  convert_to_datetime s = Ok d -> 0 <= d.
Proof.
  unfold convert_to_datetime.
  destruct (split_char colon s) as [|h [|m [|sf [|x l]]]]; try discriminate.
  destruct (split_char dot sf) as [|sec [|f [|y l']]]; try discriminate.
  destruct (time_field 23 h) as [h'|] eqn:Eh; cbn [bind]; [|discriminate].
  destruct (time_field 59 m) as [m'|] eqn:Em; cbn [bind]; [|discriminate].
  destruct (time_field 59 sec) as [s'|] eqn:Es; cbn [bind]; [|discriminate].
  destruct (fraction_field f) as [f'|] eqn:Ef; cbn [bind]; [|discriminate].
  apply time_field_bounds in Eh, Em, Es. apply fraction_field_nonneg in Ef.
  intros H; injection H as <-. unfold timedelta_hms, usec. lia.
Qed.

(** ** What is taken off a time of the video *)

(** In a chain that starts at no removal and at a time of the day, every
    SnipState has a removal and a begin in the edited video that are not
    negative. *)
Lemma chain_nonneg (l : list SnipState) (s0 s : SnipState) (i : nat) :
  chain l -> nth_error l 0 = Some s0 -> to_snip s0 = 0 ->
  0 <= snip_begin s0 -> nth_error l i = Some s ->
  0 <= to_snip s /\ 0 <= edited_begin s /\ snip_begin s <= snip_end s.
Proof.
  intros Hc H0 Hz Hb Hi.
  destruct (chain_compare l 0 i s0 s Hc H0 Hi ltac:(lia))
    as (Hok0 & Hok & _ & _ & Hed & Hprec).
  destruct i as [|i].
  - rewrite H0 in Hi. injection Hi as <-. unfold edited_begin in *. lia.
  - destruct (Hprec ltac:(lia)) as (_ & _ & Hsnip).
    unfold edited_begin in *. lia.
Qed.

(** A time of the video that is not negative is moved back, and not
    before the begin of the video. *)
Lemma located_bounds (absolutes : list SnipState) (t v : datetime) :
  chain absolutes ->
  (forall s, nth_error absolutes 0 = Some s ->
             to_snip s = 0 /\ 0 <= snip_begin s) ->
  0 <= t -> located absolutes t v -> 0 <= v <= t.
Proof.
  intros Hc Hfirst Ht Hloc.
  assert (Hall : forall i s, nth_error absolutes i = Some s ->
            0 <= to_snip s /\ 0 <= edited_begin s
            /\ snip_begin s <= snip_end s).
  { intros i s Hi.
    destruct (nth_error absolutes 0) as [s0|] eqn:H0.
    - destruct (Hfirst s0 eq_refl) as [Hz Hb].
      exact (chain_nonneg _ _ _ _ Hc H0 Hz Hb Hi).
    - destruct absolutes; [destruct i; discriminate|discriminate]. }
  destruct Hloc as [s _ _ _ ->|i s Hi Hin _ ->
                   |s0 i s s' _ _ _ Hi Hi' Hg _ ->
                   |s0 s _ _ _ Hs Ha ->].
  - lia.
  - pose proof (Hall _ _ Hi). unfold holds_within, edited_begin in *. lia.
  - pose proof (Hall _ _ Hi). pose proof (Hall _ _ Hi').
    pose proof (chain_follows _ _ _ _ Hc Hi Hi') as Hf.
    unfold follows, edited_begin in *. lia.
  - pose proof (Hall _ _ Hs). unfold edited_begin in *. lia.
Qed.

Lemma parse_snips_head_nonneg (snips : list Snip) (b e : datetime)
    (rest : list (datetime * datetime)) :
  parse_snips snips = Ok ((b, e) :: rest) -> 0 <= b.
Proof.
  destruct snips as [|[sb se] snips']; cbn [parse_snips]; [discriminate|].
  destruct (convert_to_datetime sb) as [b'|] eqn:Eb; cbn [bind];
    [|discriminate].
  destruct (convert_to_datetime se) as [e'|]; cbn [bind]; [|discriminate].
  destruct (parse_snips snips') as [rest'|]; cbn [bind]; [|discriminate].
  intros H; injection H as <- _ _. exact (convert_to_datetime_nonneg _ _ Eb).
Qed.

(** A message sent no earlier than the video begins is mapped to a time
    of the first day, the day of the video. *)
Lemma subtitle_datetime_same_day (snips : list Snip)
    (ps : list (datetime * datetime)) (ts : pystr) (t : datetime) :
  parse_snips snips = Ok ps -> cuts_in_order ps -> ps <> [] ->
  strptime_HMS ts = Ok t -> chat_offset <= t ->
  exists m, subtitle_datetime snips ts = Ok m /\ 0 <= m < 86400 * usec.
Proof.
  intros Hps Hord Hne Hts Hoff.
  pose proof (strptime_HMS_bounds _ _ Hts) as Hday.
  unfold subtitle_datetime.
  rewrite Hts, (convert_crumbles_parsed _ _ Hps). cbn [bind].
  destruct ps as [|[b e] rest]; [congruence|].
  pose proof (parse_snips_head_nonneg _ _ _ _ Hps) as Hb.
  destruct (flatten_snips_located (absolutes_from ((b, e) :: rest) 0)
              (t - chat_offset)) as (v & E & Hloc); [discriminate|].
  exists v. split; [exact E|].
  assert (Hv : 0 <= v <= t - chat_offset).
  { apply (located_bounds (absolutes_from ((b, e) :: rest) 0)).
    - apply cuts_in_order_chain. exact Hord.
    - intros s Hs. cbn in Hs. injection Hs as <-. cbn. lia.
    - lia.
    - exact Hloc. }
  unfold chat_offset, timedelta_hms, usec in *. lia.
Qed.

(** ** The times that are printed, read again *)

(** [a <= b] for two times as they are printed, read with
    [convert_to_datetime], the reader of the script for such times. *)
Definition printed_time_leb (a b : pystr) : bool :=
  match convert_to_datetime a, convert_to_datetime b with
  | Ok d1, Ok d2 => d1 <=? d2
  | _, _ => false
  end.

Lemma strftime_HMS00_read (d : datetime) :
  convert_to_datetime (strftime_HMS00 d) = Ok (second_of_day d * usec).
Proof.
  destruct (second_of_day_fields d) as (Hh & Hm & Hs & Hsum).
  cbv zeta in *.
  unfold strftime_HMS00, strftime_HMS, convert_to_datetime.
  set (s := second_of_day d) in *.
  destruct (two_digits_spec (s / 3600)) as [_ Hch]; [lia|].
  destruct (two_digits_spec (s / 60 mod 60)) as [_ Hcm]; [lia|].
  destruct (two_digits_spec (s mod 60)) as [_ Hcs]; [lia|].
  assert (Nh : ~ In colon (two_digits (s / 3600)))
    by (intros Hin; apply Hch in Hin; unfold colon in Hin; tauto).
  assert (Nm : ~ In colon (two_digits (s / 60 mod 60)))
    by (intros Hin; apply Hcm in Hin; unfold colon in Hin; tauto).
  assert (Ns : ~ In colon (two_digits (s mod 60)))
    by (intros Hin; apply Hcs in Hin; unfold colon in Hin; tauto).
  assert (Nd : ~ In dot (two_digits (s mod 60)))
    by (intros Hin; apply Hcs in Hin; unfold dot in Hin; tauto).
  rewrite <- !app_assoc. cbn ["++"] .
  rewrite (split_char_app_sep colon _ _ Nh).
  rewrite (split_char_app_sep colon _ _ Nm).
  assert (E : split_char colon (two_digits (s mod 60) ++ lit ".00")
              = [two_digits (s mod 60) ++ lit ".00"]).
  { apply split_char_no_sep. intros Hin. apply in_app_or in Hin.
    destruct Hin as [Hin|Hin]; [exact (Ns Hin)|].
    vm_compute in Hin. intuition discriminate. }
  rewrite E.
  change (lit ".00") with (dot :: lit "00").
  rewrite (split_char_app_sep dot _ _ Nd).
  change (split_char dot (lit "00")) with [lit "00"].
  rewrite !time_field_two_digits by lia. cbn [bind].
  change (fraction_field (lit "00")) with (Ok 0). cbn [bind].
  rewrite Hsum. f_equal. lia.
Qed.

(** Two times of one day are printed in their order. *)
Lemma printed_in_order (m1 m2 : datetime) :
  0 <= m1 -> m1 <= m2 -> m2 < 86400 * usec ->
  second_of_day m1 <= second_of_day m2
  /\ printed_time_leb (strftime_HMS00 m1) (strftime_HMS00 m2) = true.
Proof.
  intros H0 Hle Hday.
  assert (Hs : forall m, 0 <= m < 86400 * usec -> second_of_day m = m / usec).
  { intros m Hm. unfold second_of_day. apply Z.mod_small.
    unfold usec in *. split; [apply Z.div_pos; lia|].
    apply Z.div_lt_upper_bound; lia. }
  assert (Hdiv : m1 / usec <= m2 / usec)
    by (apply Z.div_le_mono; [unfold usec|]; lia).
  rewrite (Hs m1), (Hs m2) by lia. split; [exact Hdiv|].
  unfold printed_time_leb. rewrite !strftime_HMS00_read.
  rewrite (Hs m1), (Hs m2) by lia.
  apply Z.leb_le. unfold usec in *. nia.
Qed.

(** ** The mapper keeps the order of the messages of the video *)

(** On snips cut in order, two messages sent in order and no earlier than
    the video begins get printed times in order. *)
Lemma mapper_in_order (snips : list Snip) (ps : list (datetime * datetime))
    (ts1 ts2 : pystr) (t1 t2 : datetime) :
  parse_snips snips = Ok ps -> cuts_in_order ps -> ps <> [] ->
  strptime_HMS ts1 = Ok t1 -> strptime_HMS ts2 = Ok t2 ->
  chat_offset <= t1 -> t1 <= t2 ->
  exists m1 m2,
    subtitle_datetime snips ts1 = Ok m1
    /\ subtitle_datetime snips ts2 = Ok m2
    /\ 0 <= m1 /\ m1 <= m2 /\ m2 < 86400 * usec
    /\ convert_message_timestamp_to_subtitle_time snips ts1
       = Ok (strftime_HMS00 m1)
    /\ convert_message_timestamp_to_subtitle_time snips ts2
       = Ok (strftime_HMS00 m2)
    /\ printed_time_leb (strftime_HMS00 m1) (strftime_HMS00 m2) = true.
Proof.
  intros Hps Hord Hne H1 H2 Hoff Hle.
  destruct (subtitle_datetime_monotone snips ps ts1 ts2 t1 t2
              Hps Hord Hne H1 H2 Hle) as (m1 & m2 & E1 & E2 & Hm).
  destruct (subtitle_datetime_same_day snips ps ts1 t1 Hps Hord Hne H1 Hoff)
    as (m1' & E1' & Hd1).
  destruct (subtitle_datetime_same_day snips ps ts2 t2 Hps Hord Hne H2
              ltac:(lia)) as (m2' & E2' & Hd2).
  rewrite E1 in E1'. injection E1' as <-.
  rewrite E2 in E2'. injection E2' as <-.
  exists m1, m2. unfold convert_message_timestamp_to_subtitle_time.
  rewrite E1, E2. cbn [bind].
  repeat (split; [first [reflexivity|assumption|lia]|]).
  apply printed_in_order; lia.
Qed.

(** C1, as the code has it.  For every snip list that is sorted and
    non-overlapping, and every two raw timestamps [t1 <= t2] that are no
    earlier than 04:03:52, the begin of the video: the mapper returns for
    both, the times it maps them to are times of the day of the video and
    in order, and so are the times it prints, read as times of the day.
    (On an empty snip list the mapper raises [IndexError] on every
    timestamp, so it produces no output at all.) *)
Theorem mapper_monotone (snips : list Snip) (ps : list (datetime * datetime))
    (ts1 ts2 : pystr) (t1 t2 : datetime) :
  parse_snips snips = Ok ps -> sorted_nonoverlapping ps ->
  strptime_HMS ts1 = Ok t1 -> strptime_HMS ts2 = Ok t2 ->
  chat_offset <= t1 -> t1 <= t2 ->
  (snips = []
   /\ convert_message_timestamp_to_subtitle_time snips ts1 = Raise IndexError
   /\ convert_message_timestamp_to_subtitle_time snips ts2 = Raise IndexError)
  \/ exists m1 m2,
       subtitle_datetime snips ts1 = Ok m1
       /\ subtitle_datetime snips ts2 = Ok m2
       /\ 0 <= m1 /\ m1 <= m2 /\ m2 < 86400 * usec
       /\ convert_message_timestamp_to_subtitle_time snips ts1
          = Ok (strftime_HMS00 m1)
       /\ convert_message_timestamp_to_subtitle_time snips ts2
          = Ok (strftime_HMS00 m2)
       /\ printed_time_leb (strftime_HMS00 m1) (strftime_HMS00 m2) = true.
Proof.
  intros Hps Hsorted H1 H2 Hoff Hle.
  destruct ps as [|p ps'] eqn:Eps.
  - left. apply parse_snips_nil in Hps. subst snips.
    unfold convert_message_timestamp_to_subtitle_time, subtitle_datetime.
    rewrite H1, H2. repeat split.
  - right.
    apply (mapper_in_order snips (p :: ps') ts1 ts2 t1 t2); auto.
    + apply sorted_nonoverlapping_cuts_in_order; assumption.
    + discriminate.
Qed.

Lemma mapper_monotone_witness :
  (two_snips = []
   /\ convert_message_timestamp_to_subtitle_time two_snips (lit "04:09:22")
      = Raise IndexError
   /\ convert_message_timestamp_to_subtitle_time two_snips (lit "04:40:00")
      = Raise IndexError)
  \/ exists m1 m2,
       subtitle_datetime two_snips (lit "04:09:22") = Ok m1
       /\ subtitle_datetime two_snips (lit "04:40:00") = Ok m2
       /\ 0 <= m1 /\ m1 <= m2 /\ m2 < 86400 * usec
       /\ convert_message_timestamp_to_subtitle_time two_snips (lit "04:09:22")
          = Ok (strftime_HMS00 m1)
       /\ convert_message_timestamp_to_subtitle_time two_snips (lit "04:40:00")
          = Ok (strftime_HMS00 m2)
       /\ printed_time_leb (strftime_HMS00 m1) (strftime_HMS00 m2) = true.
Proof.
  apply (mapper_monotone two_snips
           [(320000000, 354000000); (1534000000, 1539900000)]
           (lit "04:09:22") (lit "04:40:00")
           (timedelta_hms 4 9 22) (timedelta_hms 4 40 0)).
  - vm_compute. reflexivity.
  - simpl. lia.
  - vm_compute. reflexivity.
  - vm_compute. reflexivity.
  - vm_compute. discriminate.
  - vm_compute. discriminate.
Defined.

(** C1, as the description words it: of any two raw timestamps
    [t1 <= t2], the first gets a time no later than the second. *)
Definition described_monotone (snips : list Snip) (ts1 ts2 : pystr) : Prop :=
  forall t1 t2 o1 o2,
    strptime_HMS ts1 = Ok t1 -> strptime_HMS ts2 = Ok t2 -> t1 <= t2 ->
    convert_message_timestamp_to_subtitle_time snips ts1 = Ok o1 ->
    convert_message_timestamp_to_subtitle_time snips ts2 = Ok o2 ->
    printed_time_leb o1 o2 = true.

(** A message sent at 04:00:00, before the video begins, is mapped to
    23:56:08 of the day before, and only the time of the day is printed:
    with two snips that are sorted and do not overlap, it gets
    [23:56:08.00], and the later message of 04:08:20 gets [00:04:28.00]. *)
Lemma mapper_monotone_counterexample :
  parse_snips two_snips
  = Ok [(320000000, 354000000); (1534000000, 1539900000)]
  /\ sorted_nonoverlapping [(320000000, 354000000); (1534000000, 1539900000)]
  /\ strptime_HMS (lit "04:00:00") = Ok (timedelta_hms 4 0 0)
  /\ strptime_HMS (lit "04:08:20") = Ok (timedelta_hms 4 8 20)
  /\ timedelta_hms 4 0 0 <= timedelta_hms 4 8 20
  /\ subtitle_datetime two_snips (lit "04:00:00") = Ok (- timedelta_hms 0 3 52)
  /\ convert_message_timestamp_to_subtitle_time two_snips (lit "04:00:00")
     = Ok (lit "23:56:08.00")
  /\ convert_message_timestamp_to_subtitle_time two_snips (lit "04:08:20")
     = Ok (lit "00:04:28.00")
  /\ printed_time_leb (lit "23:56:08.00") (lit "00:04:28.00") = false
  /\ ~ described_monotone two_snips (lit "04:00:00") (lit "04:08:20").
Proof.
  repeat (split; [first [vm_compute; reflexivity
                        |vm_compute; discriminate
                        |simpl; lia]|]).
  intros H.
  specialize (H (timedelta_hms 4 0 0) (timedelta_hms 4 8 20)
                (lit "23:56:08.00") (lit "00:04:28.00")).
  assert (E : printed_time_leb (lit "23:56:08.00") (lit "00:04:28.00") = true).
  { apply H; vm_compute; first [reflexivity|discriminate]. }
  vm_compute in E. discriminate.
Qed.

(** The same on the snips of the script, which are cut in order though
    two pairs of them overlap as written: the mapper returns for every
    timestamp that is read, and two messages sent in order and no earlier
    than 04:03:52 get times of the day of the video, in order, and printed
    times in order. *)
Theorem mapper_monotone_CRUMBLES (ts1 ts2 : pystr) (t1 t2 : datetime) :
  strptime_HMS ts1 = Ok t1 -> strptime_HMS ts2 = Ok t2 ->
  chat_offset <= t1 -> t1 <= t2 ->
  exists m1 m2,
    subtitle_datetime CRUMBLES_SNIPS ts1 = Ok m1
    /\ subtitle_datetime CRUMBLES_SNIPS ts2 = Ok m2
    /\ 0 <= m1 /\ m1 <= m2 /\ m2 < 86400 * usec
    /\ convert_message_timestamp_to_subtitle_time CRUMBLES_SNIPS ts1
       = Ok (strftime_HMS00 m1)
    /\ convert_message_timestamp_to_subtitle_time CRUMBLES_SNIPS ts2
       = Ok (strftime_HMS00 m2)
    /\ printed_time_leb (strftime_HMS00 m1) (strftime_HMS00 m2) = true.
Proof.
  intros H1 H2 Hoff Hle.
  destruct CRUMBLES_SNIPS_in_order as (ps & Hps & Hord & Hne).
  apply (mapper_in_order CRUMBLES_SNIPS ps ts1 ts2 t1 t2); assumption.
Qed.

Lemma mapper_monotone_CRUMBLES_witness :
  exists m1 m2,
    subtitle_datetime CRUMBLES_SNIPS (lit "04:09:22") = Ok m1
    /\ subtitle_datetime CRUMBLES_SNIPS (lit "05:30:00") = Ok m2
    /\ 0 <= m1 /\ m1 <= m2 /\ m2 < 86400 * usec
    /\ convert_message_timestamp_to_subtitle_time CRUMBLES_SNIPS
         (lit "04:09:22") = Ok (strftime_HMS00 m1)
    /\ convert_message_timestamp_to_subtitle_time CRUMBLES_SNIPS
         (lit "05:30:00") = Ok (strftime_HMS00 m2)
    /\ printed_time_leb (strftime_HMS00 m1) (strftime_HMS00 m2) = true.
Proof.
  apply (mapper_monotone_CRUMBLES (lit "04:09:22") (lit "05:30:00")
           (timedelta_hms 4 9 22) (timedelta_hms 5 30 0)).
  - vm_compute. reflexivity.
  - vm_compute. reflexivity.
  - vm_compute. discriminate.
  - vm_compute. discriminate.
Defined.
